(** * Automaker memory engine: frontmatter codec, relevance scoring,
      usage tracking, file locks and the learning recorder.

    The development embeds [libs/utils/src/memory-loader.ts] and the memory
    part of [libs/utils/src/context-loader.ts].

    Conventions of the embedding.
    - A JavaScript string is a [string]; a character is one code unit of the
      Latin-1 range (0..255), so [\s] contains the no-break space 160 and
      [toLowerCase] also maps the accented capitals 192..222.
    - The usage counters are [N] (this is exact below 2^53, where a JavaScript
      number holds every integer); a statement that depends on the value of
      a counter carries that bound as a hypothesis.
    - The file system is a map from paths to files and directories; a file
      is created only in a directory that exists.
    - [importance] and the scores are JavaScript numbers: [NaN] or an exact
      rational; the rounding of IEEE doubles is not represented.
    - A regular expression is a value of [regex]; [exec] lists the ways it can
      match at the start of a string in the priority order of a backtracking
      matcher (greedy before shorter, lazy before longer, left alternative
      first), so the head of the list is the match JavaScript reports. *)

From Stdlib Require Import Ascii String List ZArith NArith QArith Lia Bool.
From Stdlib Require Import DecimalString DecimalN Lqa.
From stdpp Require Import base gmap strings list.

Local Open Scope string_scope.
Local Open Scope list_scope.

(* ===================================================================== *)
(** ** Characters *)
(* ===================================================================== *)

Module Chr.

Definition code (c : ascii) : N := N_of_ascii c.

Definition between (lo hi : N) (c : ascii) : bool :=
  (N.leb lo (code c) && N.leb (code c) hi)%bool.

(** [\s]: tab, line feed, vertical tab, form feed, carriage return, space
    and no-break space. *)
Definition is_space (c : ascii) : bool :=
  (between 9 13 c || N.eqb (code c) 32 || N.eqb (code c) 160)%bool.

(** [\d] *)
Definition is_digit (c : ascii) : bool := between 48 57 c.

(** [a-z] *)
Definition is_lower (c : ascii) : bool := between 97 122 c.

(** [.] : anything but a line terminator. *)
Definition is_line_char (c : ascii) : bool :=
  negb (N.eqb (code c) 10 || N.eqb (code c) 13).

(** [[\s\S]] *)
Definition is_any (_ : ascii) : bool := true.

(** [[\d.]] *)
Definition is_digit_or_dot (c : ascii) : bool :=
  (is_digit c || N.eqb (code c) 46)%bool.

(** The class of the single quote and the double quote. *)
Definition is_quote (c : ascii) : bool :=
  (N.eqb (code c) 39 || N.eqb (code c) 34)%bool.

Definition is_char (x : ascii) (c : ascii) : bool := Ascii.eqb x c.

(** [String.prototype.toLowerCase] on one Latin-1 code unit. *)
Definition toLowerCase (c : ascii) : ascii :=
  if (between 65 90 c || between 192 214 c || between 216 222 c)%bool
  then ascii_of_N (code c + 32) else c.

Definition digit_value (c : ascii) : N := code c - 48.

End Chr.

(* ===================================================================== *)
(** ** String primitives of the JavaScript runtime *)
(* ===================================================================== *)

Module Str.

Definition LF : string := String (ascii_of_N 10) "".
Definition DQUOTE : string := String (ascii_of_N 34) "".
Definition BACKSLASH : string := String (ascii_of_N 92) "".

Fixpoint drop (n : nat) (s : string) : string :=
  match n, s with
  | O, _ => s
  | S n', String _ s' => drop n' s'
  | S _, EmptyString => EmptyString
  end.

Fixpoint take (n : nat) (s : string) : string :=
  match n, s with
  | O, _ => EmptyString
  | S n', String c s' => String c (take n' s')
  | S _, EmptyString => EmptyString
  end.

(** [s.slice(n)] for [0 <= n]. *)
Definition slice (n : nat) (s : string) : string := drop n s.

Fixpoint map (f : ascii -> ascii) (s : string) : string :=
  match s with
  | EmptyString => EmptyString
  | String c s' => String (f c) (map f s')
  end.

Fixpoint filter (p : ascii -> bool) (s : string) : string :=
  match s with
  | EmptyString => EmptyString
  | String c s' => if p c then String c (filter p s') else filter p s'
  end.

Fixpoint existsb (p : ascii -> bool) (s : string) : bool :=
  match s with
  | EmptyString => false
  | String c s' => (p c || existsb p s')%bool
  end.

Fixpoint forallb (p : ascii -> bool) (s : string) : bool :=
  match s with
  | EmptyString => true
  | String c s' => (p c && forallb p s')%bool
  end.

Definition toLowerCase (s : string) : string := map Chr.toLowerCase s.

Fixpoint trimStart (s : string) : string :=
  match s with
  | String c s' => if Chr.is_space c then trimStart s' else s
  | EmptyString => EmptyString
  end.

Fixpoint trimEnd (s : string) : string :=
  match s with
  | EmptyString => EmptyString
  | String c s' =>
      match trimEnd s' with
      | EmptyString => if Chr.is_space c then EmptyString else String c EmptyString
      | t => String c t
      end
  end.

(** [s.trim()] *)
Definition trim (s : string) : string := trimEnd (trimStart s).

(** [s.split(sep)] for a separator that is one character of a class:
    [split(',')] and [split(/[-_]/)]. *)
Fixpoint split (sep : ascii -> bool) (s : string) : list string :=
  match s with
  | EmptyString => [EmptyString]
  | String c s' =>
      if sep c then EmptyString :: split sep s'
      else match split sep s' with
           | w :: ws => String c w :: ws
           | [] => [String c EmptyString]
           end
  end.

(** [s.split(/\s+/)]: the separators are the maximal runs of white space;
    [in_run] records that the previous character belonged to one. *)
Fixpoint split_spaces_from (in_run : bool) (s : string) : list string :=
  match s with
  | EmptyString => [EmptyString]
  | String c s' =>
      if Chr.is_space c
      then (if in_run then split_spaces_from true s'
            else EmptyString :: split_spaces_from true s')
      else match split_spaces_from false s' with
           | w :: ws => String c w :: ws
           | [] => [String c EmptyString]
           end
  end.

Definition split_spaces (s : string) : list string := split_spaces_from false s.

(** [s.replace(/\s+/g, r)] *)
Fixpoint replace_space_runs_from (in_run : bool) (r : string) (s : string) : string :=
  match s with
  | EmptyString => EmptyString
  | String c s' =>
      if Chr.is_space c
      then (if in_run then replace_space_runs_from true r s'
            else r +:+ replace_space_runs_from true r s')
      else String c (replace_space_runs_from false r s')
  end.

Definition replace_space_runs (r : string) (s : string) : string :=
  replace_space_runs_from false r s.

(** [s.replace(/c/g, r)] for a single character [c]. *)
Fixpoint replace_char (p : ascii -> bool) (r : string) (s : string) : string :=
  match s with
  | EmptyString => EmptyString
  | String c s' =>
      if p c then r +:+ replace_char p r s' else String c (replace_char p r s')
  end.

(** [s.replace(lit, '')] with a string pattern: only the first occurrence
    is removed. *)
Fixpoint remove_first (lit : string) (s : string) : string :=
  if String.prefix lit s then drop (String.length lit) s
  else match s with
       | EmptyString => EmptyString
       | String c s' => String c (remove_first lit s')
       end.

(** [xs.join(sep)] *)
Fixpoint join (sep : string) (xs : list string) : string :=
  match xs with
  | [] => EmptyString
  | [x] => x
  | x :: rest => x +:+ sep +:+ join sep rest
  end.

(** [replace] with the global pattern that is a quote at the start or a
    quote at the end and the empty replacement: a quote in first position
    goes, and so does a quote in last position. *)
Definition strip_last_quote (s : string) : string :=
  match String.rev s with
  | String c r => if Chr.is_quote c then String.rev r else s
  | EmptyString => s
  end.

Definition strip_outer_quotes (s : string) : string :=
  match s with
  | String c s' => if Chr.is_quote c then strip_last_quote s' else strip_last_quote s
  | EmptyString => EmptyString
  end.

(** Decimal digits of a natural number, as a template literal prints an
    integer below 1e21; from 1e21 on JavaScript prints the exponent
    notation, which is not represented.  The statements on counters carry
    the bound 2^53. *)
Definition of_N (n : N) : string :=
  NilZero.string_of_uint (N.to_uint n).

(** [parseInt(s, 10)] on a string of decimal digits: the value of the
    digits, which is what JavaScript returns up to 2^53; above, the double
    that is returned is the value rounded, which is not represented. *)
Fixpoint digits_value (acc : N) (s : string) : N :=
  match s with
  | EmptyString => acc
  | String c s' => digits_value (acc * 10 + Chr.digit_value c) s'
  end.

Definition parseInt (s : string) : N := digits_value 0 s.

End Str.

(* ===================================================================== *)
(** ** Regular expressions *)
(* ===================================================================== *)

Module Re.

(** The fragment of the regular expressions of JavaScript that the two
    source files use: literals, character classes, an optional character,
    the repetition of a character class (greedy or lazy, with a minimal
    count), one capturing group, concatenation. *)
Inductive regex : Type :=
| Lit (s : string)
| Class (p : ascii -> bool)
| Opt (p : ascii -> bool)
| Rep (p : ascii -> bool) (min : nat) (lazy : bool)
| Group (r : regex)
| Seq (r1 r2 : regex).

(** The suffixes left by [p{min,}], longest match first. *)
Fixpoint rep_greedy (p : ascii -> bool) (min : nat) (s : string) : list string :=
  let stop := match min with O => [s] | S _ => [] end in
  match s with
  | String c s' => if p c then rep_greedy p (Nat.pred min) s' ++ stop else stop
  | EmptyString => stop
  end.

(** The suffixes left by [p{min,}?], shortest match first. *)
Fixpoint rep_lazy (p : ascii -> bool) (min : nat) (s : string) : list string :=
  let stop := match min with O => [s] | S _ => [] end in
  match s with
  | String c s' => if p c then stop ++ rep_lazy p (Nat.pred min) s' else stop
  | EmptyString => stop
  end.

(** [consumed s rest]: the prefix of [s] that was read when [rest] is what
    remains of it. *)
Definition consumed (s rest : string) : string :=
  Str.take (String.length s - String.length rest) s.

(** All the matches of [r] at the start of [s], as pairs of the captured
    groups and the rest of the input, in the order in which a backtracking
    matcher tries them. *)
Fixpoint exec (r : regex) (s : string) : list (list string * string) :=
  match r with
  | Lit l => if String.prefix l s then [([], Str.drop (String.length l) s)] else []
  | Class p =>
      match s with
      | String c s' => if p c then [([], s')] else []
      | EmptyString => []
      end
  | Opt p =>
      match s with
      | String c s' => if p c then [([], s'); ([], s)] else [([], s)]
      | EmptyString => [([], s)]
      end
  | Rep p min lazy =>
      List.map (fun rest => ([], rest))
               (if lazy then rep_lazy p min s else rep_greedy p min s)
  | Group r1 =>
      List.map (fun m => (consumed s (snd m) :: fst m, snd m)) (exec r1 s)
  | Seq r1 r2 =>
      List.flat_map
        (fun m1 => List.map (fun m2 => (fst m1 ++ fst m2, snd m2)) (exec r2 (snd m1)))
        (exec r1 s)
  end.

(** The value of [str.match(re)] for a pattern without the [g] flag:
    [whole] is element 0 of the array, [groups] are the following ones and
    [after] is the input that follows the match. *)
Record match_result : Type := MatchResult {
  whole : string;
  groups : list string;
  after : string
}.

Definition group1 (m : match_result) : string := List.nth 0 (groups m) "".

(** A pattern that starts with [^]: only position 0 is tried. *)
Definition match_anchored (r : regex) (s : string) : option match_result :=
  match exec r s with
  | (caps, rest) :: _ => Some (MatchResult (consumed s rest) caps rest)
  | [] => None
  end.

(** A pattern without anchor: the positions are tried from left to right. *)
Fixpoint match_search (r : regex) (s : string) : option match_result :=
  match match_anchored r s with
  | Some m => Some m
  | None =>
      match s with
      | String _ s' => match_search r s'
      | EmptyString => None
      end
  end.

(** [re.test(str)] *)
Definition test (r : regex) (s : string) : bool :=
  match match_search r s with Some _ => true | None => false end.

End Re.

Declare Scope regex_scope.
Delimit Scope regex_scope with re.
Infix "+++" := Re.Seq (at level 60, right associativity) : regex_scope.

(* ===================================================================== *)
(** ** JavaScript numbers *)
(* ===================================================================== *)

Module Num.

Inductive number : Type :=
| NaN
| Num (q : Q).

Definition lift2 (f : Q -> Q -> Q) (a b : number) : number :=
  match a, b with
  | Num x, Num y => Num (f x y)
  | _, _ => NaN
  end.

Definition mul : number -> number -> number := lift2 Qmult.

(** [Math.min(a, b)] and [Math.max(a, b)]: [NaN] if an argument is. *)
Definition min : number -> number -> number :=
  lift2 (fun x y => if Qle_bool x y then x else y).
Definition max : number -> number -> number :=
  lift2 (fun x y => if Qle_bool y x then x else y).

(** [a >= b] and [a > b]: false as soon as an argument is [NaN]. *)
Definition geb (a b : number) : bool :=
  match a, b with
  | Num x, Num y => Qle_bool y x
  | _, _ => false
  end.
Definition gtb (a b : number) : bool :=
  match a, b with
  | Num x, Num y => negb (Qle_bool x y)
  | _, _ => false
  end.

Definition of_N (n : N) : number := Num (inject_Z (Z.of_N n)).

(** [parseFloat] on a string of digits and dots, which is all the pattern
    of [importance] captures: the longest prefix of the shape
    digits, then possibly a dot and digits, with a digit somewhere. *)
Fixpoint take_digits (s : string) : string :=
  match s with
  | String c s' => if Chr.is_digit c then String c (take_digits s') else EmptyString
  | EmptyString => EmptyString
  end.

Fixpoint drop_digits (s : string) : string :=
  match s with
  | String c s' => if Chr.is_digit c then drop_digits s' else s
  | EmptyString => EmptyString
  end.

Definition parseFloat (s : string) : number :=
  let int_part := take_digits s in
  let frac_part :=
    match drop_digits s with
    | String "." s' => take_digits s'
    | _ => EmptyString
    end in
  match int_part, frac_part with
  | EmptyString, EmptyString => NaN
  | _, _ =>
      let scale := Z.pow 10 (Z.of_nat (String.length frac_part)) in
      Num (Qred (Qmake (Z.of_N (Str.parseInt int_part) * scale
                        + Z.of_N (Str.parseInt frac_part))
                       (Z.to_pos scale)))
  end.

(** The decimal digits after the point, until the expansion ends. *)
Fixpoint frac_digits (fuel : nat) (r d : Z) : string :=
  match fuel with
  | O => EmptyString
  | S fuel' =>
      if Z.eqb r 0 then EmptyString
      else Str.of_N (Z.to_N (r * 10 / d)) +:+ frac_digits fuel' (r * 10 mod d) d
  end.

(** The text a template literal gives a number (exact on the decimal
    fractions of at most 20 places, without the exponent notation that
    JavaScript uses below 1e-6 and from 1e21 on). *)
Definition toString (x : number) : string :=
  match x with
  | NaN => "NaN"
  | Num q =>
      let n := Z.abs (Qnum q) in
      let d := Zpos (Qden q) in
      (if Z.ltb (Qnum q) 0 then "-" else "")
      +:+ Str.of_N (Z.to_N (n / d))
      +:+ (if Z.eqb (n mod d) 0 then "" else "." +:+ frac_digits 20 (n mod d) d)
  end.

End Num.

(* ===================================================================== *)
(** ** The frontmatter codec (memory-loader.ts) *)
(* ===================================================================== *)

Module Codec.
Import Re.
Local Open Scope regex_scope.

Record UsageStats : Type := mkUsageStats {
  loaded : N;
  referenced : N;
  successfulFeatures : N
}.

Record MemoryMetadata : Type := mkMemoryMetadata {
  tags : list string;
  summary : string;
  relevantTo : list string;
  importance : Num.number;
  relatedFiles : list string;
  usageStats : UsageStats
}.

(** [keyof UsageStats] *)
Inductive StatName : Type := Loaded | Referenced | SuccessfulFeatures.

Definition set_tags (v : list string) (m : MemoryMetadata) : MemoryMetadata :=
  mkMemoryMetadata v (summary m) (relevantTo m) (importance m) (relatedFiles m) (usageStats m).
Definition set_summary (v : string) (m : MemoryMetadata) : MemoryMetadata :=
  mkMemoryMetadata (tags m) v (relevantTo m) (importance m) (relatedFiles m) (usageStats m).
Definition set_relevantTo (v : list string) (m : MemoryMetadata) : MemoryMetadata :=
  mkMemoryMetadata (tags m) (summary m) v (importance m) (relatedFiles m) (usageStats m).
Definition set_importance (v : Num.number) (m : MemoryMetadata) : MemoryMetadata :=
  mkMemoryMetadata (tags m) (summary m) (relevantTo m) v (relatedFiles m) (usageStats m).
Definition set_relatedFiles (v : list string) (m : MemoryMetadata) : MemoryMetadata :=
  mkMemoryMetadata (tags m) (summary m) (relevantTo m) (importance m) v (usageStats m).
Definition set_usageStats (v : UsageStats) (m : MemoryMetadata) : MemoryMetadata :=
  mkMemoryMetadata (tags m) (summary m) (relevantTo m) (importance m) (relatedFiles m) v.

Definition get_stat (k : StatName) (u : UsageStats) : N :=
  match k with
  | Loaded => loaded u
  | Referenced => referenced u
  | SuccessfulFeatures => successfulFeatures u
  end.

Definition set_stat (k : StatName) (v : N) (u : UsageStats) : UsageStats :=
  match k with
  | Loaded => mkUsageStats v (referenced u) (successfulFeatures u)
  | Referenced => mkUsageStats (loaded u) v (successfulFeatures u)
  | SuccessfulFeatures => mkUsageStats (loaded u) (referenced u) v
  end.

Definition createDefaultMetadata : MemoryMetadata :=
  {| tags := [];
     summary := "";
     relevantTo := [];
     importance := Num.Num (1 # 2);
     relatedFiles := [];
     usageStats := {| loaded := 0; referenced := 0; successfulFeatures := 0 |} |}.

Definition CR : ascii := ascii_of_N 13.
Definition NL : ascii := ascii_of_N 10.

(** [/^---\s*\r?\n([\s\S]*?)\r?\n---\s*\r?\n/]; the anchor is the choice of
    [match_anchored] in [parseFrontmatter]. *)
Definition frontmatterRegex : regex :=
  Lit "---" +++ Rep Chr.is_space 0 false +++ Opt (Chr.is_char CR) +++ Class (Chr.is_char NL)
  +++ Group (Rep Chr.is_any 0 true)
  +++ Opt (Chr.is_char CR) +++ Class (Chr.is_char NL)
  +++ Lit "---" +++ Rep Chr.is_space 0 false +++ Opt (Chr.is_char CR) +++ Class (Chr.is_char NL).

(** [/key:\s*\[(.*?)\]/] for [tags], [relevantTo] and [relatedFiles]. *)
Definition listRegex (key : string) : regex :=
  Lit (key +:+ ":") +++ Rep Chr.is_space 0 false +++ Class (Chr.is_char "[")
  +++ Group (Rep Chr.is_line_char 0 true) +++ Class (Chr.is_char "]").

(** [/summary:\s*(.+)/] *)
Definition summaryRegex : regex :=
  Lit "summary:" +++ Rep Chr.is_space 0 false +++ Group (Rep Chr.is_line_char 1 false).

(** [/importance:\s*([\d.]+)/] *)
Definition importanceRegex : regex :=
  Lit "importance:" +++ Rep Chr.is_space 0 false +++ Group (Rep Chr.is_digit_or_dot 1 false).

(** [/key:\s*(\d+)/] for the three counters. *)
Definition counterRegex (key : string) : regex :=
  Lit (key +:+ ":") +++ Rep Chr.is_space 0 false +++ Group (Rep Chr.is_digit 1 false).

(** The value of a bracketed list: split at the commas, trim every item,
    remove its quotes, keep the items that are not empty. *)
Definition parseList (inner : string) : list string :=
  List.filter (fun t => Nat.ltb 0 (String.length t))
    (List.map (fun t => Str.filter (fun c => negb (Chr.is_quote c)) (Str.trim t))
              (Str.split (Chr.is_char ",") inner)).

Definition on_match {A : Type} (o : option match_result) (f : match_result -> A -> A) (a : A) : A :=
  match o with
  | Some m => f m a
  | None => a
  end.

Record parsed : Type := mkParsed {
  metadata : MemoryMetadata;
  body : string
}.

(** [parseFrontmatter].  The statements of the [try] block are calls of
    total string functions on strings, none of which throws, so that the
    [catch] clause is never entered; the function is the [try] block. *)
Definition parseFrontmatter (content : string) : parsed :=
  match match_anchored frontmatterRegex content with
  | None => {| metadata := createDefaultMetadata; body := content |}
  | Some m =>
      let frontmatterStr := group1 m in
      let body := Str.slice (String.length (whole m)) content in
      let metadata := createDefaultMetadata in
      let metadata :=
        on_match (match_search (listRegex "tags") frontmatterStr)
                 (fun tagsMatch => set_tags (parseList (group1 tagsMatch))) metadata in
      let metadata :=
        on_match (match_search summaryRegex frontmatterStr)
                 (fun summaryMatch =>
                    set_summary (Str.strip_outer_quotes (Str.trim (group1 summaryMatch))))
                 metadata in
      let metadata :=
        on_match (match_search (listRegex "relevantTo") frontmatterStr)
                 (fun relevantMatch => set_relevantTo (parseList (group1 relevantMatch)))
                 metadata in
      let metadata :=
        on_match (match_search importanceRegex frontmatterStr)
                 (fun importanceMatch =>
                    let value := Num.parseFloat (group1 importanceMatch) in
                    set_importance (Num.max (Num.Num 0) (Num.min (Num.Num 1) value)))
                 metadata in
      let metadata :=
        on_match (match_search (listRegex "relatedFiles") frontmatterStr)
                 (fun relatedMatch => set_relatedFiles (parseList (group1 relatedMatch)))
                 metadata in
      let loadedMatch := match_search (counterRegex "loaded") frontmatterStr in
      let referencedMatch := match_search (counterRegex "referenced") frontmatterStr in
      let successMatch := match_search (counterRegex "successfulFeatures") frontmatterStr in
      let stats := usageStats metadata in
      let stats :=
        on_match loadedMatch (fun mt => set_stat Loaded (Str.parseInt (group1 mt))) stats in
      let stats :=
        on_match referencedMatch
                 (fun mt => set_stat Referenced (Str.parseInt (group1 mt))) stats in
      let stats :=
        on_match successMatch
                 (fun mt => set_stat SuccessfulFeatures (Str.parseInt (group1 mt))) stats in
      {| metadata := set_usageStats stats metadata; body := body |}
  end.

(** The characters of [/[:\[\]{}#&*!|>'...%@`\n\r]/] (the dots stand for the
    double quote), by code. *)
Definition yaml_special_codes : list N :=
  [58; 91; 93; 123; 125; 35; 38; 42; 33; 124; 62; 39; 34; 37; 64; 96; 10; 13]%N.

Definition is_yaml_special (c : ascii) : bool :=
  List.existsb (N.eqb (Chr.code c)) yaml_special_codes.

Definition escapeYamlString (str : string) : string :=
  if (Str.existsb is_yaml_special str || negb (String.eqb (Str.trim str) str))%bool
  then Str.DQUOTE
       +:+ Str.replace_char (Chr.is_char (ascii_of_N 34)) (Str.BACKSLASH +:+ Str.DQUOTE) str
       +:+ Str.DQUOTE
  else str.

Definition serializeFrontmatter (metadata : MemoryMetadata) : string :=
  let escapedTags := List.map escapeYamlString (tags metadata) in
  let escapedRelevantTo := List.map escapeYamlString (relevantTo metadata) in
  let escapedRelatedFiles := List.map escapeYamlString (relatedFiles metadata) in
  let escapedSummary := escapeYamlString (summary metadata) in
  "---" +:+ Str.LF
  +:+ "tags: [" +:+ Str.join ", " escapedTags +:+ "]" +:+ Str.LF
  +:+ "summary: " +:+ escapedSummary +:+ Str.LF
  +:+ "relevantTo: [" +:+ Str.join ", " escapedRelevantTo +:+ "]" +:+ Str.LF
  +:+ "importance: " +:+ Num.toString (importance metadata) +:+ Str.LF
  +:+ "relatedFiles: [" +:+ Str.join ", " escapedRelatedFiles +:+ "]" +:+ Str.LF
  +:+ "usageStats:" +:+ Str.LF
  +:+ "  loaded: " +:+ Str.of_N (loaded (usageStats metadata)) +:+ Str.LF
  +:+ "  referenced: " +:+ Str.of_N (referenced (usageStats metadata)) +:+ Str.LF
  +:+ "  successfulFeatures: " +:+ Str.of_N (successfulFeatures (usageStats metadata)) +:+ Str.LF
  +:+ "---".

End Codec.

(* ===================================================================== *)
(** ** Term extraction and scoring (memory-loader.ts) *)
(* ===================================================================== *)

Module Scoring.
Import Codec.

Definition stopWords : gset string :=
  list_to_set
    ["a"; "an"; "the"; "and"; "or"; "but"; "in"; "on"; "at"; "to"; "for"; "of";
     "with"; "by"; "is"; "it"; "this"; "that"; "be"; "as"; "are"; "was"; "were";
     "been"; "being"; "have"; "has"; "had"; "do"; "does"; "did"; "will"; "would";
     "could"; "should"; "may"; "might"; "must"; "shall"; "can"; "need"; "dare";
     "ought"; "used"; "add"; "create"; "implement"; "build"; "make"; "update";
     "fix"; "change"; "modify"].

(** The replacement of [/[^a-z0-9\s]/g] by a space. *)
Definition blank_non_word (c : ascii) : ascii :=
  if (Chr.is_lower c || Chr.is_digit c || Chr.is_space c)%bool then c else " "%char.

Definition extractTerms (text : string) : list string :=
  List.filter
    (fun word => (Nat.ltb 2 (String.length word) && negb (bool_decide (word ∈ stopWords)))%bool)
    (Str.split_spaces (Str.map blank_non_word (Str.toLowerCase text))).

Definition countMatches (arr1 arr2 : list string) : nat :=
  let set2 : gset string := list_to_set (List.map Str.toLowerCase arr2) in
  List.length (List.filter (fun t => bool_decide (Str.toLowerCase t ∈ set2)) arr1).

Definition Q_of_N (n : N) : Q := inject_Z (Z.of_N n).

(** The constants 0.5, 0.3 and 0.2 are the fractions 1/2, 3/10 and 1/5. *)
Definition calculateUsageScore (stats : UsageStats) : Q :=
  if N.eqb (loaded stats) 0 then 1%Q
  else
    let referenceRate := (Q_of_N (referenced stats) / Q_of_N (loaded stats))%Q in
    let successRate :=
      if N.ltb 0 (referenced stats)
      then (Q_of_N (successfulFeatures stats) / Q_of_N (referenced stats))%Q
      else 0%Q in
    ((1 # 2) + referenceRate * (3 # 10) + successRate * (1 # 5))%Q.

End Scoring.

(* ===================================================================== *)
(** ** The file system behind [MemoryFsModule] *)
(* ===================================================================== *)

Module Fs.

(** A file has a content and may be unreadable; a directory has none.
    Reading fails on a missing path, a directory or an unreadable file.
    Writing and appending fail on a directory and succeed on a file; at a
    free path they create the file when the directory of the path exists,
    and fail when it does not. *)
Inductive node : Type :=
| File (content : string) (readable : bool)
| Dir.

Abbreviation fs := (gmap string node).

Inductive result (A : Type) : Type :=
| Ok (a : A)
| Throw.
Arguments Ok {A} a.
Arguments Throw {A}.

(** A computation on the file system that returns or throws. *)
Definition io (A : Type) : Type := fs -> result A * fs.

Definition ret {A : Type} (a : A) : io A := fun w => (Ok a, w).

Definition bind {A B : Type} (m : io A) (k : A -> io B) : io B :=
  fun w =>
    match m w with
    | (Ok a, w') => k a w'
    | (Throw, w') => (Throw, w')
    end.

(** [try { body } catch { handler }] *)
Definition try_catch {A : Type} (body handler : io A) : io A :=
  fun w =>
    match body w with
    | (Ok a, w') => (Ok a, w')
    | (Throw, w') => handler w'
    end.

(** [path.join(dir, name)] for a directory path in normal form and a file
    name without separator. *)
Definition path_join (dir name : string) : string := dir +:+ "/" +:+ name.

Definition access (p : string) : io unit :=
  fun w => match w !! p with
           | Some _ => (Ok tt, w)
           | None => (Throw, w)
           end.

Definition readFile (p : string) : io string :=
  fun w => match w !! p with
           | Some (File c true) => (Ok c, w)
           | _ => (Throw, w)
           end.

(** [path.dirname]: the path before its last slash; none for a name without
    slash. *)
Fixpoint parent (p : string) : option string :=
  match p with
  | EmptyString => None
  | String c rest =>
      match parent rest with
      | Some d => Some (String c d)
      | None => if Chr.is_char "/" c then Some EmptyString else None
      end
  end.

(** Whether a file can be created at the free path [p]: its directory must
    be a directory of the file system.  A name without slash lies in the
    working directory and a name right under the root in the root, both of
    which exist. *)
Definition parent_is_dir (w : fs) (p : string) : bool :=
  match parent p with
  | None => true
  | Some EmptyString => true
  | Some d => match w !! d with
              | Some Dir => true
              | _ => false
              end
  end.

Definition writeFile (p content : string) : io unit :=
  fun w =>
    match w !! p with
    | Some Dir => (Throw, w)
    | Some (File _ r) => (Ok tt, <[p := File content r]> w)
    | None =>
        if parent_is_dir w p then (Ok tt, <[p := File content true]> w) else (Throw, w)
    end.

Definition appendFile (p content : string) : io unit :=
  fun w =>
    match w !! p with
    | Some (File c r) => (Ok tt, <[p := File (c +:+ content) r]> w)
    | Some Dir => (Throw, w)
    | None =>
        if parent_is_dir w p then (Ok tt, <[p := File content true]> w) else (Throw, w)
    end.

(** The name of [p] inside [dir] when [p] is a direct child of it. *)
Definition child_name (dir p : string) : option string :=
  if String.prefix (dir +:+ "/") p
  then let name := Str.drop (String.length dir + 1) p in
       if Str.existsb (Chr.is_char "/") name then None else Some name
  else None.

Definition readdir (dir : string) : io (list string) :=
  fun w => match w !! dir with
           | Some Dir => (Ok (omap (child_name dir) (fst <$> map_to_list w)), w)
           | _ => (Throw, w)
           end.

End Fs.

Notation "'do' x <- m 'in' k" := (Fs.bind m (fun x => k))
  (at level 10, x name, m at level 100, k at level 200, only parsing).
Notation "m '>>' k" := (Fs.bind m (fun _ => k))
(at level 100, k at level 200, right associativity, only parsing).

(* ===================================================================== *)
(** ** Usage tracking and the learning recorder (memory-loader.ts) *)
(* ===================================================================== *)

Module Memory.
Import Codec Scoring Fs.

(** [getMemoryDir] *)
Definition getMemoryDir (projectPath : string) : string :=
  path_join (path_join projectPath ".automaker") "memory".

(** [withFileLock] when no other call on [filePath] is in flight: the lock
    table has no entry for the path, the call installs one, runs the
    operation and removes the entry in [finally], so what is left is the
    effect and the outcome of the operation.  The interleaving of several
    calls is the subject of the module [Lock] below. *)
Definition withFileLock {T : Type} (filePath : string) (operation : io T) : io T :=
  operation.

(** [metadata.usageStats[stat]++]: one more, which is what JavaScript
    computes below 2^53; from 2^53 on the sum is rounded, which is not
    represented. *)
Definition bump (stat : StatName) (m : MemoryMetadata) : MemoryMetadata :=
  set_usageStats (set_stat stat (get_stat stat (usageStats m) + 1) (usageStats m)) m.

(** The content that [incrementUsageStat] writes for the content it read. *)
Definition bumped_content (stat : StatName) (content : string) : string :=
  let r := parseFrontmatter content in
  serializeFrontmatter (bump stat (metadata r)) +:+ Str.LF +:+ body r.

Definition incrementUsageStat (filePath : string) (stat : StatName) : io unit :=
  withFileLock filePath
    (try_catch
       (do content <- readFile filePath in
        writeFile filePath (bumped_content stat content))
       (ret tt)).

Inductive LearningType : Type := decision | learning | pattern | gotcha.

(** The optional fields are [None] when the property is absent. *)
Record LearningEntry : Type := mkLearningEntry {
  category : string;
  type : LearningType;
  content : string;
  context : option string;
  why : option string;
  rejected : option string;
  tradeoffs : option string;
  breaking : option string
}.

(** [if (field) lines.push(label + field)]: an absent field and the empty
    string are both falsy. *)
Definition bullet (label : string) (field : option string) : list string :=
  match field with
  | Some v => if String.eqb v "" then [] else ["- **" +:+ label +:+ ":** " +:+ v]
  | None => []
  end.

(** [formatLearning]; [date] is the value of
    [new Date().toISOString().split('T')[0]] at the time of the call. *)
Definition formatLearning (date : string) (l : LearningEntry) : string :=
  match type l with
  | decision =>
      Str.join Str.LF
        ([Str.LF +:+ "### " +:+ content l +:+ " (" +:+ date +:+ ")"]
         ++ bullet "Context" (context l)
         ++ bullet "Why" (why l)
         ++ bullet "Rejected" (rejected l)
         ++ bullet "Trade-offs" (tradeoffs l)
         ++ bullet "Breaking if changed" (breaking l))
  | gotcha =>
      Str.join Str.LF
        ([Str.LF +:+ "#### [Gotcha] " +:+ content l +:+ " (" +:+ date +:+ ")"]
         ++ bullet "Situation" (context l)
         ++ bullet "Root cause" (why l)
         ++ bullet "How to avoid" (tradeoffs l))
  | _ =>
      let prefix := match type l with pattern => "[Pattern]" | _ => "[Learned]" end in
      Str.join Str.LF
        ([Str.LF +:+ "#### " +:+ prefix +:+ " " +:+ content l +:+ " (" +:+ date +:+ ")"]
         ++ bullet "Problem solved" (context l)
         ++ bullet "Why this works" (why l)
         ++ bullet "Trade-offs" (tradeoffs l))
  end.

(** The characters that [/[^a-z0-9-]/g] leaves. *)
Definition is_file_char (c : ascii) : bool :=
  (Chr.is_lower c || Chr.is_digit c || Chr.is_char "-" c)%bool.

Definition sanitizeCategory (category : string) : string :=
  Str.filter is_file_char (Str.replace_space_runs "-" (Str.toLowerCase category)).

(** [sanitizedCategory || 'general'] *)
Definition or_general (sanitizedCategory : string) : string :=
  if String.eqb sanitizedCategory "" then "general" else sanitizedCategory.

Definition learningFileName (l : LearningEntry) : string :=
  or_general (sanitizeCategory (category l)) +:+ ".md".

Definition learningFilePath (projectPath : string) (l : LearningEntry) : string :=
  path_join (getMemoryDir projectPath) (learningFileName l).

Definition seededMetadata (l : LearningEntry) : MemoryMetadata :=
  {| tags := [or_general (sanitizeCategory (category l))];
     summary := category l +:+ " implementation decisions and patterns";
     relevantTo := [or_general (sanitizeCategory (category l))];
     importance := Num.Num (7 # 10);
     relatedFiles := [];
     usageStats := {| loaded := 0; referenced := 0; successfulFeatures := 0 |} |}.

Definition appendLearning (projectPath : string) (date : string) (l : LearningEntry) : io unit :=
  let filePath := learningFilePath projectPath l in
  withFileLock filePath
    (try_catch
       (access filePath >>
        let formatted := formatLearning date l in
        appendFile filePath (Str.LF +:+ formatted))
       (let content :=
          serializeFrontmatter (seededMetadata l)
          +:+ (Str.LF +:+ "# " +:+ category l +:+ Str.LF)
          +:+ formatLearning date l in
        writeFile filePath content)).

End Memory.

(* ===================================================================== *)
(** ** Selection of the memory files (context-loader.ts) *)
(* ===================================================================== *)

Module Loader.
Import Codec Scoring Fs Memory.

Record TaskContext : Type := mkTaskContext {
  title : string;
  description : option string
}.

Record ScoredFile : Type := mkScoredFile {
  fileName : string;
  filePath : string;
  sf_body : string;
  sf_metadata : MemoryMetadata;
  score : Num.number
}.

Record MemoryFileInfo : Type := mkMemoryFileInfo {
  name : string;
  path : string;
  mf_content : string;
  mf_category : string
}.

(** [s.endsWith(suffix)] *)
Definition endsWith (suffix s : string) : bool :=
  (Nat.leb (String.length suffix) (String.length s)
   && String.eqb (Str.drop (String.length s - String.length suffix) s) suffix)%bool.

(** The filter of the directory listing: markdown files but the index. *)
Definition is_memory_file (f : string) : bool :=
  let lower := Str.toLowerCase f in
  (endsWith ".md" lower && negb (String.eqb lower "_index.md"))%bool.

Definition taskTermsOf (taskContext : option TaskContext) : list string :=
  match taskContext with
  | Some tc =>
      extractTerms (title tc +:+ " " +:+ match description tc with
                                         | Some d => d
                                         | None => ""
                                         end)
  | None => []
  end.

(** [fileName.replace('.md', '').split(/[-_]/).filter((t) => t.length > 2)] *)
Definition categoryTermsOf (fileName : string) : list string :=
  List.filter (fun t => Nat.ltb 2 (String.length t))
    (Str.split (fun c => (Chr.is_char "-" c || Chr.is_char "_" c)%bool)
               (Str.remove_first ".md" fileName)).

Definition Q_of_nat (n : nat) : Q := inject_Z (Z.of_nat n).

(** The score of one candidate (lines 307-334). *)
Definition scoreOf (fileName : string) (metadata : MemoryMetadata)
    (taskTerms : list string) : Num.number :=
  if Nat.ltb 0 (List.length taskTerms) then
    let tagScore := countMatches (tags metadata) taskTerms * 3 in
    let relevantToScore := countMatches (relevantTo metadata) taskTerms * 2 in
    let summaryTerms := extractTerms (summary metadata) in
    let summaryScore := countMatches summaryTerms taskTerms in
    let categoryTerms := categoryTermsOf fileName in
    let categoryScore := countMatches categoryTerms taskTerms * 4 in
    let usageScore := calculateUsageScore (usageStats metadata) in
    Num.mul
      (Num.mul (Num.Num (Q_of_nat (tagScore + relevantToScore + summaryScore + categoryScore)))
               (importance metadata))
      (Num.Num usageScore)
  else importance metadata.

(** [for (const x of xs) { acc = body(x, acc) }] in the monad of [Fs]. *)
Fixpoint for_of {A S : Type} (xs : list A) (body : A -> S -> io S) (acc : S) : io S :=
  match xs with
  | [] => ret acc
  | x :: rest => do acc' <- body x acc in for_of rest body acc'
  end.

(** One turn of the scoring loop: the file is read and parsed, skipped when
    its body is blank, scored and pushed; a failed read skips it. *)
Definition scoreCandidate (memoryDir : string) (taskTerms : list string)
    (fileName : string) (scoredFiles : list ScoredFile) : io (list ScoredFile) :=
  let filePath := path_join memoryDir fileName in
  try_catch
    (do rawContent <- readFile filePath in
     let r := parseFrontmatter rawContent in
     if String.eqb (Str.trim (body r)) "" then ret scoredFiles
     else ret (scoredFiles ++
               [mkScoredFile fileName filePath (body r) (metadata r)
                             (scoreOf fileName (metadata r) taskTerms)]))
    (ret scoredFiles).

(** [b.score - a.score > 0]: the comparator asks for [b] before [a].  A
    difference that is [NaN] counts as zero. *)
Definition comes_after (a b : ScoredFile) : bool := Num.gtb (score b) (score a).

Fixpoint insert_by_score (x : ScoredFile) (l : list ScoredFile) : list ScoredFile :=
  match l with
  | [] => [x]
  | y :: l' => if comes_after x y then y :: insert_by_score x l' else x :: l
  end.

(** [scoredFiles.sort((a, b) => b.score - a.score)], a stable sort. *)
Definition sortByScore (l : list ScoredFile) : list ScoredFile :=
  List.fold_right insert_by_score [] l.

(** One turn of a selection loop: the file is added when it passes the test
    and the set is still below the limit. *)
Definition add_while_room (test : ScoredFile -> bool) (maxMemoryFiles : Z)
    (selectedFiles : gset string) (file : ScoredFile) : gset string :=
  if (test file && Z.ltb (Z.of_nat (size selectedFiles)) maxMemoryFiles)%bool
  then selectedFiles ∪ {[fileName file]}
  else selectedFiles.

(** The selection (lines 345-374). *)
Definition selectFiles (scoredFiles : list ScoredFile) (maxMemoryFiles : Z)
    (taskTerms : list string) : gset string :=
  let selectedFiles : gset string := ∅ in
  if Z.ltb 0 maxMemoryFiles then
    let selectedFiles :=
      match List.find (fun f => String.eqb (fileName f) "gotchas.md") scoredFiles with
      | Some _ => selectedFiles ∪ {["gotchas.md"]}
      | None => selectedFiles
      end in
    let selectedFiles :=
      List.fold_left
        (add_while_room (fun file => Num.geb (importance (sf_metadata file)) (Num.Num (9 # 10)))
                        maxMemoryFiles)
        scoredFiles selectedFiles in
    if Nat.ltb 0 (List.length taskTerms) then
      List.fold_left
        (add_while_room (fun file => Num.gtb (score file) (Num.Num 0)) maxMemoryFiles)
        scoredFiles selectedFiles
    else selectedFiles
  else selectedFiles.

(** One turn of the loading loop: a selected file is pushed and its
    [loaded] counter incremented, a failure of which is ignored. *)
Definition info_of (file : ScoredFile) : MemoryFileInfo :=
  {| name := fileName file;
     path := filePath file;
     mf_content := sf_body file;
     mf_category := Str.remove_first ".md" (fileName file) |}.

Definition loadSelected (selectedFiles : gset string) (file : ScoredFile)
    (memoryFiles : list MemoryFileInfo) : io (list MemoryFileInfo) :=
  if bool_decide (fileName file ∈ selectedFiles) then
    let memoryFiles := memoryFiles ++ [info_of file] in
    try_catch (incrementUsageStat (filePath file) Loaded) (ret tt) >>
    ret memoryFiles
  else ret memoryFiles.

(** The memory part of [loadContextFiles] (lines 262-403) once the memory
    folder has been initialized: the value left in [memoryFiles]. *)
Definition loadMemoryFiles (memoryDir : string) (includeMemory : bool)
    (taskContext : option TaskContext) (maxMemoryFiles : Z) : io (list MemoryFileInfo) :=
  if includeMemory then
    try_catch
      (access memoryDir >>
       do allMemoryFiles <- readdir memoryDir in
       let memoryMdFiles := List.filter is_memory_file allMemoryFiles in
       let taskTerms := taskTermsOf taskContext in
       do scoredFiles <- for_of memoryMdFiles (scoreCandidate memoryDir taskTerms) [] in
       let scoredFiles := sortByScore scoredFiles in
       let selectedFiles := selectFiles scoredFiles maxMemoryFiles taskTerms in
       for_of scoredFiles (loadSelected selectedFiles) [])
      (ret [])
  else ret [].

End Loader.

(* ===================================================================== *)
(** ** Concurrent calls of [incrementUsageStat] under [withFileLock] *)
(* ===================================================================== *)

Module Lock.
Import Codec Fs Memory.

(** Where a call of [incrementUsageStat] stands.  Between two of these
    points the code runs without interruption on the single thread.
    - [NotStarted]: not called yet.
    - [AwaitingLock p]: suspended at [await existingLock], where
      [existingLock] is the promise [p] found in [fileLocks].
    - [Reading own]: the call has put its promise [own] in [fileLocks] and
      entered the operation, which is suspended at [await readFile].
    - [Writing own c]: the file was read and parsed, the operation is
      suspended at [await writeFile] of the content [c].
    - [Finished]: the [finally] block has run. *)
Inductive pc : Type :=
| NotStarted
| AwaitingLock (p : nat)
| Reading (own : nat)
| Writing (own : nat) (newContent : string)
| Finished.

Record call : Type := mkCall {
  c_path : string;
  c_stat : StatName;
  c_pc : pc
}.

(** [fileLocks] is the map of the module; [settled] holds the lock promises
    whose [releaseLock] was called; [fresh] numbers the promises. *)
Record state : Type := mkState {
  files : fs;
  fileLocks : gmap string nat;
  settled : gset nat;
  fresh : nat;
  calls : list call
}.

Definition set_pc (i : nat) (k : pc) (st : state) : state :=
  mkState (files st) (fileLocks st) (settled st) (fresh st)
          (alter (fun c => mkCall (c_path c) (c_stat c) k) i (calls st)).

(** Lines 113-121: a new promise goes into [fileLocks] and the operation
    starts, up to its first [await]. *)
Definition acquire (i : nat) (c : call) (st : state) : state :=
  set_pc i (Reading (fresh st))
         (mkState (files st) (<[c_path c := fresh st]> (fileLocks st)) (settled st)
                  (S (fresh st)) (calls st)).

(** Lines 122-125: [releaseLock()] and [fileLocks.delete(filePath)]. *)
Definition release (i : nat) (c : call) (own : nat) (st : state) : state :=
  set_pc i Finished
         (mkState (files st) (delete (c_path c) (fileLocks st)) (settled st ∪ {[own]})
                  (fresh st) (calls st)).

(** The call is made: lines 108-111, then [acquire] when no lock is found. *)
Definition start (st : state) (i : nat) : state :=
  match calls st !! i with
  | Some c =>
      match c_pc c with
      | NotStarted =>
          match fileLocks st !! c_path c with
          | Some existingLock => set_pc i (AwaitingLock existingLock) st
          | None => acquire i c st
          end
      | _ => st
      end
  | None => st
  end.

(** The continuation of [await existingLock] once the promise is settled:
    the call goes on to line 113 without looking at [fileLocks] again. *)
Definition resume (st : state) (i : nat) : state :=
  match calls st !! i with
  | Some c =>
      match c_pc c with
      | AwaitingLock p => if bool_decide (p ∈ settled st) then acquire i c st else st
      | _ => st
      end
  | None => st
  end.

(** The pending file operation of call [i] completes and the call runs to
    its next suspension point: after the read, lines 472-478 up to the
    write, or the [catch] clause and the release when the read failed;
    after the write, the release. *)
Definition complete_io (st : state) (i : nat) : state :=
  match calls st !! i with
  | Some c =>
      match c_pc c with
      | Reading own =>
          match readFile (c_path c) (files st) with
          | (Ok content, _) => set_pc i (Writing own (bumped_content (c_stat c) content)) st
          | (Throw, _) => release i c own st
          end
      | Writing own newContent =>
          release i c own
            (mkState (snd (writeFile (c_path c) newContent (files st)))
                     (fileLocks st) (settled st) (fresh st) (calls st))
      | _ => st
      end
  | None => st
  end.

Definition indices (st : state) : list nat := seq 0 (List.length (calls st)).

(** The microtasks run before the next file operation completes: the calls
    that wait for a settled promise resume in the order in which they
    started to wait, which is the order of the calls. *)
Definition microtasks (st : state) : state := List.fold_left resume (indices st) st.

(** The calls are issued one after the other in the same turn of the event
    loop, as in [Promise.all(calls)]. *)
Definition issue_all (st : state) : state := List.fold_left start (indices st) st.

(** A schedule names, turn after turn, the call whose pending file
    operation completes next. *)
Definition run (schedule : list nat) (st : state) : state :=
  List.fold_left (fun st i => microtasks (complete_io st i)) schedule (issue_all st).

Definition init (w : fs) (requests : list (string * StatName)) : state :=
  mkState w ∅ ∅ 0 (List.map (fun r => mkCall (fst r) (snd r) NotStarted) requests).

(** Where the calls stand. *)
Definition pcs (st : state) : list pc := List.map c_pc (calls st).

Definition is_finished (c : call) : bool :=
  match c_pc c with
  | Finished => true
  | _ => false
  end.

Definition all_finished (st : state) : bool := List.forallb is_finished (calls st).

(** The counter that a reader of the file finds. *)
Definition counter_in (w : fs) (p : string) (stat : StatName) : option N :=
  match readFile p w with
  | (Ok content, _) => Some (get_stat stat (usageStats (metadata (parseFrontmatter content))))
  | (Throw, _) => None
  end.

End Lock.

(* ===================================================================== *)
(** ** Notions of the specification *)
(* ===================================================================== *)

Module Spec.
Import Codec Scoring Loader.

(** The strings that a regular expression denotes, without priorities. *)
Fixpoint lang (r : Re.regex) (w : string) : Prop :=
  match r with
  | Re.Lit l => w = l
  | Re.Class p => exists c, w = String c "" /\ p c = true
  | Re.Opt p => w = "" \/ exists c, w = String c "" /\ p c = true
  | Re.Rep p min _ => Str.forallb p w = true /\ min <= String.length w
  | Re.Group r1 => lang r1 w
  | Re.Seq r1 r2 => exists w1 w2, w = w1 +:+ w2 /\ lang r1 w1 /\ lang r2 w2
  end.

(** A string of white space. *)
Definition blank (w : string) : Prop := Str.forallb Chr.is_space w = true.

(** The input begins with a complete delimited frontmatter block: a line of
    three dashes, header text, a line of three dashes; the dashes of both
    lines may be followed by white space, and both lines end with a line
    feed. *)
Definition has_frontmatter (content : string) : Prop :=
  exists w1 header w2 rest,
    blank w1 /\ blank w2 /\
    content = "---" +:+ w1 +:+ Str.LF +:+ header +:+ Str.LF +:+ "---" +:+ w2 +:+ Str.LF +:+ rest.

(** The number of entries of [collection] that occur among [terms], letter
    case apart. *)
Definition entries_among (collection terms : list string) : nat :=
  List.length
    (List.filter
       (fun t => List.existsb (fun u => String.eqb (Str.toLowerCase t) (Str.toLowerCase u)) terms)
       collection).

(** The number of [terms] that occur in [collection], letter case apart. *)
Definition terms_occurring_in (collection terms : list string) : nat :=
  entries_among terms collection.

(** The separators of the pieces of a file name: hyphen and underscore. *)
Definition name_separator (c : ascii) : bool :=
  (N.eqb (Chr.code c) 45 || N.eqb (Chr.code c) 95)%bool.

(** The file name with its first [.md] taken off. *)
Fixpoint without_md (s : string) : string :=
  match s with
  | String "." (String "m" (String "d" rest)) => rest
  | String c rest => String c (without_md rest)
  | EmptyString => EmptyString
  end.

(** The pieces of [s] between separators, in order, that have more than two
    characters; [piece] is the beginning of the piece that is being read. *)
Fixpoint pieces_from (piece : string) (s : string) : list string :=
  match s with
  | EmptyString => if Nat.ltb 2 (String.length piece) then [piece] else []
  | String c rest =>
      if name_separator c
      then (if Nat.ltb 2 (String.length piece) then [piece] else []) ++ pieces_from "" rest
      else pieces_from (piece +:+ String c "") rest
  end.

(** The pieces of a file name that take part in the score: the name without
    its [.md], cut at every hyphen and underscore, the pieces of more than
    two characters kept. *)
Definition name_pieces (fileName : string) : list string :=
  pieces_from "" (without_md fileName).

(** The score with every match count taken as the number of task terms that
    occur in the collection. *)
Definition score_counting_task_terms (fileName : string) (m : MemoryMetadata)
    (taskTerms : list string) : Num.number :=
  Num.mul
    (Num.mul
       (Num.Num (Q_of_nat (terms_occurring_in (tags m) taskTerms * 3
                           + terms_occurring_in (relevantTo m) taskTerms * 2
                           + terms_occurring_in (extractTerms (summary m)) taskTerms * 1
                           + terms_occurring_in (name_pieces fileName) taskTerms * 4)))
       (importance m))
    (Num.Num (calculateUsageScore (usageStats m))).

(** The score with every match count taken as the number of entries of the
    collection that occur among the task terms. *)
Definition score_counting_entries (fileName : string) (m : MemoryMetadata)
    (taskTerms : list string) : Num.number :=
  Num.mul
    (Num.mul
       (Num.Num (Q_of_nat (entries_among (tags m) taskTerms * 3
                           + entries_among (relevantTo m) taskTerms * 2
                           + entries_among (extractTerms (summary m)) taskTerms * 1
                           + entries_among (name_pieces fileName) taskTerms * 4)))
       (importance m))
    (Num.Num (calculateUsageScore (usageStats m))).



(** The candidate that a file name of the memory folder yields: the file
    must be readable and its body, once the frontmatter is taken off and the
    white space around trimmed, must not be empty. *)
Definition candidate_of (memoryDir : string) (taskTerms : list string) (w : Fs.fs)
    (fileName : string) : option ScoredFile :=
  match w !! Fs.path_join memoryDir fileName with
  | Some (Fs.File rawContent true) =>
      let r := parseFrontmatter rawContent in
      if String.eqb (Str.trim (body r)) "" then None
      else Some (mkScoredFile fileName (Fs.path_join memoryDir fileName) (body r) (metadata r)
                              (scoreOf fileName (metadata r) taskTerms))
  | _ => None
  end.

(** The candidates of a call of [loadContextFiles], in the order of the
    directory listing. *)
Definition candidates (memoryDir : string) (taskContext : option TaskContext) (w : Fs.fs)
    : list ScoredFile :=
  match Fs.readdir memoryDir w with
  | (Fs.Ok allMemoryFiles, _) =>
      omap (candidate_of memoryDir (taskTermsOf taskContext) w)
           (List.filter is_memory_file allMemoryFiles)
  | (Fs.Throw, _) => []
  end.

(** The names of a list of candidates, as a set. *)
Definition names_of (l : list ScoredFile) : gset string := list_to_set (List.map fileName l).

(** The characters that the name of a category file keeps: a to z, 0 to 9
    and the hyphen. *)
Definition kept_in_name (c : ascii) : bool :=
  let n := Chr.code c in
  ((N.leb 97 n && N.leb n 122) || (N.leb 48 n && N.leb n 57) || N.eqb n 45)%bool.

(** The category in lower case, with every run of white space replaced by
    one hyphen and every other character that is not kept removed;
    [after_space] records that the previous character was white space. *)
Fixpoint sanitized_from (after_space : bool) (s : string) : string :=
  match s with
  | EmptyString => EmptyString
  | String c rest =>
      if Chr.is_space c
      then (if after_space then sanitized_from true rest
            else String "-" (sanitized_from true rest))
      else
        let d := Chr.toLowerCase c in
        if kept_in_name d then String d (sanitized_from false rest)
        else sanitized_from false rest
  end.

Definition sanitized (category : string) : string := sanitized_from false category.

(** The name of the file of a category, without [.md]: the sanitized
    category, or [general] when nothing is left of it. *)
Definition file_stem (category : string) : string :=
  match sanitized category with
  | EmptyString => "general"
  | name => name
  end.

(** The content of a category file just created: the frontmatter block of
    the seeded metadata, a heading with the category as given, and the first
    entry. *)
Definition seeded_file (name summaryText category entry : string) : string :=
  "---" +:+ Str.LF
  +:+ "tags: [" +:+ name +:+ "]" +:+ Str.LF
  +:+ "summary: " +:+ summaryText +:+ Str.LF
  +:+ "relevantTo: [" +:+ name +:+ "]" +:+ Str.LF
  +:+ "importance: 0.7" +:+ Str.LF
  +:+ "relatedFiles: []" +:+ Str.LF
  +:+ "usageStats:" +:+ Str.LF
  +:+ "  loaded: 0" +:+ Str.LF
  +:+ "  referenced: 0" +:+ Str.LF
  +:+ "  successfulFeatures: 0" +:+ Str.LF
  +:+ "---" +:+ Str.LF
  +:+ "# " +:+ category +:+ Str.LF
  +:+ entry.



(** Equality of JavaScript numbers as values: two rationals that denote the
    same number are equal, [NaN] only matches itself here. *)
Definition same_number (a b : Num.number) : Prop :=
  match a, b with
  | Num.Num x, Num.Num y => (x == y)%Q
  | Num.NaN, Num.NaN => True
  | _, _ => False
  end.

End Spec.

(* ===================================================================== *)
(** ** The frontmatter that the serializer writes *)
(* ===================================================================== *)

(** The notions in which the round trip of the codec is stated: the first
    match of a pattern, the header as a text of eight field values, the
    values that the patterns of [parseFrontmatter] read back, and the
    metadata whose fields are written without quoting. *)

Module Header.
Import Re Codec Fs Memory.

(** [P] holds of every suffix of [x ++ t] that starts inside [x]. *)
Fixpoint within (P : string -> Prop) (x t : string) : Prop :=
  match x with
  | EmptyString => True
  | String c x' => P (String c x' +:+ t) /\ within P x' t
  end.

(** The first alternative of [r] on [s], the one that a successful match
    reports. *)
Definition first_is (r : regex) (s : string) (caps : list string) (rest : string) : Prop :=
  exists l, exec r s = (caps, rest) :: l.

(** A character on which [p] fails, or the end of the input, stops a
    repetition of [p]. *)
Definition stops (p : ascii -> bool) (t : string) : Prop :=
  match t with
  | EmptyString => True
  | String c _ => p c = false
  end.

Definition starts_tight (t : string) : bool :=
  match t with
  | String c _ => negb (Chr.is_space c)
  | EmptyString => false
  end.

(** The text starts with white space that ends a line. *)
Fixpoint leading_blank_line (s : string) : bool :=
  match s with
  | EmptyString => false
  | String c s' =>
      if Chr.is_char NL c then true
      else if Chr.is_space c then leading_blank_line s' else false
  end.

(** [\r?\n], and the rest of the pattern of the frontmatter once the header
    is captured. *)
Definition line_end : regex := Seq (Opt (Chr.is_char CR)) (Class (Chr.is_char NL)).

Definition closing : regex :=
  Seq (Opt (Chr.is_char CR))
      (Seq (Class (Chr.is_char NL))
           (Seq (Lit "---") (Seq (Rep Chr.is_space 0 false) line_end))).

Definition is_letter (c : ascii) : bool := (Chr.between 65 90 c || Chr.between 97 122 c)%bool.
Definition is_key_char (c : ascii) : bool := (is_letter c || Chr.is_char ":" c)%bool.
Definition not_colon (c : ascii) : bool := negb (Chr.is_char ":" c).
Definition not_bracket (c : ascii) : bool := negb (Chr.is_char "]" c).

(** A character of a field value: it stays on the line, and it is neither
    the colon that ends a key nor the bracket that ends a list. *)
Definition value_char (c : ascii) : bool :=
  (Chr.is_line_char c && not_colon c && not_bracket c)%bool.

(** The texts of the eight fields. *)
Record fields : Type := mkFields {
  tags_text : string;
  summary_text : string;
  relevantTo_text : string;
  importance_text : string;
  relatedFiles_text : string;
  loaded_text : string;
  referenced_text : string;
  successfulFeatures_text : string
}.

(** The lines between the two delimiters, cut at the keys. *)
Definition header (f : fields) : string :=
  "tags:" +:+ " [" +:+ tags_text f +:+ "]" +:+ Str.LF
  +:+ "summary:" +:+ " " +:+ summary_text f +:+ Str.LF
  +:+ "relevantTo:" +:+ " [" +:+ relevantTo_text f +:+ "]" +:+ Str.LF
  +:+ "importance:" +:+ " " +:+ importance_text f +:+ Str.LF
  +:+ "relatedFiles:" +:+ " [" +:+ relatedFiles_text f +:+ "]" +:+ Str.LF
  +:+ "usageStats:" +:+ Str.LF
  +:+ "  " +:+ "loaded:" +:+ " " +:+ loaded_text f +:+ Str.LF
  +:+ "  " +:+ "referenced:" +:+ " " +:+ referenced_text f +:+ Str.LF
  +:+ "  " +:+ "successfulFeatures:" +:+ " " +:+ successfulFeatures_text f.

(** The texts that [serializeFrontmatter] writes for a metadata. *)
Definition fields_of (m : MemoryMetadata) : fields :=
  {| tags_text := Str.join ", " (List.map escapeYamlString (tags m));
     summary_text := escapeYamlString (summary m);
     relevantTo_text := Str.join ", " (List.map escapeYamlString (relevantTo m));
     importance_text := Num.toString (importance m);
     relatedFiles_text := Str.join ", " (List.map escapeYamlString (relatedFiles m));
     loaded_text := Str.of_N (loaded (usageStats m));
     referenced_text := Str.of_N (referenced (usageStats m));
     successfulFeatures_text := Str.of_N (successfulFeatures (usageStats m)) |}.

(** The metadata that [parseFrontmatter] makes of the captured texts. *)
Definition read_fields (f : fields) : MemoryMetadata :=
  {| tags := parseList (tags_text f);
     summary := Str.strip_outer_quotes (Str.trim (summary_text f));
     relevantTo := parseList (relevantTo_text f);
     importance :=
       Num.max (Num.Num 0) (Num.min (Num.Num 1) (Num.parseFloat (importance_text f)));
     relatedFiles := parseList (relatedFiles_text f);
     usageStats :=
       {| loaded := Str.parseInt (loaded_text f);
          referenced := Str.parseInt (referenced_text f);
          successfulFeatures := Str.parseInt (successfulFeatures_text f) |} |}.

(** A scalar value starts on the line of its key and is made of the
    characters that its pattern captures. *)
Definition scalar_ok (p : ascii -> bool) (v : string) : bool :=
  (starts_tight v && Str.forallb p v)%bool.

(** The texts on which every pattern of [parseFrontmatter] finds its own
    field. *)
Definition fields_ok (f : fields) : bool :=
  (Str.forallb value_char (tags_text f)
   && scalar_ok value_char (summary_text f)
   && Str.forallb value_char (relevantTo_text f)
   && scalar_ok Chr.is_digit_or_dot (importance_text f)
   && Str.forallb value_char (relatedFiles_text f)
   && scalar_ok Chr.is_digit (loaded_text f)
   && scalar_ok Chr.is_digit (referenced_text f)
   && scalar_ok Chr.is_digit (successfulFeatures_text f))%bool.

(** The characters of a plain word: letters, digits, hyphen, underscore,
    dot and slash. *)
Definition word_char (c : ascii) : bool :=
  (is_letter c || Chr.is_digit c
   || Chr.is_char "-" c || Chr.is_char "_" c || Chr.is_char "." c || Chr.is_char "/" c)%bool.

Definition plain_word (w : string) : bool :=
  (negb (String.eqb w "") && Str.forallb word_char w)%bool.

(** A summary of word characters and spaces that is not empty and neither
    starts nor ends with a space. *)
Definition summary_char (c : ascii) : bool := (word_char c || Chr.is_char " " c)%bool.

Definition plain_summary (s : string) : bool :=
  (negb (String.eqb s "") && Str.forallb summary_char s && String.eqb (Str.trim s) s)%bool.

Definition number_eqb (x y : Num.number) : bool :=
  match x, y with
  | Num.NaN, Num.NaN => true
  | Num.Num p, Num.Num q => (Z.eqb (Qnum p) (Qnum q) && Pos.eqb (Qden p) (Qden q))%bool
  | _, _ => false
  end.

(** The multiples of 0.01 from 0 to 1, in lowest terms. *)
Definition hundredths : list Num.number :=
  List.map (fun k => Num.Num (Qred (Z.of_nat k # 100))) (List.seq 0 101).

Definition plain_importance (x : Num.number) : bool := List.existsb (number_eqb x) hundredths.

(** What the round trip needs of an importance: its text is read back as
    the same number. *)
Definition importance_returns (x : Num.number) : bool :=
  let t := Num.toString x in
  (number_eqb (Num.max (Num.Num 0) (Num.min (Num.Num 1) (Num.parseFloat t))) x
   && scalar_ok Chr.is_digit_or_dot t)%bool.

(** The metadata that is written without quoting: lists of plain words, a
    plain summary, an importance of at most two decimal places; the counters
    are free. *)
Definition plain_metadata (m : MemoryMetadata) : bool :=
  (List.forallb plain_word (tags m) && plain_summary (summary m)
   && List.forallb plain_word (relevantTo m) && plain_importance (importance m)
   && List.forallb plain_word (relatedFiles m))%bool.

(** One item of a bracketed list, as [parseList] reads it. *)
Definition item (t : string) : string :=
  Str.filter (fun c => negb (Chr.is_quote c)) (Str.trim t).

(** A memory file whose block the serializer wrote. *)
Definition file_of (m : MemoryMetadata) (text : string) : string :=
  serializeFrontmatter m +:+ Str.LF +:+ text.

(** The counters on which the embedding of the numbers is exact: below
    2^53 a counter is held by a JavaScript number without rounding, [++]
    adds one to it, the template literal prints it in plain decimal and
    [parseInt] reads it back. *)
Definition safe_counter (n : N) : bool := N.ltb n (2 ^ 53).

Definition safe_stats (s : UsageStats) : bool :=
  (safe_counter (loaded s) && safe_counter (referenced s)
   && safe_counter (successfulFeatures s))%bool.

(** [n] calls of [incrementUsageStat], one after the other. *)
Fixpoint increments (n : nat) (filePath : string) (stat : StatName) : io unit :=
  match n with
  | O => ret tt
  | S n' => incrementUsageStat filePath stat >> increments n' filePath stat
  end.

Definition bump_by (n : nat) (stat : StatName) (m : MemoryMetadata) : MemoryMetadata :=
  Nat.iter n (bump stat) m.

End Header.

(* ===================================================================== *)
(** ** Sample inputs *)
(* ===================================================================== *)

Module Samples.
Import Codec Fs Memory Loader.

(** A memory file whose summary repeats a term. *)
Definition jwt_summary_file : string :=
  "---" +:+ Str.LF +:+ "summary: JWT auth, JWT refresh" +:+ Str.LF +:+ "---" +:+ Str.LF
  +:+ "Use RS256 for signing".

Definition jwt_task : option TaskContext :=
  Some {| title := "JWT endpoint"; description := None |}.

(** The memory file of the end-to-end scenario, loaded four times. *)
Definition auth_metadata : MemoryMetadata :=
  {| tags := ["auth"; "jwt"];
     summary := "JWT auth patterns";
     relevantTo := [];
     importance := Num.Num (7 # 10);
     relatedFiles := [];
     usageStats := {| loaded := 4; referenced := 0; successfulFeatures := 0 |} |}.

Definition auth_file : string :=
  serializeFrontmatter auth_metadata +:+ Str.LF +:+ "Use RS256 for signing".

Definition auth_path : string := "/project/.automaker/memory/auth-decisions.md".

Definition auth_fs : fs := {[ auth_path := File auth_file true ]}.

(** A header in which the counter comes before a summary that repeats its
    key, and the metadata that [parseFrontmatter] reads from it. *)
Definition shadow_file : string :=
  "---" +:+ Str.LF
  +:+ "loaded: 3" +:+ Str.LF
  +:+ "summary: loaded: 99" +:+ Str.LF
  +:+ "---" +:+ Str.LF.

Definition shadow_metadata : MemoryMetadata :=
  {| tags := [];
     summary := "loaded: 99";
     relevantTo := [];
     importance := Num.Num (1 # 2);
     relatedFiles := [];
     usageStats := {| loaded := 3; referenced := 0; successfulFeatures := 0 |} |}.

(** A file without frontmatter. *)
Definition notes_fs : fs := {[ auth_path := File "Use RS256 for signing" true ]}.

Definition api_learning : LearningEntry :=
  {| category := "API Design"; type := decision; content := "Use REST";
     context := Some "public endpoints"; why := None; rejected := None;
     tradeoffs := None; breaking := None |}.

Definition memory_dir : string := "/project/.automaker/memory".

(** A learning whose category holds a run of two spaces, capitals and
    brackets. *)
Definition versioned_learning : LearningEntry :=
  {| category := "API  Design (v2)"; type := decision; content := "Use REST";
     context := Some "public endpoints"; why := None; rejected := None;
     tradeoffs := None; breaking := None |}.

Definition versioned_gotcha : LearningEntry :=
  {| category := "API  Design (v2)"; type := gotcha; content := "Trailing slash";
     context := None; why := Some "router is strict"; rejected := None;
     tradeoffs := None; breaking := None |}.

(** A project in which only the memory folder exists. *)
Definition folder_fs : fs := {[ memory_dir := Dir ]}.

(** A memory file as the serializer writes it, whose summary holds the key
    of a counter; [count] is the text of the counter [loaded]. *)
Definition startup_file (count : string) : string :=
  "---" +:+ Str.LF
  +:+ "tags: [cache]" +:+ Str.LF
  +:+ "summary: " +:+ Str.DQUOTE +:+ "modules loaded: 99 at startup" +:+ Str.DQUOTE +:+ Str.LF
  +:+ "relevantTo: []" +:+ Str.LF
  +:+ "importance: 0.5" +:+ Str.LF
  +:+ "relatedFiles: []" +:+ Str.LF
  +:+ "usageStats:" +:+ Str.LF
  +:+ "  loaded: " +:+ count +:+ Str.LF
  +:+ "  referenced: 0" +:+ Str.LF
  +:+ "  successfulFeatures: 0" +:+ Str.LF
  +:+ "---" +:+ Str.LF
  +:+ "Warm the cache at startup".

Definition startup_path : string := "/project/.automaker/memory/cache.md".

(** A metadata and a task for which every weight of the score counts. *)
Definition weighted_metadata : MemoryMetadata :=
  {| tags := ["auth"; "jwt"; "auth"];
     summary := "JWT auth tokens";
     relevantTo := ["login"];
     importance := Num.Num (7 # 10);
     relatedFiles := [];
     usageStats := {| loaded := 4; referenced := 2; successfulFeatures := 1 |} |}.

Definition weighted_task : list string := ["auth"; "jwt"; "login"; "decisions"].

Definition gotchas_file : string :=
  "---" +:+ Str.LF +:+ "tags: [gotcha, mistake]" +:+ Str.LF +:+ "importance: 0.9" +:+ Str.LF
  +:+ "---" +:+ Str.LF +:+ "# Gotchas" +:+ Str.LF.

Definition database_file : string :=
  "---" +:+ Str.LF +:+ "tags: [database]" +:+ Str.LF +:+ "summary: Database notes" +:+ Str.LF
  +:+ "---" +:+ Str.LF +:+ "Use Postgres".

(** [gotchas.md] and four files that share no term with the task
    [JWT endpoint]. *)
Definition gotchas_fs : fs :=
  list_to_map
    ((memory_dir, Dir)
     :: (path_join memory_dir "gotchas.md", File gotchas_file true)
     :: List.map (fun n => (path_join memory_dir n, File database_file true))
          ["database.md"; "storage.md"; "schema.md"; "queries.md"]).

Definition important_file : string :=
  "---" +:+ Str.LF +:+ "importance: 0.95" +:+ Str.LF +:+ "---" +:+ Str.LF +:+ "Keep this in mind".

(** Ten files of importance 0.95. *)
Definition ten_fs : fs :=
  list_to_map
    ((memory_dir, Dir)
     :: List.map (fun n => (path_join memory_dir n, File important_file true))
          ["m0.md"; "m1.md"; "m2.md"; "m3.md"; "m4.md";
           "m5.md"; "m6.md"; "m7.md"; "m8.md"; "m9.md"]).

(** Three calls of [incrementUsageStat(auth_path, 'loaded')] made in the
    same turn of the event loop. *)
Definition three_calls : list (string * StatName) :=
  [(auth_path, Loaded); (auth_path, Loaded); (auth_path, Loaded)].

(** The file operations complete in the order in which they were issued:
    the read and the write of the first call, the reads of the second and
    the third call, then their writes. *)
Definition fifo_schedule : list nat := [0; 0; 1; 2; 1; 2].

End Samples.

(* ===================================================================== *)
(** ** The starter files of the memory folder (memory-loader.ts) *)
(* ===================================================================== *)

Module Folder.
Import Codec Fs Memory.

(** The proper ancestors of a path, outermost first: its prefixes that end
    before a slash, the empty one (the root) apart. *)
Fixpoint ancestors_from (pre rest : string) : list string :=
  match rest with
  | EmptyString => []
  | String c rest' =>
      (if (Chr.is_char "/" c && negb (String.eqb pre ""))%bool then [pre] else [])
      ++ ancestors_from (pre +:+ String c "") rest'
  end.

Definition ancestors (p : string) : list string := ancestors_from "" p.

Definition is_file (o : option node) : bool :=
  match o with
  | Some (File _ _) => true
  | _ => false
  end.

Definition make_dir (w : fs) (p : string) : fs :=
  match w !! p with
  | None => <[p := Dir]> w
  | Some _ => w
  end.

(** [mkdir(path, { recursive: true })]: the call fails when the path or one
    of its ancestors is a file; otherwise it makes the directories of the
    chain that are missing and leaves those that exist. *)
Definition mkdir (p : string) : io unit :=
  fun w =>
    let chain := ancestors p ++ [p] in
    if List.existsb (fun a => is_file (w !! a)) chain then (Throw, w)
    else (Ok tt, List.fold_left make_dir chain w).

Definition indexMetadata : MemoryMetadata :=
  {| tags := ["index"; "overview"];
     summary := "Overview of project memory categories";
     relevantTo := ["project"; "memory"; "overview"];
     importance := Num.Num (1 # 2);
     relatedFiles := [];
     usageStats := {| loaded := 0; referenced := 0; successfulFeatures := 0 |} |}.

(** The text of the template literal after the frontmatter, line by line. *)
Definition indexText : string :=
  Str.join Str.LF
    [""; "# Project Memory Index"; "";
     "This folder contains agent learnings organized by category.";
     "Categories are created automatically as agents work on features."; "";
     "## How This Works"; "";
     "1. After each successful feature, learnings are extracted and categorized";
     "2. Relevant memory files are loaded into agent context for future features";
     "3. Usage statistics help prioritize which memories are most helpful"; "";
     "## Categories"; "";
     "- **gotchas.md** - Mistakes and edge cases to avoid";
     "- Other categories are created automatically based on feature work"; ""].

Definition indexContent : string := serializeFrontmatter indexMetadata +:+ indexText.

Definition gotchasMetadata : MemoryMetadata :=
  {| tags := ["gotcha"; "mistake"; "edge-case"; "bug"; "warning"];
     summary := "Mistakes and edge cases to avoid";
     relevantTo := ["error"; "bug"; "fix"; "issue"; "problem"];
     importance := Num.Num (9 # 10);
     relatedFiles := [];
     usageStats := {| loaded := 0; referenced := 0; successfulFeatures := 0 |} |}.

Definition gotchasText : string :=
  Str.join Str.LF
    [""; "# Gotchas"; "";
     "Mistakes and edge cases to avoid. These are lessons learned from past issues.";
     ""; "---"; ""; ""].

Definition gotchasContent : string := serializeFrontmatter gotchasMetadata +:+ gotchasText.

(** [initializeMemoryFolder]: when the folder can be accessed the call
    returns; else the [catch] clause makes the folder and writes the two
    starter files, and a failure there is a failure of the call. *)
Definition initializeMemoryFolder (projectPath : string) : io unit :=
  let memoryDir := getMemoryDir projectPath in
  try_catch
    (access memoryDir)
    (mkdir memoryDir >>
     writeFile (path_join memoryDir "_index.md") indexContent >>
     writeFile (path_join memoryDir "gotchas.md") gotchasContent).

End Folder.

(* ===================================================================== *)
(** ** Usage recording after a feature (memory-loader.ts) *)
(* ===================================================================== *)

Module Usage.
Import Codec Scoring Fs Memory Loader.

Record SimpleMemoryFile : Type := mkSimpleMemoryFile {
  smf_name : string;
  smf_content : string
}.

(** [countMatches(fileTerms, outputTerms) >= 3] *)
Definition wasReferenced (fileContent agentOutput : string) : bool :=
  let fileTerms := extractTerms fileContent in
  let outputTerms := extractTerms agentOutput in
  Nat.leb 3 (countMatches fileTerms outputTerms).

(** One turn of the loop of [recordMemoryUsage]. *)
Definition recordFile (memoryDir agentOutput : string) (success : bool)
    (file : SimpleMemoryFile) : io unit :=
  let filePath := path_join memoryDir (smf_name file) in
  if wasReferenced (smf_content file) agentOutput then
    incrementUsageStat filePath Referenced >>
    (if success then incrementUsageStat filePath SuccessfulFeatures else ret tt)
  else ret tt.

Definition recordMemoryUsage (projectPath : string) (loadedFiles : list SimpleMemoryFile)
    (agentOutput : string) (success : bool) : io unit :=
  let memoryDir := getMemoryDir projectPath in
  for_of loadedFiles (fun file _ => recordFile memoryDir agentOutput success file) tt.

End Usage.

(* ===================================================================== *)
(** ** Loading by relevance to a feature (memory-loader.ts) *)
(* ===================================================================== *)

Module Relevant.
Import Codec Scoring Fs Memory Loader.

Record MemoryFile : Type := mkMemoryFile {
  mem_name : string;
  mem_content : string;
  mem_metadata : MemoryMetadata
}.

Record MemoryLoadResult : Type := mkMemoryLoadResult {
  files : list MemoryFile;
  formattedPrompt : string
}.

(** An entry of the array [scored]. *)
Record Scored : Type := mkScored {
  sc_file : string;
  sc_score : Num.number;
  sc_content : string;
  sc_metadata : MemoryMetadata
}.

(** The combined score (lines 380-390): no weight for the file name here. *)
Definition relevanceOf (metadata : MemoryMetadata) (featureTerms : list string) : Num.number :=
  let tagScore := countMatches (tags metadata) featureTerms * 3 in
  let relevantToScore := countMatches (relevantTo metadata) featureTerms * 2 in
  let summaryTerms := extractTerms (summary metadata) in
  let summaryScore := countMatches summaryTerms featureTerms in
  let usageScore := calculateUsageScore (usageStats metadata) in
  Num.mul
    (Num.mul (Num.Num (Q_of_nat (tagScore + relevantToScore + summaryScore)))
             (importance metadata))
    (Num.Num usageScore).

(** One turn of the scoring loop (lines 372-399). *)
Definition scoreFile (memoryDir : string) (featureTerms : list string)
    (file : string) (scored : list Scored) : io (list Scored) :=
  if (negb (endsWith ".md" file) || String.eqb file "_index.md")%bool then ret scored
  else
    let filePath := path_join memoryDir file in
    try_catch
      (do content <- readFile filePath in
       let r := parseFrontmatter content in
       let score := relevanceOf (metadata r) featureTerms in
       if (Num.gtb score (Num.Num 0)
           || Num.geb (importance (metadata r)) (Num.Num (9 # 10)))%bool
       then ret (scored ++ [mkScored file score (body r) (metadata r)])
       else ret scored)
      (ret scored).

(** [b.score - a.score > 0], as in [Loader.comes_after]. *)
Definition scored_after (a b : Scored) : bool := Num.gtb (sc_score b) (sc_score a).

Fixpoint insert_scored (x : Scored) (l : list Scored) : list Scored :=
  match l with
  | [] => [x]
  | y :: l' => if scored_after x y then y :: insert_scored x l' else x :: l
  end.

(** [scored.sort((a, b) => b.score - a.score)]: stable, and in place, so
    that [scored] is the sorted array from here on. *)
Definition sortScored (l : list Scored) : list Scored :=
  List.fold_right insert_scored [] l.

(** [new Set(xs)] as the list of its elements in the order of insertion. *)
Definition set_add (acc : list string) (x : string) : list string :=
  if List.existsb (String.eqb x) acc then acc else acc ++ [x].

Definition set_of (xs : list string) : list string := List.fold_left set_add xs [].

(** One turn of the loading loop (lines 408-427). *)
Definition loadFile (memoryDir : string) (scored : list Scored)
    (file : string) (loaded : list MemoryFile) : io (list MemoryFile) :=
  match List.find (fun s => String.eqb (sc_file s) file) scored with
  | Some existing =>
      ret (loaded ++ [mkMemoryFile file (sc_content existing) (sc_metadata existing)])
  | None =>
      if String.eqb file "gotchas.md" then
        let gotchasPath := path_join memoryDir "gotchas.md" in
        try_catch
          (do content <- readFile gotchasPath in
           let r := parseFrontmatter content in
           ret (loaded ++ [mkMemoryFile file (body r) (metadata r)]))
          (ret loaded)
      else ret loaded
  end.

(** What a turn of the scoring loop pushes for a file name, and what a
    turn of the loading loop pushes: both loops only read. *)
Definition scored_entry (memoryDir : string) (featureTerms : list string) (w : fs)
    (file : string) : option Scored :=
  if (negb (endsWith ".md" file) || String.eqb file "_index.md")%bool then None
  else
    match w !! path_join memoryDir file with
    | Some (File content true) =>
        let r := parseFrontmatter content in
        let score := relevanceOf (metadata r) featureTerms in
        if (Num.gtb score (Num.Num 0)
            || Num.geb (importance (metadata r)) (Num.Num (9 # 10)))%bool
        then Some (mkScored file score (body r) (metadata r))
        else None
    | _ => None
    end.

Definition loaded_entry (memoryDir : string) (scored : list Scored) (w : fs)
    (file : string) : option MemoryFile :=
  match List.find (fun s => String.eqb (sc_file s) file) scored with
  | Some existing => Some (mkMemoryFile file (sc_content existing) (sc_metadata existing))
  | None =>
      if String.eqb file "gotchas.md" then
        match w !! path_join memoryDir "gotchas.md" with
        | Some (File content true) =>
            let r := parseFrontmatter content in
            Some (mkMemoryFile file (body r) (metadata r))
        | _ => None
        end
      else None
  end.

Section Upper.

(** [String.prototype.toUpperCase] leaves the Latin-1 range (the sharp s
    becomes two letters, the micro sign and the y with diaeresis have their
    capitals elsewhere); the prompt is built for any function in its
    place. *)
Variable toUpperCase : string -> string.

(** [buildMemoryPrompt] of memory-loader.ts *)
Definition buildMemoryPrompt (files : list MemoryFile) : string :=
  match files with
  | [] => ""
  | _ =>
      let sections :=
        List.map
          (fun file =>
             "## " +:+ toUpperCase (Str.remove_first ".md" (mem_name file))
             +:+ Str.LF +:+ Str.LF +:+ mem_content file)
          files in
      "# Project Memory" +:+ Str.LF +:+ Str.LF
      +:+ "The following learnings and decisions from previous work are relevant to this task."
      +:+ Str.LF
      +:+ "**IMPORTANT**: Review these carefully before making changes that could conflict with past decisions."
      +:+ Str.LF +:+ Str.LF
      +:+ "---" +:+ Str.LF +:+ Str.LF
      +:+ Str.join (Str.LF +:+ Str.LF +:+ "---" +:+ Str.LF +:+ Str.LF) sections
      +:+ Str.LF +:+ Str.LF
      +:+ "---" +:+ Str.LF
  end.

(** [loadRelevantMemory]: the first [try] returns the empty result when the
    folder cannot be accessed; the listing of the folder is outside any
    [try]. *)
Definition loadRelevantMemory (projectPath featureTitle featureDescription : string)
    : io MemoryLoadResult :=
  let memoryDir := getMemoryDir projectPath in
  do accessible <- try_catch (access memoryDir >> ret true) (ret false) in
  if negb accessible then ret {| files := []; formattedPrompt := "" |}
  else
    do allFiles <- readdir memoryDir in
    let featureTerms := extractTerms (featureTitle +:+ " " +:+ featureDescription) in
    do scored <- for_of allFiles (scoreFile memoryDir featureTerms) [] in
    let scored := sortScored scored in
    let topFiles := List.firstn 5 scored in
    let toLoad := set_of ("gotchas.md" :: List.map sc_file topFiles) in
    do loaded <- for_of toLoad (loadFile memoryDir scored) [] in
    let formattedPrompt := buildMemoryPrompt loaded in
    ret {| files := loaded; formattedPrompt := formattedPrompt |}.

End Upper.

End Relevant.

(* ===================================================================== *)
(** ** The prompts of the context loader (context-loader.ts) *)
(* ===================================================================== *)

Module Prompt.
Import Codec Fs Memory Loader.

Record ContextFileInfo : Type := mkContextFileInfo {
  cf_name : string;
  cf_path : string;
  cf_content : string;
  cf_description : option string
}.

(** [formatContextFileEntry]: an absent description and the empty string
    are both falsy. *)
Definition formatContextFileEntry (file : ContextFileInfo) : string :=
  let header := "## " +:+ cf_name file in
  let pathInfo := "**Path:** `" +:+ cf_path file +:+ "`" in
  let descriptionInfo :=
    match cf_description file with
    | Some d => if String.eqb d "" then "" else Str.LF +:+ "**Purpose:** " +:+ d
    | None => ""
    end in
  header +:+ Str.LF +:+ pathInfo +:+ descriptionInfo +:+ Str.LF +:+ Str.LF +:+ cf_content file.

(** The separator of the sections of both prompts. *)
Definition rule : string := Str.LF +:+ Str.LF +:+ "---" +:+ Str.LF +:+ Str.LF.

Definition contextIntro : string :=
  Str.join Str.LF
    ["# Project Context Files"; "";
     "The following context files provide project-specific rules, conventions, and guidelines.";
     "Each file serves a specific purpose - use the description to understand when to reference it.";
     "If you need more details about a context file, you can read the full file at the path provided.";
     "";
     "**IMPORTANT**: You MUST follow the rules and conventions specified in these files.";
     "- Follow ALL commands exactly as shown (e.g., if the project uses `pnpm`, NEVER use `npm` or `npx`)";
     "- Follow ALL coding conventions, commit message formats, and architectural patterns specified";
     "- Reference these rules before running ANY shell commands or making commits";
     ""; "---"; ""; ""].

Definition contextOutro : string :=
  Str.join Str.LF
    [""; ""; "---"; "";
     "**REMINDER**: Before taking any action, verify you are following the conventions specified above.";
     ""].

(** [buildContextPrompt] *)
Definition buildContextPrompt (files : list ContextFileInfo) : string :=
  match files with
  | [] => ""
  | _ =>
      let formattedFiles := List.map formatContextFileEntry files in
      contextIntro +:+ Str.join rule formattedFiles +:+ contextOutro
  end.

Definition memoryIntro : string :=
  Str.join Str.LF
    ["# Project Memory"; "";
     "The following learnings and decisions from previous work are available.";
     "**IMPORTANT**: Review these carefully before making changes that could conflict with past decisions.";
     ""; "---"; ""; ""].

Definition memoryOutro : string := Str.join Str.LF [""; ""; "---"; ""].

Section Upper.

Variable toUpperCase : string -> string.

(** [buildMemoryPrompt] of context-loader.ts *)
Definition buildMemoryPrompt (memoryFiles : list MemoryFileInfo) : string :=
  match memoryFiles with
  | [] => ""
  | _ =>
      let sections :=
        List.map
          (fun file =>
             "## " +:+ toUpperCase (mf_category file) +:+ Str.LF +:+ Str.LF +:+ mf_content file)
          memoryFiles in
      memoryIntro +:+ Str.join rule sections +:+ memoryOutro
  end.

(** [[contextPrompt, memoryPrompt].filter(Boolean).join('\n\n')] *)
Definition formattedPromptOf (files : list ContextFileInfo)
    (memoryFiles : list MemoryFileInfo) : string :=
  let contextPrompt := buildContextPrompt files in
  let memoryPrompt := buildMemoryPrompt memoryFiles in
  Str.join (Str.LF +:+ Str.LF)
    (List.filter (fun s => negb (String.eqb s "")) [contextPrompt; memoryPrompt]).

End Upper.

(** [x] occurs in [s] as it is. *)
Definition occurs_in (x s : string) : Prop := exists a b, s = a +:+ x +:+ b.

(** The filter of the context folder (lines 232-235). *)
Definition is_context_file (f : string) : bool :=
  let lower := Str.toLowerCase f in
  ((endsWith ".md" lower || endsWith ".txt" lower)
   && negb (String.eqb f "context-metadata.json"))%bool.

End Prompt.

(* ===================================================================== *)
(** ** The memory part of [loadContextFiles] with the initialization *)
(* ===================================================================== *)

Module Context.
Import Codec Fs Memory Loader Folder.

(** Lines 262-403: the folder is initialized when asked for, a failure of
    which is ignored, then the memory files are loaded. *)
Definition loadContextMemory (projectPath : string) (includeMemory initializeMemory : bool)
    (taskContext : option TaskContext) (maxMemoryFiles : Z) : io (list MemoryFileInfo) :=
  if includeMemory then
    let memoryDir := getMemoryDir projectPath in
    (if initializeMemory
     then try_catch (initializeMemoryFolder projectPath) (ret tt)
     else ret tt) >>
    loadMemoryFiles memoryDir true taskContext maxMemoryFiles
  else ret [].

End Context.
(* ===================================================================== *)
(** ** More sample inputs *)
(* ===================================================================== *)

Module Scenarios.
Import Codec Fs Memory Loader Usage Relevant.

(** The file of [Samples.auth_fs] as a caller holds it after loading. *)
Definition auth_loaded : SimpleMemoryFile :=
  {| smf_name := "auth-decisions.md"; smf_content := "Use RS256 for signing JWT tokens" |}.

Definition auth_output : string :=
  "Implemented login: tokens are JWT, signing uses RS256 keys".

(** A memory folder with [gotchas.md] without frontmatter and one file on
    authentication. *)
Definition feature_fs : fs :=
  list_to_map
    [(Samples.memory_dir, Dir);
     (path_join Samples.memory_dir "gotchas.md", File "Never log tokens" true);
     (path_join Samples.memory_dir "auth-decisions.md", File Samples.auth_file true);
     (path_join Samples.memory_dir "_index.md", File Samples.important_file true)].

End Scenarios.

(* ===================================================================== *)
(** * Properties *)
(* ===================================================================== *)

(** ** Strings *)

Module StrFacts.

Lemma app_cons c s t : String c s +:+ t = String c (s +:+ t).
Proof. reflexivity. Qed.

Lemma app_nil_l s : "" +:+ s = s.
Proof. reflexivity. Qed.

Lemma app_nil_r s : s +:+ "" = s.
Proof. induction s as [|c s IH]; [reflexivity|]. rewrite app_cons, IH. reflexivity. Qed.

Lemma app_assoc s t u : (s +:+ t) +:+ u = s +:+ (t +:+ u).
Proof. induction s as [|c s IH]; [reflexivity|]. rewrite !app_cons, IH. reflexivity. Qed.

Lemma length_app s t : String.length (s +:+ t) = String.length s + String.length t.
Proof. induction s as [|c s IH]; [reflexivity|]. rewrite app_cons. simpl. rewrite IH. reflexivity. Qed.

Lemma prefix_app l t : String.prefix l (l +:+ t) = true.
Proof.
  induction l as [|c l IH]; [destruct t; reflexivity|].
  rewrite app_cons. simpl. destruct (ascii_dec c c); [exact IH | congruence].
Qed.

Lemma prefix_inv l s : String.prefix l s = true -> exists t, s = l +:+ t.
Proof.
  revert s. induction l as [|c l IH]; intros s H.
  - exists s. reflexivity.
  - destruct s as [|d s]; [discriminate|]. simpl in H.
    destruct (ascii_dec c d) as [->|]; [|discriminate].
    destruct (IH _ H) as [t ->]. exists t. reflexivity.
Qed.

Lemma drop_app l t : Str.drop (String.length l) (l +:+ t) = t.
Proof. induction l as [|c l IH]; [reflexivity|]. rewrite app_cons. exact IH. Qed.

Lemma take_app l t : Str.take (String.length l) (l +:+ t) = l.
Proof.
  induction l as [|c l IH]; [reflexivity|]. rewrite app_cons. simpl. rewrite IH. reflexivity.
Qed.

Lemma forallb_app p s t :
  Str.forallb p (s +:+ t) = (Str.forallb p s && Str.forallb p t)%bool.
Proof.
  induction s as [|c s IH]; [reflexivity|]. rewrite app_cons. simpl. rewrite IH.
  destruct (p c); reflexivity.
Qed.

Lemma forallb_any s : Str.forallb Chr.is_any s = true.
Proof. induction s as [|c s IH]; [reflexivity | exact IH]. Qed.

Lemma consumed_app w rest : Re.consumed (w +:+ rest) rest = w.
Proof.
  unfold Re.consumed. rewrite length_app.
  replace (String.length w + String.length rest - String.length rest)
    with (String.length w) by lia.
  apply take_app.
Qed.

End StrFacts.

(** ** The matcher finds exactly the strings of the language *)

Module ReFacts.
Import Re Spec StrFacts.

Lemma rep_greedy_In p rest : forall s min,
  In rest (rep_greedy p min s) <->
  exists w, s = w +:+ rest /\ Str.forallb p w = true /\ min <= String.length w.
Proof.
  induction s as [|c s IH]; intros min.
  - simpl. destruct min; simpl.
    + split.
      * intros [<-|[]]. exists "". repeat split; auto.
      * intros (w & Hw & _). destruct w; [|discriminate]. left. exact Hw.
    + split; [intros []|]. intros (w & Hw & _ & Hlen).
      destruct w; [simpl in Hlen; lia | discriminate].
  - simpl. destruct (p c) eqn:Hp.
    + rewrite in_app_iff, IH. split.
      * intros [(w & -> & Hall & Hlen) | Hstop].
        -- exists (String c w). rewrite app_cons. simpl. rewrite Hp, Hall.
           repeat split; auto. lia.
        -- destruct min; [|destruct Hstop]. destruct Hstop as [<-|[]].
           exists "". repeat split; auto.
      * intros (w & Hw & Hall & Hlen). destruct w as [|d w].
        -- right. simpl in Hlen. destruct min; [|lia]. left. exact Hw.
        -- left. rewrite app_cons in Hw. injection Hw as <- ->.
           simpl in Hall. rewrite Hp in Hall. simpl in Hlen.
           exists w. repeat split; auto. lia.
    + split.
      * intros Hstop. destruct min; [|destruct Hstop]. destruct Hstop as [<-|[]].
        exists "". repeat split; auto.
      * intros (w & Hw & Hall & Hlen). destruct w as [|d w].
        -- simpl in Hlen. destruct min; [|lia]. left. exact Hw.
        -- rewrite app_cons in Hw. injection Hw as <- ->.
           simpl in Hall. rewrite Hp in Hall. discriminate.
Qed.

Lemma rep_lazy_In p rest : forall s min,
  In rest (rep_lazy p min s) <-> In rest (rep_greedy p min s).
Proof.
  induction s as [|c s IH]; intros min; [reflexivity|].
  simpl. destruct (p c); [|reflexivity].
  rewrite !in_app_iff, IH. tauto.
Qed.

Lemma exec_sound r : forall s caps rest,
  In (caps, rest) (exec r s) -> exists w, s = w +:+ rest /\ lang r w.
Proof.
  induction r as [l|p|p|p min lz|r IH|r1 IH1 r2 IH2]; intros s caps rest Hin; simpl in Hin.
  - destruct (String.prefix l s) eqn:Hpre; [|destruct Hin].
    destruct Hin as [[= <- <-]|[]]. apply prefix_inv in Hpre as [t ->].
    exists l. rewrite drop_app. split; reflexivity.
  - destruct s as [|c s]; [destruct Hin|]. destruct (p c) eqn:Hp; [|destruct Hin].
    destruct Hin as [[= <- <-]|[]]. exists (String c ""). split; [reflexivity|].
    exists c. auto.
  - destruct s as [|c s].
    + destruct Hin as [[= <- <-]|[]]. exists "". split; [reflexivity | left; reflexivity].
    + destruct (p c) eqn:Hp.
      * destruct Hin as [[= <- <-]|[[= <- <-]|[]]].
        -- exists (String c ""). split; [reflexivity|]. right. exists c. auto.
        -- exists "". split; [reflexivity | left; reflexivity].
      * destruct Hin as [[= <- <-]|[]]. exists "". split; [reflexivity | left; reflexivity].
  - apply in_map_iff in Hin as (rest' & [= <- <-] & Hin).
    assert (In rest' (rep_greedy p min s)) as Hg.
    { destruct lz; [apply rep_lazy_In|]; exact Hin. }
    apply rep_greedy_In in Hg as (w & -> & Hall & Hlen). exists w. simpl. auto.
  - apply in_map_iff in Hin as ([caps' rest'] & [= <- <-] & Hin).
    apply IH in Hin. exact Hin.
  - apply in_flat_map in Hin as ([c1 rest1] & Hin1 & Hin2).
    apply in_map_iff in Hin2 as ([c2 rest2] & [= <- <-] & Hin2). simpl in Hin2.
    apply IH1 in Hin1 as (w1 & -> & Hl1). apply IH2 in Hin2 as (w2 & -> & Hl2).
    exists (w1 +:+ w2). rewrite app_assoc. split; [reflexivity|].
    exists w1, w2. auto.
Qed.

Lemma exec_complete r : forall w rest,
  lang r w -> exists caps, In (caps, rest) (exec r (w +:+ rest)).
Proof.
  induction r as [l|p|p|p min lz|r IH|r1 IH1 r2 IH2]; intros w rest Hl; simpl in Hl.
  - subst w. exists []. simpl. rewrite prefix_app, drop_app. left. reflexivity.
  - destruct Hl as (c & -> & Hp). exists []. rewrite app_cons. simpl. rewrite Hp.
    left. reflexivity.
  - exists []. destruct Hl as [->|(c & -> & Hp)].
    + rewrite app_nil_l. simpl. destruct rest as [|d rest]; [left; reflexivity|].
      destruct (p d); [right; left; reflexivity | left; reflexivity].
    + rewrite app_cons. simpl. rewrite Hp. left. reflexivity.
  - destruct Hl as [Hall Hlen]. exists []. simpl. apply in_map_iff. exists rest.
    split; [reflexivity|].
    assert (In rest (rep_greedy p min (w +:+ rest))) as Hg.
    { apply rep_greedy_In. exists w. auto. }
    destruct lz; [apply rep_lazy_In|]; exact Hg.
  - destruct (IH w rest Hl) as [caps Hin].
    exists (consumed (w +:+ rest) rest :: caps). simpl. apply in_map_iff.
    exists (caps, rest). auto.
  - destruct Hl as (w1 & w2 & -> & Hl1 & Hl2).
    destruct (IH1 w1 (w2 +:+ rest) Hl1) as [c1 Hin1].
    destruct (IH2 w2 rest Hl2) as [c2 Hin2].
    exists (c1 ++ c2). simpl. rewrite app_assoc. apply in_flat_map.
    exists (c1, w2 +:+ rest). split; [exact Hin1|].
    apply in_map_iff. exists (c2, rest). auto.
Qed.

Lemma match_anchored_Some r s m :
  match_anchored r s = Some m -> s = whole m +:+ after m /\ lang r (whole m).
Proof.
  unfold match_anchored. destruct (exec r s) as [|[caps rest] l] eqn:He; [discriminate|].
  intros [= <-]. simpl.
  destruct (exec_sound r s caps rest) as (w & -> & Hl); [rewrite He; left; reflexivity|].
  rewrite consumed_app. auto.
Qed.

Lemma match_anchored_None r s w rest :
  match_anchored r s = None -> s = w +:+ rest -> ~ lang r w.
Proof.
  unfold match_anchored. intros Hm -> Hl.
  destruct (exec_complete r w rest Hl) as [caps Hin].
  destruct (exec r (w +:+ rest)) as [|[? ?] ?]; [destruct Hin | discriminate].
Qed.

End ReFacts.

(** ** The frontmatter codec *)

Module CodecFacts.
Import Re Codec Spec StrFacts ReFacts.

Lemma is_char_eq x c : Chr.is_char x c = true -> c = x.
Proof. unfold Chr.is_char. intros H. apply Ascii.eqb_eq in H. congruence. Qed.

Lemma blank_nil : blank "".
Proof. reflexivity. Qed.

Lemma blank_app w1 w2 : blank w1 -> blank w2 -> blank (w1 +:+ w2).
Proof. unfold blank. intros H1 H2. rewrite forallb_app, H1, H2. reflexivity. Qed.

(** An optional carriage return is white space. *)
Lemma opt_cr_blank o : lang (Opt (Chr.is_char CR)) o -> blank o.
Proof.
  intros [->|(c & -> & Hc)]; [reflexivity|]. apply is_char_eq in Hc as ->. reflexivity.
Qed.

Lemma class_nl w : lang (Class (Chr.is_char NL)) w -> w = Str.LF.
Proof. intros (c & -> & Hc). apply is_char_eq in Hc as ->. reflexivity. Qed.

(** The pattern of [parseFrontmatter] denotes the delimited blocks. *)
Lemma frontmatter_of_lang w rest : lang frontmatterRegex w -> has_frontmatter (w +:+ rest).
Proof.
  unfold frontmatterRegex. simpl.
  intros (d1 & t1 & -> & -> & s1 & t2 & -> & [Hs1 _] & o1 & t3 & -> & Ho1
          & n1 & t4 & -> & Hn1 & h & t5 & -> & _ & o2 & t6 & -> & Ho2
          & n2 & t7 & -> & Hn2 & d2 & t8 & -> & -> & s2 & t9 & -> & [Hs2 _]
          & o3 & n3 & -> & Ho3 & Hn3).
  apply class_nl in Hn1 as ->, Hn2 as ->, Hn3 as ->.
  exists (s1 +:+ o1), (h +:+ o2), (s2 +:+ o3), rest.
  split; [apply blank_app; [exact Hs1 | apply opt_cr_blank; exact Ho1]|].
  split; [apply blank_app; [exact Hs2 | apply opt_cr_blank; exact Ho3]|].
  rewrite !app_assoc. reflexivity.
Qed.

Lemma lang_of_frontmatter w1 header w2 :
  blank w1 -> blank w2 ->
  lang frontmatterRegex
       ("---" +:+ w1 +:+ Str.LF +:+ header +:+ Str.LF +:+ "---" +:+ w2 +:+ Str.LF).
Proof.
  intros H1 H2. unfold frontmatterRegex. simpl.
  assert (lang (Class (Chr.is_char NL)) Str.LF) as Hnl by (exists NL; split; reflexivity).
  exists "---", (w1 +:+ Str.LF +:+ header +:+ Str.LF +:+ "---" +:+ w2 +:+ Str.LF).
  split; [reflexivity|]. split; [reflexivity|].
  exists w1, (Str.LF +:+ header +:+ Str.LF +:+ "---" +:+ w2 +:+ Str.LF).
  split; [reflexivity|]. split; [split; [exact H1 | lia]|].
  exists "", (Str.LF +:+ header +:+ Str.LF +:+ "---" +:+ w2 +:+ Str.LF).
  split; [reflexivity|]. split; [left; reflexivity|].
  exists Str.LF, (header +:+ Str.LF +:+ "---" +:+ w2 +:+ Str.LF).
  split; [reflexivity|]. split; [exact Hnl|].
  exists header, (Str.LF +:+ "---" +:+ w2 +:+ Str.LF).
  split; [reflexivity|]. split; [split; [apply forallb_any | lia]|].
  exists "", (Str.LF +:+ "---" +:+ w2 +:+ Str.LF).
  split; [reflexivity|]. split; [left; reflexivity|].
  exists Str.LF, ("---" +:+ w2 +:+ Str.LF).
  split; [reflexivity|]. split; [exact Hnl|].
  exists "---", (w2 +:+ Str.LF).
  split; [reflexivity|]. split; [reflexivity|].
  exists w2, Str.LF.
  split; [reflexivity|]. split; [split; [exact H2 | lia]|].
  exists "", Str.LF.
  split; [reflexivity|]. split; [left; reflexivity | exact Hnl].
Qed.

(** The pattern matches exactly the inputs that begin with a block. *)
Lemma frontmatter_match_iff content :
  is_Some (match_anchored frontmatterRegex content) <-> has_frontmatter content.
Proof.
  split.
  - intros [m Hm]. apply match_anchored_Some in Hm as [Heq Hl].
    rewrite Heq. apply frontmatter_of_lang. exact Hl.
  - intros (w1 & header & w2 & rest & H1 & H2 & Heq).
    destruct (match_anchored frontmatterRegex content) as [m|] eqn:Hm; [eauto|].
    exfalso.
    eapply (match_anchored_None _ _
              ("---" +:+ w1 +:+ Str.LF +:+ header +:+ Str.LF +:+ "---" +:+ w2 +:+ Str.LF) rest
              Hm).
    + rewrite Heq, !app_assoc. reflexivity.
    + apply lang_of_frontmatter; assumption.
Qed.

Lemma no_frontmatter content :
  match_anchored frontmatterRegex content = None -> ~ has_frontmatter content.
Proof.
  intros Hm Hf. apply frontmatter_match_iff in Hf as [m Hf]. congruence.
Qed.

Lemma parseFrontmatter_default content :
  ~ has_frontmatter content ->
  parseFrontmatter content = {| metadata := createDefaultMetadata; body := content |}.
Proof.
  intros Hno. unfold parseFrontmatter.
  destruct (match_anchored frontmatterRegex content) as [m|] eqn:Hm; [|reflexivity].
  exfalso. apply Hno. apply frontmatter_match_iff. eauto.
Qed.

(** C7. [parseFrontmatter] is a function of the input alone and returns a
    result for every string.  When the input does not begin with a complete
    delimited frontmatter block, the metadata of the result is the default
    one (importance 0.5, no tag, no [relevantTo] term, no related file, empty
    summary, the three counters at 0) and its body is the whole input. *)
Theorem parseFrontmatter_without_block content :
  ~ has_frontmatter content ->
  parseFrontmatter content = {| metadata := createDefaultMetadata; body := content |}
  /\ importance createDefaultMetadata = Num.Num (1 # 2)
  /\ tags createDefaultMetadata = []
  /\ relevantTo createDefaultMetadata = []
  /\ relatedFiles createDefaultMetadata = []
  /\ summary createDefaultMetadata = ""
  /\ usageStats createDefaultMetadata = mkUsageStats 0 0 0.
Proof.
  intros Hno. split; [apply parseFrontmatter_default; exact Hno | repeat split].
Qed.

(** The empty string, text without header and a header that is not closed. *)
Lemma parseFrontmatter_without_block_witness :
  parseFrontmatter "" = {| metadata := createDefaultMetadata; body := "" |}
  /\ parseFrontmatter "%PDF-1.4 \x00 garbage ---"
     = {| metadata := createDefaultMetadata; body := "%PDF-1.4 \x00 garbage ---" |}
  /\ parseFrontmatter ("---" +:+ Str.LF +:+ "tags: [a]" +:+ Str.LF +:+ "never closed")
     = {| metadata := createDefaultMetadata;
          body := "---" +:+ Str.LF +:+ "tags: [a]" +:+ Str.LF +:+ "never closed" |}.
Proof.
  split; [|split].
  - apply (parseFrontmatter_without_block ""). apply no_frontmatter. vm_compute. reflexivity.
  - apply (parseFrontmatter_without_block "%PDF-1.4 \x00 garbage ---").
    apply no_frontmatter. vm_compute. reflexivity.
  - apply (parseFrontmatter_without_block
             ("---" +:+ Str.LF +:+ "tags: [a]" +:+ Str.LF +:+ "never closed")).
    apply no_frontmatter. vm_compute. reflexivity.
Defined.

(** Whatever the input, the importance that [parseFrontmatter] returns is
    [NaN] (a value without digit, as in [importance: .]) or lies in [0, 1]. *)
Lemma importance_in_range content :
  match importance (metadata (parseFrontmatter content)) with
  | Num.NaN => True
  | Num.Num q => (0 <= q /\ q <= 1)%Q
  end.
Proof.
  unfold parseFrontmatter.
  destruct (match_anchored frontmatterRegex content) as [m|]; [|simpl; split; discriminate].
  simpl.
  destruct (match_search (listRegex "relatedFiles") (group1 m)); simpl;
  destruct (match_search importanceRegex (group1 m)) as [im|]; simpl.
  1,3: destruct (Num.parseFloat (group1 im)) as [|q]; simpl; [exact I|];
       destruct (Qle_bool 1 q) eqn:H1; simpl; [split; discriminate|];
       destruct (Qle_bool q 0) eqn:H0; simpl; [split; discriminate|];
       split;
       [ apply Qlt_le_weak, Qnot_le_lt; intros H; apply Qle_bool_iff in H; congruence
       | apply Qlt_le_weak, Qnot_le_lt; intros H; apply Qle_bool_iff in H; congruence ].
  all: destruct (match_search (listRegex "relevantTo") (group1 m)); simpl;
       destruct (match_search summaryRegex (group1 m)); simpl;
       destruct (match_search (listRegex "tags") (group1 m)); simpl; split; discriminate.
Qed.

(** C6. A value above 1 is clamped: [importance: 1.5] is read as 1.  A
    negative value is not: the pattern [importance:\s*([\d.]+)] has no place
    for the sign, so that for [importance: -3] it does not match, the call
    of [Math.max(0, ...)] is not reached and the importance stays at the
    default 0.5 instead of becoming 0. *)
Theorem importance_clamp_evaluated :
  importance (metadata (parseFrontmatter
    ("---" +:+ Str.LF +:+ "importance: 1.5" +:+ Str.LF +:+ "---" +:+ Str.LF)))
  = Num.Num 1
  /\ importance (metadata (parseFrontmatter
    ("---" +:+ Str.LF +:+ "importance: -3" +:+ Str.LF +:+ "---" +:+ Str.LF)))
  = Num.Num (1 # 2)
  /\ match_search importanceRegex "importance: -3" = None.
Proof. repeat split; vm_compute; reflexivity. Qed.

(** C1. The default metadata is what [parseFrontmatter] returns for the
    empty string, hence a value that the codec produces.  Serialized and
    parsed again, it comes back with the summary [relevantTo: []]: the
    summary line of the header is empty, and the white space that the
    pattern [summary:\s*(.+)] skips includes the end of that line, so that
    the group captures the next line.  A body that starts with an empty line
    loses it, because the white space after the closing dashes is skipped in
    the same way.  And a metadata, read by the codec, whose summary is
    [loaded: 99] and whose counter is 3 comes back with the counter 99: the
    serializer writes the summary before the counters, and the pattern of
    the counter is found in the summary line first. *)
Theorem roundtrip_evaluated :
  metadata (parseFrontmatter "") = createDefaultMetadata
  /\ parseFrontmatter (serializeFrontmatter createDefaultMetadata +:+ Str.LF +:+ "body")
     = {| metadata := set_summary "relevantTo: []" createDefaultMetadata; body := "body" |}
  /\ body (parseFrontmatter
             (serializeFrontmatter createDefaultMetadata +:+ Str.LF +:+ (Str.LF +:+ "body")))
     = "body"
  /\ metadata (parseFrontmatter Samples.shadow_file) = Samples.shadow_metadata
  /\ parseFrontmatter (serializeFrontmatter Samples.shadow_metadata +:+ Str.LF +:+ "body")
     = {| metadata :=
            set_usageStats (mkUsageStats 99 0 0) Samples.shadow_metadata;
          body := "body" |}.
Proof. repeat split; vm_compute; reflexivity. Qed.

End CodecFacts.

(** ** Scores *)

Module ScoringFacts.
Import Codec Scoring Loader Spec Samples.









(** [countMatches] counts the entries of its first argument that occur in
    the second one, letter case apart. *)
Lemma countMatches_entries arr1 arr2 : countMatches arr1 arr2 = entries_among arr1 arr2.
Proof.
  unfold countMatches, entries_among. f_equal. apply filter_ext. intros t.
  apply eq_true_iff_eq. rewrite bool_decide_eq_true, existsb_exists, elem_of_list_to_set.
  rewrite list_elem_of_In, in_map_iff. split.
  - intros (u & Hu & Hin). exists u. split; [exact Hin|]. apply String.eqb_eq. congruence.
  - intros (u & Hin & Hu). exists u. apply String.eqb_eq in Hu. split; [congruence | exact Hin].
Qed.

(** C4, as stated, fails.  The summary [JWT auth, JWT refresh] gives the
    terms jwt, auth, jwt, refresh; the task [JWT endpoint] gives jwt and
    endpoint.  One task term occurs in the summary, but [countMatches]
    counts the two entries of the summary that are task terms: the score is
    2 x 0.5 x 1 = 1 and not 1 x 0.5 x 1 = 0.5. *)
Lemma score_counts_entries_not_task_terms :
  let m := metadata (parseFrontmatter jwt_summary_file) in
  let taskTerms := taskTermsOf jwt_task in
  taskTerms = ["jwt"; "endpoint"]
  /\ extractTerms (summary m) = ["jwt"; "auth"; "jwt"; "refresh"]
  /\ same_number (scoreOf "auth.md" m taskTerms) (Num.Num 1)
  /\ same_number (score_counting_task_terms "auth.md" m taskTerms) (Num.Num (1 # 2))
  /\ ~ same_number (scoreOf "auth.md" m taskTerms)
                   (score_counting_task_terms "auth.md" m taskTerms).
Proof.
  cbv zeta. split; [vm_compute; reflexivity|]. split; [vm_compute; reflexivity|].
  split; [vm_compute; reflexivity|]. split; [vm_compute; reflexivity|].
  vm_compute. discriminate.
Qed.

(** *** The pieces of the file name *)

Lemma name_separator_class c :
  (Chr.is_char "-" c || Chr.is_char "_" c)%bool = name_separator c.
Proof. destruct c as [[|] [|] [|] [|] [|] [|] [|] [|]]; reflexivity. Qed.

Lemma split_not_nil sep s : Str.split sep s <> [].
Proof.
  destruct s as [|c s]; simpl; [discriminate|].
  destruct (sep c); [discriminate|]. destruct (Str.split sep s); discriminate.
Qed.

Lemma split_ext (p q : ascii -> bool) s :
  (forall c, p c = q c) -> Str.split p s = Str.split q s.
Proof.
  intros H. induction s as [|c s IH]; [reflexivity|]. simpl. rewrite H, IH. reflexivity.
Qed.

Lemma pieces_split s : forall piece,
  pieces_from piece s
  = List.filter (fun t => Nat.ltb 2 (String.length t))
      (match Str.split name_separator s with
       | w :: ws => (piece +:+ w) :: ws
       | [] => []
       end).
Proof.
  induction s as [|c s IH]; intros piece.
  - simpl. rewrite StrFacts.app_nil_r. destruct (Nat.ltb 2 (String.length piece)); reflexivity.
  - cbn [pieces_from Str.split]. destruct (name_separator c).
    + rewrite IH. cbn [List.filter]. rewrite StrFacts.app_nil_r.
      destruct (Str.split name_separator s) as [|w ws] eqn:E;
        [exfalso; exact (split_not_nil _ _ E)|].
      rewrite StrFacts.app_nil_l. destruct (Nat.ltb 2 (String.length piece)); reflexivity.
    + rewrite IH.
      destruct (Str.split name_separator s) as [|w ws] eqn:E;
        [exfalso; exact (split_not_nil _ _ E)|].
      rewrite StrFacts.app_assoc. reflexivity.
Qed.

Lemma without_md_cons c s :
  without_md (String c s)
  = if String.prefix ".md" (String c s) then Str.drop 3 (String c s)
    else String c (without_md s).
Proof.
  destruct c as [[|] [|] [|] [|] [|] [|] [|] [|]]; try reflexivity.
  destruct s as [|c2 s]; [reflexivity|].
  destruct c2 as [[|] [|] [|] [|] [|] [|] [|] [|]]; try reflexivity.
  destruct s as [|c3 s]; [reflexivity|].
  destruct c3 as [[|] [|] [|] [|] [|] [|] [|] [|]]; try reflexivity.
  simpl. destruct s; reflexivity.
Qed.

Lemma remove_first_md s : Str.remove_first ".md" s = without_md s.
Proof.
  induction s as [|c s IH]; [reflexivity|].
  rewrite without_md_cons. cbn [Str.remove_first].
  destruct (String.prefix ".md" (String c s)); [reflexivity|]. rewrite IH. reflexivity.
Qed.

(** The pieces that the code takes from the file name are the pieces of the
    specification as amended. *)
Lemma categoryTermsOf_pieces fileName : categoryTermsOf fileName = name_pieces fileName.
Proof.
  unfold categoryTermsOf, name_pieces. rewrite pieces_split, remove_first_md.
  rewrite (split_ext _ name_separator) by exact name_separator_class.
  destruct (Str.split name_separator (without_md fileName)) as [|w ws]; [reflexivity|].
  rewrite StrFacts.app_nil_l. reflexivity.
Qed.

(** C4, amended.  With task terms, the score of a candidate is
    (tagMatches x 3 + relevantToMatches x 2 + summaryMatches x 1 +
    categoryMatches x 4) x importance x usageScore, where a match count is
    the number of entries of the collection (tags, [relevantTo] terms, terms
    of the summary, pieces of the file name without its [.md] that are
    longer than 2 characters between hyphens and underscores), repeated
    entries included, that occur among the task terms, letter case apart.
    Without task terms the score is the importance. *)
Theorem score_formula (fileName : string) (m : MemoryMetadata) (taskTerms : list string) :
  (taskTerms <> [] -> scoreOf fileName m taskTerms = score_counting_entries fileName m taskTerms)
  /\ (taskTerms = [] -> scoreOf fileName m taskTerms = importance m).
Proof.
  split.
  - intros Hne. unfold scoreOf, score_counting_entries.
    destruct taskTerms as [|t ts]; [congruence|]. simpl List.length. simpl Nat.ltb. cbv iota.
    rewrite !countMatches_entries, Nat.mul_1_r, categoryTermsOf_pieces. reflexivity.
  - intros ->. reflexivity.
Qed.

Lemma score_formula_witness :
  name_pieces "auth-decisions.md" = ["auth"; "decisions"]
  /\ entries_among (tags weighted_metadata) weighted_task = 3
  /\ entries_among (relevantTo weighted_metadata) weighted_task = 1
  /\ entries_among (extractTerms (summary weighted_metadata)) weighted_task = 2
  /\ entries_among (name_pieces "auth-decisions.md") weighted_task = 2
  /\ scoreOf "auth-decisions.md" weighted_metadata weighted_task
     = score_counting_entries "auth-decisions.md" weighted_metadata weighted_task
  /\ same_number (scoreOf "auth-decisions.md" weighted_metadata weighted_task)
                 (Num.Num (21 * (7 # 10) * (3 # 4)))
  /\ scoreOf "auth-decisions.md" weighted_metadata [] = Num.Num (7 # 10).
Proof.
  assert (scoreOf "auth-decisions.md" weighted_metadata weighted_task
          = score_counting_entries "auth-decisions.md" weighted_metadata weighted_task) as H.
  { apply (score_formula "auth-decisions.md" weighted_metadata weighted_task).
    vm_compute. discriminate. }
  split; [vm_compute; reflexivity|]. split; [vm_compute; reflexivity|].
  split; [vm_compute; reflexivity|]. split; [vm_compute; reflexivity|].
  split; [vm_compute; reflexivity|]. split; [exact H|].
  split; [rewrite H; vm_compute; reflexivity|].
  apply (score_formula "auth-decisions.md" weighted_metadata []). reflexivity.
Defined.

End ScoringFacts.

(** ** Usage counters and learnings on the file system *)

Module MemoryFacts.
Import Re Codec Fs Memory Spec StrFacts ReFacts CodecFacts.

(** The body that [parseFrontmatter] returns is the text that follows the
    frontmatter block. *)
Lemma parseFrontmatter_with_block content :
  has_frontmatter content ->
  exists block, content = block +:+ body (parseFrontmatter content)
                /\ Spec.lang frontmatterRegex block.
Proof.
  intros Hf. apply frontmatter_match_iff in Hf as [m Hm].
  unfold parseFrontmatter. rewrite Hm. simpl.
  apply match_anchored_Some in Hm as [Heq Hl].
  exists (whole m). split; [|exact Hl].
  unfold Str.slice. rewrite Heq at 2. rewrite drop_app. exact Heq.
Qed.

Lemma bump_stat stat m :
  get_stat stat (usageStats (bump stat m)) = (get_stat stat (usageStats m) + 1)%N.
Proof. destruct stat; reflexivity. Qed.

Lemma bump_other stat k m :
  k <> stat -> get_stat k (usageStats (bump stat m)) = get_stat k (usageStats m).
Proof. destruct stat, k; intros H; try reflexivity; congruence. Qed.

Lemma incrementUsageStat_readable p stat w c :
  w !! p = Some (File c true) ->
  incrementUsageStat p stat w = (Ok tt, <[p := File (bumped_content stat c) true]> w).
Proof.
  intros H. unfold incrementUsageStat, withFileLock, try_catch, bind, readFile, writeFile.
  rewrite H. cbv beta iota. rewrite H. reflexivity.
Qed.

Lemma incrementUsageStat_unreadable p stat w :
  (forall c, w !! p <> Some (File c true)) -> incrementUsageStat p stat w = (Ok tt, w).
Proof.
  intros H. unfold incrementUsageStat, withFileLock, try_catch, bind, readFile, ret.
  destruct (w !! p) as [[c [|]|]|] eqn:E; try reflexivity.
  exfalso. exact (H c eq_refl).
Qed.

(** C9. A memory file as the serializer writes it, with a well-formed
    block, whose summary is [modules loaded: 99 at startup] and whose
    counter [loaded] is 3.  The call for [loaded] returns normally and
    rewrites the file with the body as it was, but the counter is not one
    higher: the pattern of the counter is found in the summary line first,
    so that 99 is read, 100 is written in the line of the counter, and the
    file read again still gives 99.  On a missing path the call returns
    normally and changes nothing. *)
Theorem incrementUsageStat_evaluated :
  let before := Samples.startup_file "3" in
  let after := Samples.startup_file "100" in
  let w := <[Samples.startup_path := File before true]> Samples.folder_fs in
  has_frontmatter before
  /\ incrementUsageStat Samples.startup_path Loaded w
     = (Ok tt, <[Samples.startup_path := File after true]> w)
  /\ loaded (usageStats (metadata (parseFrontmatter before))) = 99%N
  /\ loaded (usageStats (metadata (parseFrontmatter after))) = 99%N
  /\ body (parseFrontmatter before) = "Warm the cache at startup"
  /\ body (parseFrontmatter after) = "Warm the cache at startup"
  /\ incrementUsageStat "/project/.automaker/memory/missing.md" Loaded w = (Ok tt, w).
Proof.
  cbv zeta. split; [apply frontmatter_match_iff; vm_compute; eauto|].
  split.
  { rewrite (incrementUsageStat_readable _ Loaded _ (Samples.startup_file "3"))
      by apply lookup_insert_eq.
    replace (bumped_content Loaded (Samples.startup_file "3"))
      with (Samples.startup_file "100") by (vm_compute; reflexivity).
    reflexivity. }
  split; [vm_compute; reflexivity|]. split; [vm_compute; reflexivity|].
  split; [vm_compute; reflexivity|]. split; [vm_compute; reflexivity|].
  apply incrementUsageStat_unreadable. intros c Hc. vm_compute in Hc. discriminate.
Qed.



Lemma forallb_filter p s : Str.forallb p (Str.filter p s) = true.
Proof.
  induction s as [|c s IH]; [reflexivity|]. simpl.
  destruct (p c) eqn:Hp; [simpl; rewrite Hp; exact IH | exact IH].
Qed.

Lemma join_head sep x xs : exists t, Str.join sep (x :: xs) = x +:+ t.
Proof.
  destruct xs as [|y ys]; simpl.
  - exists "". rewrite app_nil_r. reflexivity.
  - eexists. reflexivity.
Qed.

(** A formatted entry begins with an empty line. *)
Lemma formatLearning_head date l : exists t, formatLearning date l = Str.LF +:+ t.
Proof.
  unfold formatLearning.
  destruct (type l); simpl List.app;
    match goal with
    | |- context [Str.join ?sep (?x :: ?xs)] =>
        destruct (join_head sep x xs) as [t ->]
    end;
    rewrite !app_assoc; eexists; reflexivity.
Qed.

(** *** The directory of a path *)

Lemma parent_no_slash n : Str.existsb (Chr.is_char "/") n = false -> parent n = None.
Proof.
  induction n as [|c n IH]; [reflexivity|]. simpl. intros H.
  apply orb_false_iff in H as [Hc Hn]. rewrite (IH Hn), Hc. reflexivity.
Qed.

Lemma parent_join dir n :
  Str.existsb (Chr.is_char "/") n = false -> parent (path_join dir n) = Some dir.
Proof.
  intros Hn. unfold path_join. induction dir as [|c dir IH].
  - change ("" +:+ "/" +:+ n) with (String "/" n). cbn [parent].
    rewrite (parent_no_slash n Hn). reflexivity.
  - rewrite app_cons. cbn [parent]. rewrite IH. reflexivity.
Qed.

Lemma getMemoryDir_not_empty projectPath : getMemoryDir projectPath <> "".
Proof.
  unfold getMemoryDir, path_join. intros H. apply (f_equal String.length) in H.
  rewrite !length_app in H. simpl in H. lia.
Qed.

(** A file can be created in a folder exactly when the folder is a
    directory. *)
Lemma parent_is_dir_join (w : fs) dir n :
  Str.existsb (Chr.is_char "/") n = false -> dir <> "" ->
  parent_is_dir w (path_join dir n)
  = match w !! dir with Some Dir => true | _ => false end.
Proof.
  intros Hn Hd. unfold parent_is_dir. rewrite (parent_join dir n Hn).
  destruct dir; [congruence | reflexivity].
Qed.

Lemma writeFile_create (w : fs) p content :
  w !! p = None -> parent_is_dir w p = true ->
  writeFile p content w = (Ok tt, <[p := File content true]> w).
Proof. intros Hp Hd. unfold writeFile. rewrite Hp, Hd. reflexivity. Qed.

(** *** The name of the file of a category *)

Lemma is_space_toLowerCase c : Chr.is_space (Chr.toLowerCase c) = Chr.is_space c.
Proof. destruct c as [[|] [|] [|] [|] [|] [|] [|] [|]]; reflexivity. Qed.

Lemma is_file_char_kept c : is_file_char c = kept_in_name c.
Proof. destruct c as [[|] [|] [|] [|] [|] [|] [|] [|]]; reflexivity. Qed.

Lemma sanitize_from b s :
  Str.filter is_file_char (Str.replace_space_runs_from b "-" (Str.toLowerCase s))
  = sanitized_from b s.
Proof.
  revert b. induction s as [|c s IH]; intros b; [reflexivity|].
  unfold Str.toLowerCase in *. cbn [Str.map Str.replace_space_runs_from sanitized_from].
  rewrite is_space_toLowerCase. destruct (Chr.is_space c).
  - destruct b; [apply IH|].
    change ("-" +:+ ?x) with (String "-" x). cbn [Str.filter].
    change (is_file_char "-") with true. cbv iota. rewrite IH. reflexivity.
  - cbn [Str.filter]. rewrite is_file_char_kept, IH. reflexivity.
Qed.

(** The code sanitizes the category as the specification says. *)
Lemma sanitizeCategory_sanitized category : sanitizeCategory category = sanitized category.
Proof. apply sanitize_from. Qed.

Lemma or_general_stem category : or_general (sanitizeCategory category) = file_stem category.
Proof.
  unfold or_general, file_stem. rewrite sanitizeCategory_sanitized.
  destruct (sanitized category); reflexivity.
Qed.

Lemma file_chars_kept s :
  Str.forallb is_file_char s = true -> Str.forallb kept_in_name s = true.
Proof.
  induction s as [|c s IH]; [reflexivity|]. simpl. rewrite is_file_char_kept.
  intros H. apply andb_true_iff in H as [Hc Hs]. rewrite Hc, (IH Hs). reflexivity.
Qed.

Lemma file_stem_chars category : Str.forallb kept_in_name (file_stem category) = true.
Proof.
  rewrite <- or_general_stem. unfold or_general.
  destruct (String.eqb (sanitizeCategory category) ""); [reflexivity|].
  apply file_chars_kept. apply forallb_filter.
Qed.

Lemma kept_not_slash c : kept_in_name c = true -> Chr.is_char "/" c = false.
Proof.
  destruct c as [[|] [|] [|] [|] [|] [|] [|] [|]]; vm_compute; congruence.
Qed.

Lemma learningFileName_plain l : Str.existsb (Chr.is_char "/") (learningFileName l) = false.
Proof.
  unfold learningFileName. rewrite or_general_stem.
  pose proof (file_stem_chars (category l)) as H.
  induction (file_stem (category l)) as [|c s IH]; [reflexivity|].
  simpl in H. apply andb_true_iff in H as [Hc Hs].
  rewrite app_cons. cbn [Str.existsb]. rewrite (kept_not_slash c Hc). exact (IH Hs).
Qed.

(** *** The three cases of [appendLearning] *)

Lemma appendLearning_existing projectPath date l w c r :
  w !! learningFilePath projectPath l = Some (File c r) ->
  appendLearning projectPath date l w
  = (Ok tt, <[learningFilePath projectPath l
                := File (c +:+ Str.LF +:+ formatLearning date l) r]> w).
Proof.
  intros H. unfold appendLearning, withFileLock, try_catch, bind, access, appendFile.
  rewrite H. cbv beta iota. rewrite H. reflexivity.
Qed.

Lemma appendLearning_missing projectPath date l w :
  w !! getMemoryDir projectPath = Some Dir ->
  w !! learningFilePath projectPath l = None ->
  appendLearning projectPath date l w
  = (Ok tt, <[learningFilePath projectPath l
                := File (serializeFrontmatter (seededMetadata l)
                         +:+ (Str.LF +:+ "# " +:+ category l +:+ Str.LF)
                         +:+ formatLearning date l) true]> w).
Proof.
  intros Hd H. unfold appendLearning, withFileLock, try_catch, bind, access, writeFile.
  rewrite H. cbv beta iota. rewrite H.
  unfold learningFilePath at 1.
  rewrite (parent_is_dir_join w _ _ (learningFileName_plain l) (getMemoryDir_not_empty _)), Hd.
  reflexivity.
Qed.

Lemma appendLearning_no_folder projectPath date l w :
  w !! getMemoryDir projectPath <> Some Dir ->
  w !! learningFilePath projectPath l = None ->
  appendLearning projectPath date l w = (Throw, w).
Proof.
  intros Hd H. unfold appendLearning, withFileLock, try_catch, bind, access, writeFile.
  rewrite H. cbv beta iota. rewrite H.
  unfold learningFilePath at 1.
  rewrite (parent_is_dir_join w _ _ (learningFileName_plain l) (getMemoryDir_not_empty _)).
  destruct (w !! getMemoryDir projectPath) as [[c r|]|]; try reflexivity. congruence.
Qed.

End MemoryFacts.

(** ** The round trip of the codec on plain metadata *)

Module HeaderFacts.
Import Re Codec Fs Memory Spec Header StrFacts ReFacts CodecFacts MemoryFacts.
#[local] Arguments String.append : simpl nomatch.
#[local] Arguments Chr.is_char : simpl never.
#[local] Arguments Chr.is_space : simpl never.
#[local] Arguments Chr.is_line_char : simpl never.
#[local] Arguments Chr.is_digit : simpl never.
#[local] Arguments Chr.is_digit_or_dot : simpl never.
#[local] Arguments Chr.is_quote : simpl never.

Ltac by_cases_on_char c :=
  destruct c as [[|] [|] [|] [|] [|] [|] [|] [|]]; vm_compute;
  first [congruence | intros _; split; reflexivity].

(** *** Classes of characters *)

Lemma forallb_impl (p q : ascii -> bool) s :
  (forall c, p c = true -> q c = true) -> Str.forallb p s = true -> Str.forallb q s = true.
Proof.
  intros Hpq. induction s as [|c s IH]; simpl; [auto|].
  intros H. apply andb_true_iff in H as [Hc Hs]. rewrite (Hpq c Hc), (IH Hs). reflexivity.
Qed.

Lemma existsb_false (p q : ascii -> bool) s :
  (forall c, p c = true -> q c = false) -> Str.forallb p s = true -> Str.existsb q s = false.
Proof.
  intros Hpq. induction s as [|c s IH]; simpl; [auto|].
  intros H. apply andb_true_iff in H as [Hc Hs]. rewrite (Hpq c Hc), (IH Hs). reflexivity.
Qed.

Lemma filter_all p s : Str.forallb p s = true -> Str.filter p s = s.
Proof.
  induction s as [|c s IH]; simpl; [auto|]. intros H. apply andb_true_iff in H as [Hc Hs].
  rewrite Hc, (IH Hs). reflexivity.
Qed.

Lemma forallb_rev_app p s : forall t,
  Str.forallb p (String.rev_app s t) = (Str.forallb p s && Str.forallb p t)%bool.
Proof.
  induction s as [|c s IH]; intros t; simpl; [reflexivity|].
  rewrite IH. simpl. destruct (p c), (Str.forallb p s); reflexivity.
Qed.

Lemma value_char_line c : value_char c = true -> Chr.is_line_char c = true.
Proof. by_cases_on_char c. Qed.

Lemma value_char_not_colon c : value_char c = true -> not_colon c = true.
Proof. by_cases_on_char c. Qed.

Lemma value_char_not_bracket c : value_char c = true -> Chr.is_char "]" c = false.
Proof. by_cases_on_char c. Qed.

Lemma digit_value_char c : Chr.is_digit c = true -> value_char c = true.
Proof. by_cases_on_char c. Qed.

Lemma digit_or_dot_value_char c : Chr.is_digit_or_dot c = true -> value_char c = true.
Proof. by_cases_on_char c. Qed.

Lemma line_char_not_end c :
  Chr.is_line_char c = true -> Chr.is_char NL c = false /\ Chr.is_char CR c = false.
Proof. by_cases_on_char c. Qed.

Lemma summary_char_value c : summary_char c = true -> value_char c = true.
Proof. by_cases_on_char c. Qed.

Lemma summary_char_comma_value c :
  (summary_char c || Chr.is_char "," c)%bool = true -> value_char c = true.
Proof. by_cases_on_char c. Qed.

Lemma summary_char_plain c : summary_char c = true -> is_yaml_special c = false.
Proof. by_cases_on_char c. Qed.

Lemma summary_char_not_quote c : summary_char c = true -> Chr.is_quote c = false.
Proof. by_cases_on_char c. Qed.

Lemma word_char_summary c : word_char c = true -> summary_char c = true.
Proof. by_cases_on_char c. Qed.

Lemma word_char_not_space c : word_char c = true -> Chr.is_space c = false.
Proof. by_cases_on_char c. Qed.

Lemma word_char_not_comma c : word_char c = true -> Chr.is_char "," c = false.
Proof. by_cases_on_char c. Qed.

(** *** First matches *)

Lemma within_chars P (q : ascii -> bool) x t :
  (forall c s, q c = true -> P (String c s)) -> Str.forallb q x = true -> within P x t.
Proof.
  intros HP. induction x as [|c x IH]; simpl; [auto|].
  intros H. apply andb_true_iff in H as [Hc Hx]. split; [apply HP; exact Hc | auto].
Qed.

Lemma within_app P a b t : within P a (b +:+ t) -> within P b t -> within P (a +:+ b) t.
Proof.
  induction a as [|c a IH]; simpl; [auto|].
  intros [H1 H2] Hb. rewrite StrFacts.app_assoc. split; [exact H1 | auto].
Qed.

Lemma within_mono (P Q : string -> Prop) x t :
  (forall s, P s -> Q s) -> within P x t -> within Q x t.
Proof.
  intros HPQ. induction x as [|c x IH]; simpl; [auto|]. intros [H Hw]. auto.
Qed.

Lemma first_lit l t : first_is (Lit l) (l +:+ t) [] t.
Proof. exists []. simpl. rewrite prefix_app, drop_app. reflexivity. Qed.

Lemma first_class p c t : p c = true -> first_is (Class p) (String c t) [] t.
Proof. intros H. exists []. simpl. rewrite H. reflexivity. Qed.

Lemma first_seq r1 r2 s c1 s1 c2 s2 :
  first_is r1 s c1 s1 -> first_is r2 s1 c2 s2 -> first_is (Seq r1 r2) s (c1 ++ c2) s2.
Proof.
  intros [l1 H1] [l2 H2]. unfold first_is. simpl. rewrite H1. simpl. rewrite H2. simpl. eauto.
Qed.

(** The first alternatives of [r1] may fail in [r2]. *)
Lemma first_seq_after r1 r2 s fails c1 s1 l1 c2 s2 :
  exec r1 s = fails ++ (c1, s1) :: l1 ->
  Forall (fun m => exec r2 (snd m) = []) fails ->
  first_is r2 s1 c2 s2 -> first_is (Seq r1 r2) s (c1 ++ c2) s2.
Proof.
  intros H1 Hf [l2 H2]. unfold first_is. simpl. rewrite H1. clear H1.
  induction Hf as [|m fails Hm Hf IH]; simpl.
  - rewrite H2. simpl. eauto.
  - rewrite Hm. simpl. exact IH.
Qed.

Lemma first_group r s caps rest :
  first_is r s caps rest -> first_is (Group r) s (consumed s rest :: caps) rest.
Proof. intros [l H]. unfold first_is. simpl. rewrite H. simpl. eauto. Qed.

Lemma first_opt_skip p s : stops p s -> first_is (Opt p) s [] s.
Proof.
  intros H. unfold first_is. destruct s as [|c s]; simpl; [eauto|].
  simpl in H. rewrite H. eauto.
Qed.

Lemma exec_class_fail p c s : p c = false -> exec (Class p) (String c s) = [].
Proof. intros H. simpl. rewrite H. reflexivity. Qed.

Lemma rep_greedy_all p x : forall min t,
  Str.forallb p x = true -> stops p t -> min <= String.length x ->
  exists l, rep_greedy p min (x +:+ t) = t :: l.
Proof.
  induction x as [|c x IH]; intros min t Hall Hstop Hmin.
  - simpl in Hmin. assert (min = 0) as -> by lia. simpl.
    destruct t as [|d t]; simpl; [eauto|]. simpl in Hstop. rewrite Hstop. eauto.
  - simpl in Hall. apply andb_true_iff in Hall as [Hc Hx]. simpl. rewrite Hc.
    destruct (IH (Nat.pred min) t Hx Hstop) as [l ->]; [simpl in Hmin; lia|].
    simpl. eauto.
Qed.

(** A greedy repetition takes all of a text of its class first. *)
Lemma first_rep_greedy p min x t :
  Str.forallb p x = true -> stops p t -> min <= String.length x ->
  first_is (Rep p min false) (x +:+ t) [] t.
Proof.
  intros Hall Hstop Hmin. destruct (rep_greedy_all p x min t Hall Hstop Hmin) as [l Hl].
  unfold first_is. simpl. rewrite Hl. simpl. eauto.
Qed.

Lemma lazy_alternatives p K (g : string -> list string) x : forall t c2 s2,
  Str.forallb p x = true ->
  within (fun s => exec K s = []) x t ->
  first_is K t c2 s2 ->
  exists l, List.flat_map
              (fun m1 => List.map (fun m2 => (fst m1 ++ fst m2, snd m2)) (exec K (snd m1)))
              (List.map (fun rest => (g rest, rest)) (rep_lazy p 0 (x +:+ t)))
            = (g t ++ c2, s2) :: l.
Proof.
  induction x as [|c x IH]; intros t c2 s2 Hall Hw [l2 H2].
  - simpl. destruct t as [|d t]; simpl.
    + rewrite H2. simpl. eauto.
    + destruct (p d); simpl; rewrite H2; simpl; eauto.
  - simpl in Hall. apply andb_true_iff in Hall as [Hc Hx]. destruct Hw as [Hfail Hw].
    simpl. rewrite Hc. simpl. simpl in Hfail. rewrite Hfail. simpl.
    apply (IH t c2 s2 Hx Hw). exists l2. exact H2.
Qed.

(** A lazy repetition in a group gives way to the continuation at the first
    place where the continuation matches. *)
Lemma first_lazy_group p K x t c2 s2 :
  Str.forallb p x = true ->
  within (fun s => exec K s = []) x t ->
  first_is K t c2 s2 ->
  first_is (Seq (Group (Rep p 0 true)) K) (x +:+ t) (x :: c2) s2.
Proof.
  intros Hall Hw HK. unfold first_is. simpl. rewrite List.map_map. simpl.
  destruct (lazy_alternatives p K (fun rest => [consumed (x +:+ t) rest]) x t c2 s2 Hall Hw HK)
    as [l Hl].
  rewrite Hl. rewrite consumed_app. simpl. eauto.
Qed.

(** *** Searching for a key *)

Lemma anchored_first r s caps rest :
  first_is r s caps rest ->
  match_anchored r s = Some (MatchResult (consumed s rest) caps rest).
Proof. intros [l H]. unfold match_anchored. rewrite H. reflexivity. Qed.

Lemma search_first r s caps rest :
  first_is r s caps rest ->
  match_search r s = Some (MatchResult (consumed s rest) caps rest).
Proof.
  intros H. apply anchored_first in H. destruct s; simpl; rewrite H; reflexivity.
Qed.

Lemma search_skip r x : forall t,
  within (fun s => match_anchored r s = None) x t ->
  match_search r (x +:+ t) = match_search r t.
Proof.
  induction x as [|c x IH]; intros t Hw; [reflexivity|].
  destruct Hw as [H Hw]. simpl. simpl in H. rewrite H. apply IH. exact Hw.
Qed.

Lemma anchored_lit_fail l r s :
  String.prefix l s = false -> match_anchored (Seq (Lit l) r) s = None.
Proof. intros H. unfold match_anchored. simpl. rewrite H. reflexivity. Qed.

(** A stretch of text in which the key does not start is passed over. *)
Lemma search_skip_key key r x t :
  within (fun s => String.prefix key s = false) x t ->
  match_search (Seq (Lit key) r) (x +:+ t) = match_search (Seq (Lit key) r) t.
Proof.
  intros Hw. apply search_skip. eapply within_mono; [|exact Hw].
  intros s Hs. apply anchored_lit_fail. exact Hs.
Qed.

(** At the key, the match is the first match of the rest of the pattern. *)
Lemma search_at_key key r t v rest :
  first_is r t [v] rest ->
  exists m, match_search (Seq (Lit key) r) (key +:+ t) = Some m /\ group1 m = v.
Proof.
  intros Hr. exists (MatchResult (consumed (key +:+ t) rest) [v] rest).
  split; [apply search_first|reflexivity].
  replace [v] with ([] ++ [v]) by reflexivity.
  eapply first_seq; [apply first_lit | exact Hr].
Qed.

Lemma is_char_false x c : Chr.is_char x c = false -> x <> c.
Proof. unfold Chr.is_char. intros H ->. rewrite Ascii.eqb_refl in H. discriminate. Qed.

Lemma prefix_cons a k b s :
  String.prefix (String a k) (String b s) = if ascii_dec a b then String.prefix k s else false.
Proof. reflexivity. Qed.

Lemma prefix_nil_r a k : String.prefix (String a k) "" = false.
Proof. reflexivity. Qed.

(** A key, letters and then a colon, does not start inside a value without
    a colon that is followed by a character that is neither. *)
Lemma prefix_key_false t : stops is_key_char t -> forall k u,
  Str.forallb is_letter k = true -> Str.forallb not_colon u = true -> u <> "" ->
  String.prefix (k +:+ ":") (u +:+ t) = false.
Proof.
  intros Hstop. induction k as [|a k IH]; intros u Hk Hu Hne.
  - destruct u as [|b u]; [congruence|]. simpl in Hu. apply andb_true_iff in Hu as [Hb _].
    rewrite app_nil_l, app_cons. change ":" with (String ":"%char ""). rewrite prefix_cons.
    destruct (ascii_dec ":" b) as [<-|]; [discriminate | reflexivity].
  - destruct u as [|b u]; [congruence|].
    simpl in Hk, Hu. apply andb_true_iff in Hk as [Ha Hk]. apply andb_true_iff in Hu as [Hb Hu].
    rewrite !app_cons, prefix_cons. destruct (ascii_dec a b) as [<-|]; [|reflexivity].
    destruct u as [|b' u].
    + rewrite app_nil_l. destruct t as [|d t].
      * destruct k; rewrite ?app_nil_l, ?app_cons; apply prefix_nil_r.
      * simpl in Hstop. unfold is_key_char in Hstop. apply orb_false_iff in Hstop as [Hd1 Hd2].
        destruct k as [|a' k].
        -- rewrite app_nil_l. change ":" with (String ":"%char ""). rewrite prefix_cons.
           destruct (ascii_dec ":" d) as [<-|]; [discriminate | reflexivity].
        -- simpl in Hk. apply andb_true_iff in Hk as [Ha' _]. rewrite app_cons, prefix_cons.
           destruct (ascii_dec a' d) as [<-|]; [congruence | reflexivity].
    + apply IH; [exact Hk | exact Hu | discriminate].
Qed.

Lemma value_no_key k V t :
  Str.forallb is_letter k = true -> Str.forallb not_colon V = true -> stops is_key_char t ->
  within (fun s => String.prefix (k +:+ ":") s = false) V t.
Proof.
  intros Hk HV Hstop. induction V as [|c V IH]; simpl; [auto|].
  split.
  - apply (prefix_key_false t Hstop k (String c V) Hk HV). discriminate.
  - apply IH. simpl in HV. apply andb_true_iff in HV as [_ HV]. exact HV.
Qed.

(** *** The two shapes of a field *)

Lemma starts_tight_inv t : starts_tight t = true -> t <> "" /\ stops Chr.is_space t.
Proof.
  destruct t as [|c t]; simpl; [discriminate|]. intros H. apply negb_true_iff in H.
  split; [discriminate | exact H].
Qed.

(** [\s*(p+)] on [ V] followed by a character outside [p]. *)
Lemma first_scalar p V t :
  scalar_ok p V = true -> stops p t ->
  first_is (Seq (Rep Chr.is_space 0 false) (Group (Rep p 1 false))) (" " +:+ V +:+ t) [V] t.
Proof.
  intros HV Hstop. apply andb_true_iff in HV as [Ht Hp].
  apply starts_tight_inv in Ht as [Hne Hsp].
  replace [V] with ([] ++ [V]) by reflexivity.
  eapply first_seq.
  - apply (first_rep_greedy Chr.is_space 0 " " (V +:+ t)); [reflexivity| |simpl; lia].
    destruct V as [|c V]; [congruence|]. exact Hsp.
  - rewrite <- (consumed_app V t) at 2. apply first_group.
    apply first_rep_greedy; [exact Hp | exact Hstop|].
    destruct V; [congruence | simpl; lia].
Qed.

Lemma first_scalar_end p V :
  scalar_ok p V = true ->
  first_is (Seq (Rep Chr.is_space 0 false) (Group (Rep p 1 false))) (" " +:+ V) [V] "".
Proof.
  intros HV. rewrite <- (StrFacts.app_nil_r V) at 1. apply first_scalar; [exact HV | exact I].
Qed.

(** [\s*\[(.*?)\]] on [ [V]]. *)
Lemma first_list V t :
  Str.forallb value_char V = true ->
  first_is (Seq (Rep Chr.is_space 0 false)
                (Seq (Class (Chr.is_char "["))
                     (Seq (Group (Rep Chr.is_line_char 0 true)) (Class (Chr.is_char "]")))))
           (" [" +:+ V +:+ "]" +:+ t) [V] t.
Proof.
  intros HV.
  replace [V] with ([] ++ [] ++ V :: []) by reflexivity.
  eapply first_seq.
  - apply (first_rep_greedy Chr.is_space 0 " " ("[" +:+ V +:+ "]" +:+ t));
      [reflexivity | reflexivity | simpl; lia].
  - simpl String.append. eapply first_seq; [apply first_class; reflexivity|].
    apply first_lazy_group; [|apply (within_chars _ value_char); [|exact HV]
                             |apply first_class; reflexivity].
    + revert HV. apply forallb_impl. exact value_char_line.
    + intros c u Hc. apply exec_class_fail. apply value_char_not_bracket. exact Hc.
Qed.

(** *** The delimiters *)

Lemma line_end_cons c s :
  exec line_end (String c s)
  = if Chr.is_char NL c then [([], s)]
    else if Chr.is_char CR c then exec (Class (Chr.is_char NL)) s
    else [].
Proof.
  unfold line_end. simpl.
  destruct (Chr.is_char CR c) eqn:Hcr; simpl.
  - assert (Chr.is_char NL c = false) as ->
      by (apply is_char_eq in Hcr; subst c; reflexivity).
    rewrite List.app_nil_r. destruct s as [|d s]; simpl; [reflexivity|].
    destruct (Chr.is_char NL d); reflexivity.
  - destruct (Chr.is_char NL c); reflexivity.
Qed.

Lemma not_nl_of_tight c s :
  leading_blank_line (String c s) = false -> Chr.is_char NL c = false.
Proof. simpl. destruct (Chr.is_char NL c); [discriminate | reflexivity]. Qed.

(** Wherever the white space after the closing delimiter is cut, no end of
    line follows in a text that does not start with a blank line: the end of
    line that the pattern takes is the one of the delimiter. *)
Lemma blank_then_line_end s :
  leading_blank_line s = false ->
  Forall (fun m : list string * string => exec line_end (snd m) = [])
         (List.map (fun rest => (([] : list string), rest)) (rep_greedy Chr.is_space 0 s)).
Proof.
  induction s as [|c s IH]; intros Ht.
  - simpl. constructor; [reflexivity | constructor].
  - pose proof (not_nl_of_tight c s Ht) as Hnl.
    assert (exec line_end (String c s) = []) as Hhere.
    { rewrite line_end_cons, Hnl. destruct (Chr.is_char CR c) eqn:Hcr; [|reflexivity].
      simpl in Ht. rewrite Hnl in Ht.
      assert (Chr.is_space c = true) as Hsp by (apply is_char_eq in Hcr; subst c; reflexivity).
      rewrite Hsp in Ht. destruct s as [|d s]; [reflexivity|].
      apply exec_class_fail. exact (not_nl_of_tight d s Ht). }
    simpl in Ht. rewrite Hnl in Ht. simpl rep_greedy.
    destruct (Chr.is_space c) eqn:Hsp.
    + rewrite List.map_app. apply Forall_app. split; [apply IH; exact Ht|].
      constructor; [exact Hhere | constructor].
    + constructor; [exact Hhere | constructor].
Qed.

Lemma first_closing text :
  leading_blank_line text = false ->
  first_is closing (Str.LF +:+ "---" +:+ Str.LF +:+ text) [] text.
Proof.
  intros Ht. unfold closing.
  replace (@nil string) with (@nil string ++ [] ++ [] ++ [] ++ []) by reflexivity.
  eapply first_seq; [apply first_opt_skip; reflexivity|].
  eapply first_seq; [apply first_class; reflexivity|].
  eapply first_seq; [apply first_lit|].
  eapply (first_seq_after _ _ _
            (List.map (fun rest => ([], rest)) (rep_greedy Chr.is_space 0 text))
            [] (Str.LF +:+ text) []).
  - simpl exec. change (Chr.is_space (ascii_of_N 10)) with true. cbv iota.
    rewrite List.map_app. reflexivity.
  - apply blank_then_line_end. exact Ht.
  - exists []. change (Str.LF +:+ text) with (String NL text). rewrite line_end_cons.
    reflexivity.
Qed.

(** The closing delimiter does not start at a character that stays on the
    line. *)
Lemma closing_fail c s : Chr.is_line_char c = true -> exec closing (String c s) = [].
Proof.
  intros H. apply line_char_not_end in H as [H1 H2].
  unfold closing. simpl. rewrite H2. simpl. rewrite H1. reflexivity.
Qed.

(** *** The fields of a header *)

Lemma scalar_ok_value p v :
  (forall c, p c = true -> value_char c = true) ->
  scalar_ok p v = true -> Str.forallb value_char v = true.
Proof.
  intros Hp H. apply andb_true_iff in H as [_ H]. exact (forallb_impl p value_char v Hp H).
Qed.

Lemma fields_ok_values f :
  fields_ok f = true ->
  Str.forallb value_char (tags_text f) = true
  /\ Str.forallb value_char (summary_text f) = true
  /\ Str.forallb value_char (relevantTo_text f) = true
  /\ Str.forallb value_char (importance_text f) = true
  /\ Str.forallb value_char (relatedFiles_text f) = true
  /\ Str.forallb value_char (loaded_text f) = true
  /\ Str.forallb value_char (referenced_text f) = true
  /\ Str.forallb value_char (successfulFeatures_text f) = true.
Proof.
  unfold fields_ok. rewrite !andb_true_iff.
  intros [[[[[[[H1 H2] H3] H4] H5] H6] H7] H8].
  repeat split; try assumption.
  - exact (scalar_ok_value _ _ (fun c H => H) H2).
  - exact (scalar_ok_value _ _ digit_or_dot_value_char H4).
  - exact (scalar_ok_value _ _ digit_value_char H6).
  - exact (scalar_ok_value _ _ digit_value_char H7).
  - exact (scalar_ok_value _ _ digit_value_char H8).
Qed.

Lemma fields_ok_scalars f :
  fields_ok f = true ->
  scalar_ok Chr.is_line_char (summary_text f) = true
  /\ scalar_ok Chr.is_digit_or_dot (importance_text f) = true
  /\ scalar_ok Chr.is_digit (loaded_text f) = true
  /\ scalar_ok Chr.is_digit (referenced_text f) = true
  /\ scalar_ok Chr.is_digit (successfulFeatures_text f) = true.
Proof.
  unfold fields_ok. rewrite !andb_true_iff.
  intros [[[[[[[H1 H2] H3] H4] H5] H6] H7] H8].
  repeat split; try assumption.
  unfold scalar_ok in *. apply andb_true_iff in H2 as [Ha Hb]. rewrite Ha. simpl.
  exact (forallb_impl _ _ _ value_char_line Hb).
Qed.

(** A literal stretch of the header is gone through by evaluation. *)
Ltac in_literal :=
  match goal with
  | |- within ?P ?x ?t =>
      let x' := eval vm_compute in x in
      change (within P x' t); simpl within; repeat split; reflexivity
  end.

(** The key [k] does not start in the value of a field. *)
Ltac no_key_value k :=
  apply (value_no_key k);
  [reflexivity
  | eapply forallb_impl; [exact value_char_not_colon | assumption]
  | reflexivity].

(** The search for the key [k] passes over the stretches before it. *)
Ltac skip_stretch k :=
  rewrite search_skip_key by first [in_literal | no_key_value k].

(** The closing delimiter does not start in the value of a field. *)
Ltac in_value :=
  apply (within_chars _ Chr.is_line_char);
  [exact closing_fail | eapply forallb_impl; [exact value_char_line | assumption]].

Ltac open_fields f Hf :=
  let Ht := fresh "Vt" in let Hs := fresh "Vs" in let Hr := fresh "Vr" in
  let Hi := fresh "Vi" in let Hfl := fresh "Vf" in let Hl := fresh "Vl" in
  let Hre := fresh "Vref" in let Hsu := fresh "Vsucc" in
  let Ss := fresh "Ss" in let Si := fresh "Si" in let Sl := fresh "Sl" in
  let Sr := fresh "Sref" in let Su := fresh "Ssucc" in
  destruct (fields_ok_values f Hf) as (Ht & Hs & Hr & Hi & Hfl & Hl & Hre & Hsu);
  destruct (fields_ok_scalars f Hf) as (Ss & Si & Sl & Sr & Su);
  destruct f as [vt vs vr vi vf vl vref vsucc];
  unfold header;
  cbn [tags_text summary_text relevantTo_text importance_text relatedFiles_text
       loaded_text referenced_text successfulFeatures_text] in *.

Section Fields.
Variable f : fields.
Hypothesis Hf : fields_ok f = true.

Lemma found_tags :
  exists m, match_search (listRegex "tags") (header f) = Some m /\ group1 m = tags_text f.
Proof.
  open_fields f Hf. unfold listRegex.
  eapply search_at_key. apply first_list. assumption.
Qed.

Lemma found_summary :
  exists m, match_search summaryRegex (header f) = Some m /\ group1 m = summary_text f.
Proof.
  open_fields f Hf. unfold summaryRegex. repeat skip_stretch "summary".
  eapply search_at_key. apply first_scalar; [assumption | reflexivity].
Qed.

Lemma found_relevantTo :
  exists m,
    match_search (listRegex "relevantTo") (header f) = Some m /\ group1 m = relevantTo_text f.
Proof.
  open_fields f Hf. unfold listRegex. repeat skip_stretch "relevantTo".
  eapply search_at_key. apply first_list. assumption.
Qed.

Lemma found_importance :
  exists m, match_search importanceRegex (header f) = Some m /\ group1 m = importance_text f.
Proof.
  open_fields f Hf. unfold importanceRegex. repeat skip_stretch "importance".
  eapply search_at_key. apply first_scalar; [assumption | reflexivity].
Qed.

Lemma found_relatedFiles :
  exists m,
    match_search (listRegex "relatedFiles") (header f) = Some m
    /\ group1 m = relatedFiles_text f.
Proof.
  open_fields f Hf. unfold listRegex. repeat skip_stretch "relatedFiles".
  eapply search_at_key. apply first_list. assumption.
Qed.

Lemma found_loaded :
  exists m, match_search (counterRegex "loaded") (header f) = Some m /\ group1 m = loaded_text f.
Proof.
  open_fields f Hf. unfold counterRegex. repeat skip_stretch "loaded".
  eapply search_at_key. apply first_scalar; [assumption | reflexivity].
Qed.

Lemma found_referenced :
  exists m,
    match_search (counterRegex "referenced") (header f) = Some m
    /\ group1 m = referenced_text f.
Proof.
  open_fields f Hf. unfold counterRegex. repeat skip_stretch "referenced".
  eapply search_at_key. apply first_scalar; [assumption | reflexivity].
Qed.

Lemma found_successfulFeatures :
  exists m,
    match_search (counterRegex "successfulFeatures") (header f) = Some m
    /\ group1 m = successfulFeatures_text f.
Proof.
  open_fields f Hf. unfold counterRegex. repeat skip_stretch "successfulFeatures".
  eapply search_at_key. apply first_scalar_end. assumption.
Qed.

End Fields.

(** *** The block *)

Lemma header_no_closing f t :
  fields_ok f = true -> within (fun s => exec closing s = []) (header f) t.
Proof.
  intros Hf. open_fields f Hf.
  repeat (apply within_app; [first [in_literal | in_value]|]). in_value.
Qed.

Lemma frontmatter_found f text :
  fields_ok f = true -> leading_blank_line text = false ->
  match_anchored frontmatterRegex
    ("---" +:+ Str.LF +:+ header f +:+ Str.LF +:+ "---" +:+ Str.LF +:+ text)
  = Some (MatchResult ("---" +:+ Str.LF +:+ header f +:+ Str.LF +:+ "---" +:+ Str.LF)
                      [header f] text).
Proof.
  intros Hf Ht.
  rewrite (anchored_first frontmatterRegex _ [header f] text).
  - f_equal. f_equal.
    replace ("---" +:+ Str.LF +:+ header f +:+ Str.LF +:+ "---" +:+ Str.LF +:+ text)
      with (("---" +:+ Str.LF +:+ header f +:+ Str.LF +:+ "---" +:+ Str.LF) +:+ text)
      by (rewrite !StrFacts.app_assoc; reflexivity).
    apply consumed_app.
  - unfold frontmatterRegex.
    replace [header f] with ([] ++ [] ++ [] ++ [] ++ [header f]) by reflexivity.
    eapply first_seq; [apply first_lit|].
    eapply (first_seq_after _ _ _
              [([], header f +:+ Str.LF +:+ "---" +:+ Str.LF +:+ text)]
              [] (Str.LF +:+ header f +:+ Str.LF +:+ "---" +:+ Str.LF +:+ text) []).
    + reflexivity.
    + constructor; [|constructor]. cbn [snd].
      destruct f as [vt vs vr vi vf vl vref vsucc]. reflexivity.
    + eapply first_seq; [apply first_opt_skip; reflexivity|].
      eapply first_seq; [apply first_class; reflexivity|].
      apply (first_lazy_group Chr.is_any closing (header f)
               (Str.LF +:+ "---" +:+ Str.LF +:+ text) [] text).
      * apply forallb_any.
      * apply header_no_closing. exact Hf.
      * apply first_closing. exact Ht.
Qed.

(** What [parseFrontmatter] reads from a file that starts with the block of
    a header: every pattern finds the value of its own field. *)
Lemma parse_header f text :
  fields_ok f = true -> leading_blank_line text = false ->
  parseFrontmatter ("---" +:+ Str.LF +:+ header f +:+ Str.LF +:+ "---" +:+ Str.LF +:+ text)
  = {| metadata := read_fields f; body := text |}.
Proof.
  intros Hf Ht. unfold parseFrontmatter. rewrite (frontmatter_found f text Hf Ht).
  cbn [group1 groups whole List.nth].
  destruct (found_tags f Hf) as (m1 & E1 & G1).
  destruct (found_summary f Hf) as (m2 & E2 & G2).
  destruct (found_relevantTo f Hf) as (m3 & E3 & G3).
  destruct (found_importance f Hf) as (m4 & E4 & G4).
  destruct (found_relatedFiles f Hf) as (m5 & E5 & G5).
  destruct (found_loaded f Hf) as (m6 & E6 & G6).
  destruct (found_referenced f Hf) as (m7 & E7 & G7).
  destruct (found_successfulFeatures f Hf) as (m8 & E8 & G8).
  rewrite E1, E2, E3, E4, E5, E6, E7, E8. unfold on_match. cbv beta iota zeta.
  rewrite G1, G2, G3, G4, G5, G6, G7, G8.
  f_equal.
  replace ("---" +:+ Str.LF +:+ header f +:+ Str.LF +:+ "---" +:+ Str.LF +:+ text)
    with (("---" +:+ Str.LF +:+ header f +:+ Str.LF +:+ "---" +:+ Str.LF) +:+ text)
    by (rewrite !StrFacts.app_assoc; reflexivity).
  apply drop_app.
Qed.

(** [serializeFrontmatter] writes the block of the header of its texts. *)
Lemma serialize_header m text :
  file_of m text
  = "---" +:+ Str.LF +:+ header (fields_of m) +:+ Str.LF +:+ "---" +:+ Str.LF +:+ text.
Proof.
  unfold file_of, serializeFrontmatter, header, fields_of.
  cbn [tags_text summary_text relevantTo_text importance_text relatedFiles_text
       loaded_text referenced_text successfulFeatures_text].
  rewrite !StrFacts.app_assoc. reflexivity.
Qed.

(** Whatever the metadata, if its texts are well formed the file is read
    back as the values of these texts. *)
Lemma parse_serialized m text :
  fields_ok (fields_of m) = true -> leading_blank_line text = false ->
  parseFrontmatter (file_of m text) = {| metadata := read_fields (fields_of m); body := text |}.
Proof. intros Hf Ht. rewrite serialize_header. apply parse_header; assumption. Qed.

(** *** Counters *)

Lemma digits_value_uint d : forall acc,
  Str.digits_value acc (NilEmpty.string_of_uint d)
  = match acc with
    | N0 => Pos.of_uint d
    | Npos a => Npos (Pos.of_uint_acc d a)
    end.
Proof.
  induction d; intros acc; simpl;
    try (rewrite IHd; destruct acc; simpl; try reflexivity; do 2 f_equal; lia).
  destruct acc; reflexivity.
Qed.
Lemma parseInt_of_N n : Str.parseInt (Str.of_N n) = n.
Proof.
  unfold Str.parseInt, Str.of_N.
  pose proof (DecimalN.Unsigned.of_to n) as Hn.
  destruct (N.to_uint n) eqn:E;
    try (unfold NilZero.string_of_uint; rewrite digits_value_uint; exact Hn).
  simpl in Hn. subst n. reflexivity.
Qed.

Lemma uint_digits d : Str.forallb Chr.is_digit (NilEmpty.string_of_uint d) = true.
Proof. induction d; simpl; auto. Qed.

Lemma of_N_digits n : Str.forallb Chr.is_digit (Str.of_N n) = true.
Proof.
  unfold Str.of_N, NilZero.string_of_uint.
  destruct (N.to_uint n) eqn:E; try (rewrite <- E; apply uint_digits); try reflexivity.
  all: apply (uint_digits (_ _)).
Qed.

Lemma of_N_nonempty n : Str.of_N n <> "".
Proof.
  unfold Str.of_N, NilZero.string_of_uint. destruct (N.to_uint n); simpl; discriminate.
Qed.


Lemma of_N_scalar n : scalar_ok Chr.is_digit (Str.of_N n) = true.
Proof.
  unfold scalar_ok. rewrite (of_N_digits n), andb_true_r.
  pose proof (of_N_digits n) as Hd. pose proof (of_N_nonempty n) as Hne.
  destruct (Str.of_N n) as [|c t]; [congruence|].
  simpl in Hd. apply andb_true_iff in Hd as [Hc _]. simpl. revert Hc. by_cases_on_char c.
Qed.

(** *** Words and lists *)

Lemma trimEnd_no_space s :
  Str.forallb (fun c => negb (Chr.is_space c)) s = true -> Str.trimEnd s = s.
Proof.
  induction s as [|c s IH]; simpl; [auto|]. intros H. apply andb_true_iff in H as [Hc Hs].
  rewrite (IH Hs). apply negb_true_iff in Hc. rewrite Hc. destruct s; reflexivity.
Qed.

Lemma trim_word w : Str.forallb word_char w = true -> Str.trim w = w.
Proof.
  intros H. unfold Str.trim.
  assert (Str.forallb (fun c => negb (Chr.is_space c)) w = true) as Hn.
  { eapply forallb_impl; [|exact H]. intros c Hc. rewrite (word_char_not_space c Hc). reflexivity. }
  assert (Str.trimStart w = w) as ->.
  { destruct w as [|c w]; [reflexivity|]. simpl in Hn. apply andb_true_iff in Hn as [Hc _].
    apply negb_true_iff in Hc. simpl. rewrite Hc. reflexivity. }
  apply trimEnd_no_space. exact Hn.
Qed.

Lemma trim_space_word w : Str.forallb word_char w = true -> Str.trim (" " +:+ w) = w.
Proof. intros H. unfold Str.trim. simpl Str.trimStart. apply (trim_word w H). Qed.

Lemma word_no_quote w :
  Str.forallb word_char w = true -> Str.filter (fun c => negb (Chr.is_quote c)) w = w.
Proof.
  intros H. apply filter_all. eapply forallb_impl; [|exact H].
  intros c Hc. rewrite (summary_char_not_quote c (word_char_summary c Hc)). reflexivity.
Qed.

(** A text without special characters and without white space around it is
    written as it is. *)
Lemma escape_plain s :
  Str.forallb summary_char s = true -> Str.trim s = s -> escapeYamlString s = s.
Proof.
  intros Hc Ht. unfold escapeYamlString.
  rewrite (existsb_false summary_char is_yaml_special s summary_char_plain Hc).
  rewrite Ht, String.eqb_refl. reflexivity.
Qed.

Lemma plain_word_inv w : plain_word w = true -> w <> "" /\ Str.forallb word_char w = true.
Proof.
  unfold plain_word. intros H. apply andb_true_iff in H as [Hne Hc]. split; [|exact Hc].
  intros ->. discriminate.
Qed.

Lemma escape_word w : plain_word w = true -> escapeYamlString w = w.
Proof.
  intros H. apply plain_word_inv in H as [_ Hc].
  apply escape_plain; [|apply trim_word; exact Hc].
  eapply forallb_impl; [apply word_char_summary | exact Hc].
Qed.

Lemma escape_words ws :
  List.forallb plain_word ws = true -> List.map escapeYamlString ws = ws.
Proof.
  induction ws as [|w ws IH]; simpl; [auto|]. intros H. apply andb_true_iff in H as [Hw Hws].
  rewrite (escape_word w Hw), (IH Hws). reflexivity.
Qed.

Lemma split_no_comma w :
  Str.forallb word_char w = true -> Str.split (Chr.is_char ",") w = [w].
Proof.
  induction w as [|c w IH]; simpl; [auto|]. intros H. apply andb_true_iff in H as [Hc Hw].
  rewrite (word_char_not_comma c Hc), (IH Hw). reflexivity.
Qed.

Lemma split_word_comma w rest :
  Str.forallb word_char w = true ->
  Str.split (Chr.is_char ",") (w +:+ "," +:+ rest) = w :: Str.split (Chr.is_char ",") rest.
Proof.
  induction w as [|c w IH]; intros H; [reflexivity|].
  simpl in H. apply andb_true_iff in H as [Hc Hw].
  rewrite app_cons. cbn [Str.split].
  rewrite (word_char_not_comma c Hc), (IH Hw). reflexivity.
Qed.

Lemma split_space_word_comma w rest :
  Str.forallb word_char w = true ->
  Str.split (Chr.is_char ",") (" " +:+ w +:+ "," +:+ rest)
  = (" " +:+ w) :: Str.split (Chr.is_char ",") rest.
Proof.
  intros H. change (" " +:+ w +:+ "," +:+ rest) with (String " " (w +:+ "," +:+ rest)).
  cbn [Str.split]. change (Chr.is_char "," " ") with false. cbv iota.
  rewrite (split_word_comma w rest H). reflexivity.
Qed.

Lemma split_joined_tail ws : forall w,
  List.forallb plain_word (w :: ws) = true ->
  Str.split (Chr.is_char ",") (" " +:+ Str.join ", " (w :: ws))
  = List.map (fun x => " " +:+ x) (w :: ws).
Proof.
  induction ws as [|w' ws IH]; intros w H.
  - simpl in H. rewrite andb_true_r in H. apply plain_word_inv in H as [_ Hc].
    change (" " +:+ Str.join ", " [w]) with (String " " w). cbn [Str.split List.map].
    change (Chr.is_char "," " ") with false. cbv iota.
    rewrite (split_no_comma w Hc). reflexivity.
  - simpl in H. apply andb_true_iff in H as [Hw Hws]. apply plain_word_inv in Hw as [_ Hc].
    change (Str.join ", " (w :: w' :: ws)) with (w +:+ ", " +:+ Str.join ", " (w' :: ws)).
    change (" " +:+ w +:+ ", " +:+ Str.join ", " (w' :: ws))
      with (" " +:+ w +:+ "," +:+ (" " +:+ Str.join ", " (w' :: ws))).
    rewrite (split_space_word_comma w _ Hc), (IH w' Hws). reflexivity.
Qed.

(** The pieces between the commas of a joined list: the first word, and
    every other word after a space. *)
Lemma split_joined ws w :
  List.forallb plain_word (w :: ws) = true ->
  Str.split (Chr.is_char ",") (Str.join ", " (w :: ws))
  = w :: List.map (fun x => " " +:+ x) ws.
Proof.
  intros H. destruct ws as [|w' ws].
  - simpl in H. rewrite andb_true_r in H. apply plain_word_inv in H as [_ Hc].
    simpl. apply split_no_comma. exact Hc.
  - simpl in H. apply andb_true_iff in H as [Hw Hws]. apply plain_word_inv in Hw as [_ Hc].
    change (Str.join ", " (w :: w' :: ws))
      with (w +:+ "," +:+ (" " +:+ Str.join ", " (w' :: ws))).
    rewrite (split_word_comma w _ Hc), (split_joined_tail ws w' Hws). reflexivity.
Qed.

Lemma item_word w : plain_word w = true -> item w = w /\ item (" " +:+ w) = w.
Proof.
  intros H. apply plain_word_inv in H as [_ Hc]. unfold item.
  rewrite (trim_word w Hc), (trim_space_word w Hc), (word_no_quote w Hc). auto.
Qed.

Lemma items_words ws :
  List.forallb plain_word ws = true ->
  List.filter (fun t => Nat.ltb 0 (String.length t))
              (List.map item (List.map (fun x => " " +:+ x) ws))
  = ws.
Proof.
  induction ws as [|w ws IH]; [reflexivity|]. intros H.
  cbn [List.forallb] in H. apply andb_true_iff in H as [Hw Hws].
  cbn [List.map]. destruct (item_word w Hw) as [_ ->]. cbn [List.filter]. rewrite (IH Hws).
  apply plain_word_inv in Hw as [Hne _]. destruct w; [congruence | reflexivity].
Qed.

(** A list of plain words is read back from its text. *)
Lemma parseList_joined ws :
  List.forallb plain_word ws = true -> parseList (Str.join ", " ws) = ws.
Proof.
  intros H. unfold parseList. fold item.
  destruct ws as [|w ws]; [reflexivity|].
  rewrite (split_joined ws w H). cbn [List.forallb] in H. apply andb_true_iff in H as [Hw Hws].
  cbn [List.map]. destruct (item_word w Hw) as [-> _]. cbn [List.filter].
  rewrite (items_words ws Hws).
  apply plain_word_inv in Hw as [Hne _]. destruct w; [congruence | reflexivity].
Qed.

Lemma joined_value ws :
  List.forallb plain_word ws = true -> Str.forallb value_char (Str.join ", " ws) = true.
Proof.
  intros H.
  apply (forallb_impl (fun c => (summary_char c || Chr.is_char "," c)%bool));
    [apply summary_char_comma_value|].
  induction ws as [|w ws IH]; [reflexivity|].
  simpl in H. apply andb_true_iff in H as [Hw Hws]. apply plain_word_inv in Hw as [_ Hc].
  assert (Str.forallb (fun c => (summary_char c || Chr.is_char "," c)%bool) w = true) as Hw'.
  { eapply forallb_impl; [|exact Hc]. intros c Hcc. rewrite (word_char_summary c Hcc). reflexivity. }
  destruct ws as [|w' ws]; [exact Hw'|].
  change (Str.join ", " (w :: w' :: ws)) with (w +:+ ", " +:+ Str.join ", " (w' :: ws)).
  rewrite !forallb_app, Hw', (IH Hws). reflexivity.
Qed.

(** *** Summaries *)

Lemma strip_last_quote_plain s :
  Str.forallb summary_char s = true -> Str.strip_last_quote s = s.
Proof.
  intros H. unfold Str.strip_last_quote.
  assert (Str.forallb summary_char (String.rev s) = true) as Hr.
  { unfold String.rev. rewrite forallb_rev_app, H. reflexivity. }
  destruct (String.rev s) as [|c r]; [reflexivity|].
  simpl in Hr. apply andb_true_iff in Hr as [Hc _].
  rewrite (summary_char_not_quote c Hc). reflexivity.
Qed.

Lemma strip_outer_quotes_plain s :
  Str.forallb summary_char s = true -> Str.strip_outer_quotes s = s.
Proof.
  intros H. destruct s as [|c s]; [reflexivity|].
  unfold Str.strip_outer_quotes. pose proof H as H'. simpl in H'.
  apply andb_true_iff in H' as [Hc _]. rewrite (summary_char_not_quote c Hc).
  apply strip_last_quote_plain. exact H.
Qed.

Lemma plain_summary_inv s :
  plain_summary s = true ->
  s <> "" /\ Str.forallb summary_char s = true /\ Str.trim s = s.
Proof.
  unfold plain_summary. intros H. apply andb_true_iff in H as [H Ht].
  apply andb_true_iff in H as [Hne Hc]. apply String.eqb_eq in Ht.
  repeat split; [|exact Hc|exact Ht]. intros ->. discriminate.
Qed.

Lemma trimEnd_length t : String.length (Str.trimEnd t) <= String.length t.
Proof.
  induction t as [|a t IH]; simpl; [lia|].
  destruct (Str.trimEnd t); [destruct (Chr.is_space a); simpl; lia | simpl in *; lia].
Qed.

Lemma trimStart_length t : String.length (Str.trimStart t) <= String.length t.
Proof. induction t as [|a t IH]; simpl; [lia|]. destruct (Chr.is_space a); simpl; lia. Qed.

(** A text that trimming leaves as it is does not start with white space. *)
Lemma trimmed_starts_tight s : s <> "" -> Str.trim s = s -> starts_tight s = true.
Proof.
  destruct s as [|c s]; [congruence|]. intros _ H. simpl.
  destruct (Chr.is_space c) eqn:E; [|reflexivity]. exfalso.
  unfold Str.trim in H. simpl in H. rewrite E in H.
  pose proof (trimEnd_length (Str.trimStart s)) as H1. pose proof (trimStart_length s) as H2.
  rewrite H in H1. simpl in H1. lia.
Qed.

(** *** Importance *)

Lemma number_eqb_eq x y : number_eqb x y = true -> x = y.
Proof.
  destruct x as [|[a b]], y as [|[c d]]; simpl; try discriminate; [reflexivity|].
  intros H. apply andb_true_iff in H as [H1 H2].
  apply Z.eqb_eq in H1. apply Pos.eqb_eq in H2. subst. reflexivity.
Qed.

(** Each of the 101 values is printed and read back, by evaluation. *)
Lemma hundredths_return : List.forallb importance_returns hundredths = true.
Proof. vm_compute. reflexivity. Qed.

Lemma plain_importance_returns x : plain_importance x = true -> importance_returns x = true.
Proof.
  unfold plain_importance. intros H. apply List.existsb_exists in H as (y & Hy & E).
  apply number_eqb_eq in E. subst y.
  exact (proj1 (List.forallb_forall _ _) hundredths_return x Hy).
Qed.

(** *** Plain metadata *)

Lemma plain_metadata_inv m :
  plain_metadata m = true ->
  List.forallb plain_word (tags m) = true
  /\ plain_summary (summary m) = true
  /\ List.forallb plain_word (relevantTo m) = true
  /\ importance_returns (importance m) = true
  /\ List.forallb plain_word (relatedFiles m) = true.
Proof.
  unfold plain_metadata. rewrite !andb_true_iff. intros [[[[H1 H2] H3] H4] H5].
  repeat split; try assumption. apply plain_importance_returns. exact H4.
Qed.

(** The texts of a plain metadata are its values, unquoted... *)
Lemma plain_fields m :
  plain_metadata m = true ->
  fields_of m
  = {| tags_text := Str.join ", " (tags m);
       summary_text := summary m;
       relevantTo_text := Str.join ", " (relevantTo m);
       importance_text := Num.toString (importance m);
       relatedFiles_text := Str.join ", " (relatedFiles m);
       loaded_text := Str.of_N (loaded (usageStats m));
       referenced_text := Str.of_N (referenced (usageStats m));
       successfulFeatures_text := Str.of_N (successfulFeatures (usageStats m)) |}.
Proof.
  intros Hm. apply plain_metadata_inv in Hm as (Ht & Hs & Hr & _ & Hf).
  apply plain_summary_inv in Hs as (_ & Hc & Htrim).
  unfold fields_of.
  rewrite (escape_words _ Ht), (escape_words _ Hr), (escape_words _ Hf), (escape_plain _ Hc Htrim).
  reflexivity.
Qed.

(** ... they are well formed... *)
Lemma plain_fields_ok m : plain_metadata m = true -> fields_ok (fields_of m) = true.
Proof.
  intros Hm. rewrite (plain_fields m Hm).
  apply plain_metadata_inv in Hm as (Ht & Hs & Hr & Hi & Hf).
  apply plain_summary_inv in Hs as (Hne & Hc & Htrim).
  unfold importance_returns in Hi. apply andb_true_iff in Hi as [_ Hi].
  unfold fields_ok.
  cbn [tags_text summary_text relevantTo_text importance_text relatedFiles_text
       loaded_text referenced_text successfulFeatures_text].
  rewrite (joined_value _ Ht), (joined_value _ Hr), (joined_value _ Hf), Hi, !of_N_scalar.
  unfold scalar_ok.
  rewrite (trimmed_starts_tight _ Hne Htrim), (forallb_impl _ _ _ summary_char_value Hc).
  reflexivity.
Qed.

(** ... and they are read back as the metadata. *)
Lemma plain_fields_read m : plain_metadata m = true -> read_fields (fields_of m) = m.
Proof.
  intros Hm. rewrite (plain_fields m Hm).
  apply plain_metadata_inv in Hm as (Ht & Hs & Hr & Hi & Hf).
  apply plain_summary_inv in Hs as (Hne & Hc & Htrim).
  unfold importance_returns in Hi. apply andb_true_iff in Hi as [Hi _].
  apply number_eqb_eq in Hi.
  unfold read_fields.
  cbn [tags_text summary_text relevantTo_text importance_text relatedFiles_text
       loaded_text referenced_text successfulFeatures_text].
  rewrite (parseList_joined _ Ht), (parseList_joined _ Hr), (parseList_joined _ Hf).
  rewrite Htrim, (strip_outer_quotes_plain _ Hc), Hi, !parseInt_of_N.
  destruct m as [tg sm rt im rf [l r s]]. reflexivity.
Qed.

(** *** The round trip *)

Lemma safe_stats_iff s :
  safe_stats s = true
  <-> (loaded s < 2 ^ 53 /\ referenced s < 2 ^ 53 /\ successfulFeatures s < 2 ^ 53)%N.
Proof.
  unfold safe_stats, safe_counter. rewrite !andb_true_iff, !N.ltb_lt. tauto.
Qed.

Lemma parse_plain_file m text :
  plain_metadata m = true -> leading_blank_line text = false ->
  parseFrontmatter (file_of m text) = {| metadata := m; body := text |}.
Proof.
  intros Hm Ht.
  rewrite (parse_serialized m text (plain_fields_ok m Hm) Ht), (plain_fields_read m Hm).
  reflexivity.
Qed.

(** X1. The codec returns a plain metadata whose counters are below 2^53
    and a body that does not start with a blank line: [parseFrontmatter]
    undoes [serializeFrontmatter]. *)
Theorem roundtrip_plain m text :
  plain_metadata m = true -> safe_stats (usageStats m) = true ->
  leading_blank_line text = false ->
  parseFrontmatter (serializeFrontmatter m +:+ Str.LF +:+ text)
  = {| metadata := m; body := text |}.
Proof. intros Hm _ Ht. exact (parse_plain_file m text Hm Ht). Qed.

Lemma roundtrip_plain_witness :
  parseFrontmatter (serializeFrontmatter Samples.auth_metadata +:+ Str.LF +:+ "# Auth")
  = {| metadata := Samples.auth_metadata; body := "# Auth" |}.
Proof. apply roundtrip_plain; reflexivity. Defined.

(** *** Counting on a file that the serializer wrote *)

Lemma plain_bump stat m : plain_metadata (bump stat m) = plain_metadata m.
Proof. reflexivity. Qed.

Lemma bumped_plain stat m text :
  plain_metadata m = true -> leading_blank_line text = false ->
  bumped_content stat (file_of m text) = file_of (bump stat m) text.
Proof.
  intros Hm Ht. unfold bumped_content.
  rewrite (parse_plain_file m text Hm Ht). reflexivity.
Qed.

Lemma bump_by_stat n stat m :
  get_stat stat (usageStats (bump_by n stat m)) = (get_stat stat (usageStats m) + N.of_nat n)%N.
Proof.
  induction n as [|n IH]; [simpl; lia|].
  change (bump_by (S n) stat m) with (bump stat (bump_by n stat m)).
  rewrite bump_stat, IH. lia.
Qed.

Lemma plain_bump_by n stat m : plain_metadata (bump_by n stat m) = plain_metadata m.
Proof. induction n as [|n IH]; [reflexivity|]. exact IH. Qed.

Lemma bump_by_S n stat m : bump_by (S n) stat m = bump_by n stat (bump stat m).
Proof. unfold bump_by. rewrite Nat.iter_succ_r. reflexivity. Qed.

(** Calls that follow one another on a file written for a plain metadata:
    after [n] calls the file is the one written for the metadata with [++]
    applied [n] times. *)
Lemma increments_in_sequence n : forall p stat w m text,
  plain_metadata m = true -> leading_blank_line text = false ->
  w !! p = Some (File (file_of m text) true) ->
  increments n p stat w = (Ok tt, <[p := File (file_of (bump_by n stat m) text) true]> w).
Proof.
  induction n as [|n IH]; intros p stat w m text Hm Ht Hw.
  - simpl. unfold ret. rewrite insert_id; [reflexivity | exact Hw].
  - cbn [increments]. unfold bind.
    rewrite (incrementUsageStat_readable p stat w _ Hw), (bumped_plain stat m text Hm Ht).
    rewrite (IH p stat _ (bump stat m) text); [|rewrite plain_bump; exact Hm|exact Ht|].
    + rewrite insert_insert_eq, bump_by_S. reflexivity.
    + apply lookup_insert_eq.
Qed.

(** Outside the plain metadata a call may not show when the file is read
    again: under the summary [loaded: 99] the counter that is read is the 99
    of the summary line, before the call and after it, while the call writes
    100 in the line of the counter. *)
Lemma shadowed_counter_example :
  let before := file_of Samples.shadow_metadata "body" in
  let after := bumped_content Loaded before in
  loaded (usageStats (metadata (parseFrontmatter before))) = 99%N
  /\ loaded (usageStats (metadata (parseFrontmatter after))) = 99%N
  /\ after = file_of (set_usageStats (mkUsageStats 100 0 0) Samples.shadow_metadata) "body".
Proof. repeat split; vm_compute; reflexivity. Qed.

End HeaderFacts.

(** ** The learning recorder *)

Module LearningFacts.
Import Codec Fs Memory Spec Header StrFacts MemoryFacts HeaderFacts.

Lemma kept_word_char c : kept_in_name c = true -> word_char c = true.
Proof. by_cases_on_char c. Qed.

Lemma escape_stem category : escapeYamlString (file_stem category) = file_stem category.
Proof.
  pose proof (forallb_impl _ _ _ kept_word_char (file_stem_chars category)) as Hw.
  apply escape_plain; [|apply trim_word; exact Hw].
  exact (forallb_impl _ _ _ word_char_summary Hw).
Qed.

(** The text of a file just created, line by line. *)
Lemma created_text l entry :
  serializeFrontmatter (seededMetadata l)
  +:+ (Str.LF +:+ "# " +:+ category l +:+ Str.LF) +:+ entry
  = seeded_file (file_stem (category l))
      (escapeYamlString (category l +:+ " implementation decisions and patterns"))
      (category l) entry.
Proof.
  unfold serializeFrontmatter, seededMetadata, seeded_file.
  cbn [tags summary relevantTo importance relatedFiles usageStats
       loaded referenced successfulFeatures List.map Str.join].
  rewrite or_general_stem, escape_stem.
  change (Num.toString (Num.Num (7 # 10))) with "0.7".
  change (Str.of_N 0) with "0".
  rewrite !app_assoc. reflexivity.
Qed.

Lemma learning_path projectPath l :
  learningFilePath projectPath l
  = path_join (getMemoryDir projectPath) (file_stem (category l) +:+ ".md").
Proof. unfold learningFilePath, learningFileName. rewrite or_general_stem. reflexivity. Qed.

(** What [appendLearning] does, case by case.  The learning goes to the
    file of the memory folder named by the category in lower case, with
    every run of white space replaced by one hyphen and every character
    outside [a-z0-9-] removed, or [general] when nothing is left, followed
    by [.md].  If that file exists, its content is kept and followed by a
    line feed and the formatted entry, which itself begins with an empty
    line.  If the path is free and the memory folder exists, the file is
    created with the frontmatter block of the seeded metadata (the
    sanitized name as only tag and only [relevantTo] term, the summary of
    the category, importance 0.7, no related file, counters at 0), a heading
    with the category as given and the formatted entry; a second call for
    the same category then finds the file and appends to it.  If the path
    is free and the memory folder does not exist, the call fails and nothing
    is created.  No other path changes in any case. *)
Lemma appendLearning_cases (projectPath date : string) (l : LearningEntry) (w : fs) :
  let name := file_stem (category l) in
  let dir := getMemoryDir projectPath in
  let p := path_join dir (name +:+ ".md") in
  let created :=
    seeded_file name
      (escapeYamlString (category l +:+ " implementation decisions and patterns"))
      (category l) (formatLearning date l) in
  sanitizeCategory (category l) = sanitized (category l)
  /\ learningFilePath projectPath l = p
  /\ (exists t, formatLearning date l = Str.LF +:+ t)
  /\ (forall c r, w !! p = Some (File c r) ->
        appendLearning projectPath date l w
        = (Ok tt, <[p := File (c +:+ Str.LF +:+ formatLearning date l) r]> w))
  /\ (w !! p = None -> w !! dir = Some Dir ->
        appendLearning projectPath date l w = (Ok tt, <[p := File created true]> w)
        /\ forall date2 l2, category l2 = category l ->
             appendLearning projectPath date2 l2 (<[p := File created true]> w)
             = (Ok tt, <[p := File (created +:+ Str.LF +:+ formatLearning date2 l2) true]> w))
  /\ (w !! p = None -> w !! dir <> Some Dir ->
        appendLearning projectPath date l w = (Throw, w)).
Proof.
  cbv zeta. rewrite <- (learning_path projectPath l), <- created_text.
  split; [apply sanitizeCategory_sanitized|]. split; [reflexivity|].
  split; [apply formatLearning_head|].
  split; [intros c r H; apply appendLearning_existing; exact H|].
  split.
  - intros H Hd. split; [apply appendLearning_missing; assumption|].
    intros date2 l2 Hcat.
    assert (learningFilePath projectPath l2 = learningFilePath projectPath l) as Hp
      by (unfold learningFilePath, learningFileName; rewrite Hcat; reflexivity).
    rewrite (appendLearning_existing projectPath date2 l2 _
               (serializeFrontmatter (seededMetadata l)
                +:+ (Str.LF +:+ "# " +:+ category l +:+ Str.LF) +:+ formatLearning date l) true).
    + rewrite Hp, insert_insert_eq. reflexivity.
    + rewrite Hp. apply lookup_insert_eq.
  - intros H Hd. apply appendLearning_no_folder; assumption.
Qed.

(** C8. In a project whose memory folder does not exist, the file of the
    category does not exist either, and the call does not create it: the
    write of the [catch] branch fails for want of the folder, the call fails
    and the file system is as before.  In a project whose memory folder
    exists the call does what the specification says: the category
    [API  Design (v2)] goes to [api-design-v2.md], the file is created with
    the seeded metadata, the heading and the entry, and a second learning of
    the category is appended to it. *)
Theorem appendLearning_evaluated :
  let p := "/project/.automaker/memory/api-design-v2.md" in
  let first :=
    "---" +:+ Str.LF
    +:+ "tags: [api-design-v2]" +:+ Str.LF
    +:+ "summary: API  Design (v2) implementation decisions and patterns" +:+ Str.LF
    +:+ "relevantTo: [api-design-v2]" +:+ Str.LF
    +:+ "importance: 0.7" +:+ Str.LF
    +:+ "relatedFiles: []" +:+ Str.LF
    +:+ "usageStats:" +:+ Str.LF
    +:+ "  loaded: 0" +:+ Str.LF
    +:+ "  referenced: 0" +:+ Str.LF
    +:+ "  successfulFeatures: 0" +:+ Str.LF
    +:+ "---" +:+ Str.LF
    +:+ "# API  Design (v2)" +:+ Str.LF
    +:+ Str.LF
    +:+ "### Use REST (2026-01-05)" +:+ Str.LF
    +:+ "- **Context:** public endpoints" in
  learningFilePath "/project" Samples.versioned_learning = p
  /\ (∅ : fs) !! p = None
  /\ appendLearning "/project" "2026-01-05" Samples.versioned_learning ∅ = (Throw, ∅)
  /\ appendLearning "/project" "2026-01-05" Samples.versioned_learning Samples.folder_fs
     = (Ok tt, <[p := File first true]> Samples.folder_fs)
  /\ appendLearning "/project" "2026-01-06" Samples.versioned_gotcha
       (<[p := File first true]> Samples.folder_fs)
     = (Ok tt, <[p := File (first +:+ Str.LF +:+ Str.LF
                            +:+ "#### [Gotcha] Trailing slash (2026-01-06)" +:+ Str.LF
                            +:+ "- **Root cause:** router is strict") true]>
                 Samples.folder_fs).
Proof.
  cbv zeta. split; [vm_compute; reflexivity|]. split; [apply lookup_empty|].
  split.
  { apply appendLearning_no_folder; [rewrite lookup_empty; discriminate | apply lookup_empty]. }
  split.
  - rewrite appendLearning_missing by (vm_compute; reflexivity).
    vm_compute. reflexivity.
  - erewrite appendLearning_existing
      by (change (learningFilePath "/project" Samples.versioned_gotcha)
            with "/project/.automaker/memory/api-design-v2.md";
          apply lookup_insert_eq).
    change (learningFilePath "/project" Samples.versioned_gotcha)
      with "/project/.automaker/memory/api-design-v2.md".
    rewrite insert_insert_eq. do 3 f_equal.
Qed.

End LearningFacts.

(** ** Selection of the memory files *)

Module LoaderFacts.
Import Codec Scoring Fs Memory Loader Spec StrFacts MemoryFacts.

Section Selection.
Variable maxMemoryFiles : Z.

Lemma add_while_room_incl test (sel : gset string) f :
  sel ⊆ add_while_room test maxMemoryFiles sel f.
Proof. unfold add_while_room. destruct (_ && _)%bool; set_solver. Qed.

Lemma add_while_room_size test (sel : gset string) f :
  (Z.of_nat (size sel) <= maxMemoryFiles)%Z ->
  (Z.of_nat (size (add_while_room test maxMemoryFiles sel f)) <= maxMemoryFiles)%Z.
Proof.
  intros H. unfold add_while_room.
  destruct (test f); simpl; [|exact H].
  destruct (Z.ltb_spec (Z.of_nat (size sel)) maxMemoryFiles) as [Hlt|_]; [|exact H].
  pose proof (size_union_alt sel {[fileName f]}) as Hu.
  assert (size ({[fileName f]} ∖ sel : gset string) <= 1) as H1.
  { etransitivity; [apply subseteq_size; apply subseteq_difference_l; reflexivity|].
    rewrite size_singleton. reflexivity. }
  lia.
Qed.

Lemma add_while_room_names test (sel : gset string) f (names : gset string) :
  fileName f ∈ names -> sel ⊆ names -> add_while_room test maxMemoryFiles sel f ⊆ names.
Proof. intros Hf Hs. unfold add_while_room. destruct (_ && _)%bool; set_solver. Qed.

Lemma fold_add_incl test l : forall sel : gset string,
  sel ⊆ fold_left (add_while_room test maxMemoryFiles) l sel.
Proof.
  induction l as [|f l IH]; intros sel; simpl; [reflexivity|].
  etransitivity; [apply (add_while_room_incl test sel f) | apply IH].
Qed.

Lemma fold_add_size test l : forall sel : gset string,
  (Z.of_nat (size sel) <= maxMemoryFiles)%Z ->
  (Z.of_nat (size (fold_left (add_while_room test maxMemoryFiles) l sel)) <= maxMemoryFiles)%Z.
Proof.
  induction l as [|f l IH]; intros sel H; simpl; [exact H|].
  apply IH, add_while_room_size, H.
Qed.

Lemma fold_add_names test (names : gset string) l : forall sel : gset string,
  (forall f, In f l -> fileName f ∈ names) -> sel ⊆ names ->
  fold_left (add_while_room test maxMemoryFiles) l sel ⊆ names.
Proof.
  induction l as [|f l IH]; intros sel Hl Hs; simpl; [exact Hs|].
  apply IH; [intros g Hg; apply Hl; right; exact Hg|].
  apply add_while_room_names; [apply Hl; left; reflexivity | exact Hs].
Qed.

(** A loop whose test every file passes fills the set up to the limit. *)
Lemma fold_add_full test l : forall sel : gset string,
  (forall f, In f l -> test f = true) ->
  (Z.of_nat (size sel) <= maxMemoryFiles)%Z ->
  Z.of_nat (size (fold_left (add_while_room test maxMemoryFiles) l sel))
  = Z.min maxMemoryFiles (Z.of_nat (size (sel ∪ list_to_set (List.map fileName l)))).
Proof.
  induction l as [|f l IH]; intros sel Ht Hs; simpl.
  - rewrite (right_id_L ∅ (∪)). lia.
  - assert (forall g, In g l -> test g = true) as Ht' by (intros g Hg; apply Ht; right; exact Hg).
    rewrite IH; [|exact Ht'|apply add_while_room_size; exact Hs].
    unfold add_while_room. rewrite (Ht f) by (left; reflexivity). simpl.
    destruct (Z.ltb_spec (Z.of_nat (size sel)) maxMemoryFiles) as [Hlt|Hge].
    + f_equal. f_equal. f_equal. set_solver.
    + assert (size sel <= size (sel ∪ list_to_set (List.map fileName l))) as H1
        by (apply subseteq_size; set_solver).
      assert (size sel <= size (sel ∪ ({[fileName f]} ∪ list_to_set (List.map fileName l)))) as H2
        by (apply subseteq_size; set_solver).
      lia.
Qed.

End Selection.

(** *** Sorting *)

Lemma insert_by_score_perm x l : Permutation (insert_by_score x l) (x :: l).
Proof.
  induction l as [|y l IH]; simpl; [reflexivity|].
  destruct (comes_after x y); [|reflexivity].
  rewrite IH. apply perm_swap.
Qed.

Lemma sortByScore_perm l : Permutation (sortByScore l) l.
Proof.
  induction l as [|x l IH]; simpl; [reflexivity|].
  rewrite insert_by_score_perm. constructor. exact IH.
Qed.

(** *** The two loops *)

Lemma scoreCandidate_run memoryDir taskTerms w fileName acc :
  scoreCandidate memoryDir taskTerms fileName acc w
  = (Ok (acc ++ option_list (candidate_of memoryDir taskTerms w fileName)), w).
Proof.
  unfold scoreCandidate, candidate_of, try_catch, bind, readFile, ret.
  destruct (w !! path_join memoryDir fileName) as [[c [|]|]|]; simpl;
    rewrite ?List.app_nil_r; try reflexivity.
  destruct (String.eqb (Str.trim (body (parseFrontmatter c))) ""); simpl;
    rewrite ?List.app_nil_r; reflexivity.
Qed.

Lemma scoring_loop memoryDir taskTerms w names : forall acc,
  for_of names (scoreCandidate memoryDir taskTerms) acc w
  = (Ok (acc ++ omap (candidate_of memoryDir taskTerms w) names), w).
Proof.
  induction names as [|n names IH]; intros acc; simpl.
  - unfold ret. rewrite List.app_nil_r. reflexivity.
  - unfold bind. rewrite scoreCandidate_run. rewrite IH.
    destruct (candidate_of memoryDir taskTerms w n); simpl.
    + rewrite <- List.app_assoc. reflexivity.
    + rewrite List.app_nil_r. reflexivity.
Qed.

Lemma incrementUsageStat_returns p stat w :
  exists w', incrementUsageStat p stat w = (Ok tt, w').
Proof.
  destruct (w !! p) as [[c [|]|]|] eqn:E.
  - eexists. apply incrementUsageStat_readable. exact E.
  - exists w. apply incrementUsageStat_unreadable. congruence.
  - exists w. apply incrementUsageStat_unreadable. congruence.
  - exists w. apply incrementUsageStat_unreadable. congruence.
Qed.

Lemma loading_loop (sel : gset string) scored : forall acc w,
  exists w',
    for_of scored (loadSelected sel) acc w
    = (Ok (acc ++ List.map info_of
                    (List.filter (fun f => bool_decide (fileName f ∈ sel)) scored)), w').
Proof.
  induction scored as [|f scored IH]; intros acc w; simpl.
  - exists w. unfold ret. rewrite List.app_nil_r. reflexivity.
  - unfold bind at 1. unfold loadSelected at 1.
    destruct (bool_decide (fileName f ∈ sel)); simpl.
    + unfold bind, try_catch.
      destruct (incrementUsageStat_returns (filePath f) Loaded w) as [w1 ->].
      unfold ret. cbv beta iota.
      destruct (IH (acc ++ [info_of f]) w1) as [w' ->].
      exists w'. rewrite <- List.app_assoc. reflexivity.
    + apply IH.
Qed.

(** *** The selection *)

Lemma find_gotchas l :
  (exists f, In f l /\ fileName f = "gotchas.md") ->
  exists g, List.find (fun f => String.eqb (fileName f) "gotchas.md") l = Some g.
Proof.
  intros (f & Hin & Hf).
  destruct (List.find (fun f => String.eqb (fileName f) "gotchas.md") l) as [g|] eqn:E; [eauto|].
  exfalso. pose proof (find_none _ _ E f Hin) as H. simpl in H.
  rewrite Hf in H. discriminate.
Qed.

Lemma select_nothing l maxMemoryFiles taskTerms :
  (maxMemoryFiles <= 0)%Z -> selectFiles l maxMemoryFiles taskTerms = ∅.
Proof.
  intros H. unfold selectFiles.
  destruct (Z.ltb_spec 0 maxMemoryFiles); [lia | reflexivity].
Qed.

Lemma select_size l maxMemoryFiles taskTerms :
  (0 < maxMemoryFiles)%Z ->
  (Z.of_nat (size (selectFiles l maxMemoryFiles taskTerms)) <= maxMemoryFiles)%Z.
Proof.
  intros H. unfold selectFiles.
  destruct (Z.ltb_spec 0 maxMemoryFiles); [|lia].
  assert (forall sel : gset string,
            (Z.of_nat (size sel) <= maxMemoryFiles)%Z ->
            (Z.of_nat (size (if Nat.ltb 0 (List.length taskTerms)
                             then fold_left
                                    (add_while_room
                                       (fun file => Num.gtb (score file) (Num.Num 0))
                                       maxMemoryFiles) l sel
                             else sel)) <= maxMemoryFiles)%Z) as Hthird.
  { intros sel Hs. destruct (Nat.ltb 0 (List.length taskTerms)); [|exact Hs].
    apply fold_add_size. exact Hs. }
  apply Hthird. apply fold_add_size.
  destruct (List.find _ l).
  - rewrite (left_id_L ∅ (∪)), size_singleton. lia.
  - rewrite size_empty. lia.
Qed.

Lemma select_gotchas l maxMemoryFiles taskTerms :
  (0 < maxMemoryFiles)%Z ->
  (exists f, In f l /\ fileName f = "gotchas.md") ->
  "gotchas.md" ∈ selectFiles l maxMemoryFiles taskTerms.
Proof.
  intros H Hg. unfold selectFiles.
  destruct (Z.ltb_spec 0 maxMemoryFiles); [|lia].
  destruct (find_gotchas l Hg) as [g ->].
  assert ("gotchas.md" ∈ fold_left
            (add_while_room
               (fun file => Num.geb (importance (sf_metadata file)) (Num.Num (9 # 10)))
               maxMemoryFiles) l ((∅ : gset string) ∪ {["gotchas.md"]})) as H1.
  { apply (fold_add_incl maxMemoryFiles). set_solver. }
  destruct (Nat.ltb 0 (List.length taskTerms)); [|exact H1].
  apply (fold_add_incl maxMemoryFiles). exact H1.
Qed.

Lemma names_of_In l f : In f l -> fileName f ∈ names_of l.
Proof.
  intros H. unfold names_of. apply elem_of_list_to_set, list_elem_of_In, in_map, H.
Qed.

Lemma select_names l maxMemoryFiles taskTerms :
  selectFiles l maxMemoryFiles taskTerms ⊆ names_of l.
Proof.
  unfold selectFiles. destruct (Z.ltb 0 maxMemoryFiles); [|set_solver].
  assert ((match List.find (fun f => String.eqb (fileName f) "gotchas.md") l with
           | Some _ => (∅ : gset string) ∪ {["gotchas.md"]}
           | None => ∅
           end) ⊆ names_of l) as H0.
  { destruct (List.find _ l) as [g|] eqn:E; [|set_solver].
    apply find_some in E as [Hin Hg]. apply String.eqb_eq in Hg.
    apply names_of_In in Hin. rewrite Hg in Hin. set_solver. }
  assert (forall test (sel : gset string), sel ⊆ names_of l ->
            fold_left (add_while_room test maxMemoryFiles) l sel ⊆ names_of l) as Hfold.
  { intros test sel Hs. apply fold_add_names; [|exact Hs].
    intros f Hf. apply names_of_In, Hf. }
  destruct (Nat.ltb 0 (List.length taskTerms)); auto.
Qed.

(** When every candidate is of high importance, the selection has as many
    files as the limit allows. *)
Lemma select_full l maxMemoryFiles taskTerms :
  (0 < maxMemoryFiles)%Z ->
  (forall f, In f l -> Num.geb (importance (sf_metadata f)) (Num.Num (9 # 10)) = true) ->
  Z.of_nat (size (selectFiles l maxMemoryFiles taskTerms))
  = Z.min maxMemoryFiles (Z.of_nat (size (names_of l))).
Proof.
  intros Hmax Himp.
  pose proof (select_size l maxMemoryFiles taskTerms Hmax) as Hle.
  pose proof (subseteq_size _ _ (select_names l maxMemoryFiles taskTerms)) as Hle2.
  enough (Z.min maxMemoryFiles (Z.of_nat (size (names_of l)))
          <= Z.of_nat (size (selectFiles l maxMemoryFiles taskTerms)))%Z by lia.
  unfold selectFiles. destruct (Z.ltb_spec 0 maxMemoryFiles); [|lia].
  set (sel0 := match List.find (fun f => String.eqb (fileName f) "gotchas.md") l with
               | Some _ => (∅ : gset string) ∪ {["gotchas.md"]}
               | None => ∅
               end).
  set (sel1 := fold_left
                 (add_while_room
                    (fun file => Num.geb (importance (sf_metadata file)) (Num.Num (9 # 10)))
                    maxMemoryFiles) l sel0).
  assert (Z.of_nat (size sel0) <= maxMemoryFiles)%Z as H0.
  { unfold sel0. destruct (List.find _ l).
    - rewrite (left_id_L ∅ (∪)), size_singleton. lia.
    - rewrite size_empty. lia. }
  assert (Z.min maxMemoryFiles (Z.of_nat (size (names_of l))) <= Z.of_nat (size sel1))%Z as H1.
  { unfold sel1. rewrite (fold_add_full maxMemoryFiles _ l sel0 Himp H0).
    assert (size (names_of l) <= size (sel0 ∪ list_to_set (List.map fileName l))) as Hs
      by (apply subseteq_size; unfold names_of; set_solver).
    lia. }
  destruct (Nat.ltb 0 (List.length taskTerms)); [|exact H1].
  etransitivity; [exact H1|]. apply Nat2Z.inj_le, subseteq_size.
  apply (fold_add_incl maxMemoryFiles).
Qed.

(** The files pushed by the loading loop are as many as the selected names
    when no two candidates share a name. *)
Lemma selected_count (sel : gset string) l :
  NoDup (List.map fileName l) -> sel ⊆ names_of l ->
  List.length (List.filter (fun f => bool_decide (fileName f ∈ sel)) l) = size sel.
Proof.
  intros Hnd Hsub.
  set (picked := List.filter (fun f => bool_decide (fileName f ∈ sel)) l).
  assert (NoDup (List.map fileName picked)) as Hnd'.
  { unfold picked. clear Hsub. induction l as [|f l IH]; simpl; [constructor|].
    apply NoDup_cons in Hnd as [Hf Hnd].
    destruct (bool_decide (fileName f ∈ sel)); simpl; [|apply IH; exact Hnd].
    apply NoDup_cons. split; [|apply IH; exact Hnd].
    intros Hin. apply Hf. apply list_elem_of_In in Hin. apply list_elem_of_In.
    apply in_map_iff in Hin as (g & Hg & Hin). apply filter_In in Hin as [Hin _].
    apply in_map_iff. eauto. }
  rewrite <- (length_map fileName picked), <- (size_list_to_set (C := gset string)) by exact Hnd'.
  f_equal. apply set_eq. intros x. rewrite elem_of_list_to_set, list_elem_of_In, in_map_iff.
  split.
  - intros (f & <- & Hin). apply filter_In in Hin as [_ Hin].
    apply bool_decide_eq_true in Hin. exact Hin.
  - intros Hx. pose proof (Hsub x Hx) as Hn. unfold names_of in Hn.
    apply elem_of_list_to_set, list_elem_of_In, in_map_iff in Hn as (f & <- & Hin).
    exists f. split; [reflexivity|]. apply filter_In. split; [exact Hin|].
    apply bool_decide_eq_true. exact Hx.
Qed.

(** *** The directory listing and the candidates *)

Lemma child_name_Some dir p n : child_name dir p = Some n -> p = path_join dir n.
Proof.
  unfold child_name, path_join.
  destruct (String.prefix (dir +:+ "/") p) eqn:Hpre; [|discriminate].
  apply prefix_inv in Hpre as [t ->].
  replace (String.length dir + 1) with (String.length (dir +:+ "/"))
    by (rewrite length_app; reflexivity).
  rewrite drop_app. destruct (Str.existsb (Chr.is_char "/") t); [discriminate|].
  intros [= ->]. apply StrFacts.app_assoc.
Qed.

Lemma child_name_join dir n :
  Str.existsb (Chr.is_char "/") n = false -> child_name dir (path_join dir n) = Some n.
Proof.
  intros Hn. unfold child_name, path_join. rewrite <- StrFacts.app_assoc.
  rewrite prefix_app.
  replace (String.length dir + 1) with (String.length (dir +:+ "/"))
    by (rewrite length_app; reflexivity).
  rewrite drop_app, Hn. reflexivity.
Qed.

Lemma NoDup_omap_inj {A B : Type} (f : A -> option B) (l : list A) :
  (forall x y b, f x = Some b -> f y = Some b -> x = y) ->
  NoDup l -> NoDup (omap f l).
Proof.
  intros Hinj Hnd. induction l as [|x l IH]; simpl; [constructor|].
  apply NoDup_cons in Hnd as [Hx Hnd].
  destruct (f x) as [b|] eqn:Hb; [|apply IH; exact Hnd].
  apply NoDup_cons. split; [|apply IH; exact Hnd].
  intros Hin. apply list_elem_of_omap in Hin as (y & Hy & Hfy).
  rewrite (Hinj x y b Hb Hfy) in Hx. contradiction.
Qed.

Lemma readdir_NoDup dir w names : readdir dir w = (Ok names, w) -> NoDup names.
Proof.
  unfold readdir. destruct (w !! dir) as [[|]|]; try discriminate.
  intros [= <-]. apply NoDup_omap_inj; [|apply NoDup_fst_map_to_list].
  intros x y b Hx Hy. apply child_name_Some in Hx, Hy. congruence.
Qed.

Lemma readdir_child dir w n node :
  w !! dir = Some Dir -> w !! path_join dir n = Some node ->
  Str.existsb (Chr.is_char "/") n = false ->
  exists names, readdir dir w = (Ok names, w) /\ In n names.
Proof.
  intros Hd Hn Hslash. unfold readdir. rewrite Hd. eexists. split; [reflexivity|].
  apply list_elem_of_In, list_elem_of_omap. exists (path_join dir n).
  split; [|apply child_name_join; exact Hslash].
  apply list_elem_of_fmap. exists (path_join dir n, node). split; [reflexivity|].
  apply elem_of_map_to_list. exact Hn.
Qed.

Lemma candidate_of_name dir terms w n f : candidate_of dir terms w n = Some f -> fileName f = n.
Proof.
  unfold candidate_of. destruct (w !! path_join dir n) as [[c [|]|]|]; try discriminate.
  destruct (String.eqb _ _); [discriminate|]. intros [= <-]. reflexivity.
Qed.

Lemma candidates_names_NoDup dir terms w names :
  NoDup names -> NoDup (List.map fileName (omap (candidate_of dir terms w) names)).
Proof.
  intros Hnd. induction names as [|n names IH]; simpl; [constructor|].
  apply NoDup_cons in Hnd as [Hn Hnd].
  destruct (candidate_of dir terms w n) as [f|] eqn:Hf; [|apply IH; exact Hnd].
  simpl. apply NoDup_cons. split; [|apply IH; exact Hnd].
  rewrite (candidate_of_name _ _ _ _ _ Hf). intros Hin. apply Hn.
  apply list_elem_of_In in Hin. apply list_elem_of_In.
  apply in_map_iff in Hin as (g & Hg & Hin).
  apply list_elem_of_In, list_elem_of_omap in Hin as (y & Hy & Hcy).
  apply candidate_of_name in Hcy. apply list_elem_of_In. congruence.
Qed.

Lemma candidates_NoDup dir tc w : NoDup (List.map fileName (candidates dir tc w)).
Proof.
  unfold candidates. destruct (readdir dir w) as [[names|] w'] eqn:E; [|constructor].
  assert (w' = w) as -> by (unfold readdir in E; destruct (w !! dir) as [[|]|]; congruence).
  apply candidates_names_NoDup. apply NoDup_ListNoDup, List.NoDup_filter, NoDup_ListNoDup.
  eapply readdir_NoDup. exact E.
Qed.

(** The file [gotchas.md] of the memory folder is a candidate when it can be
    read and its body is not blank. *)
Lemma gotchas_is_candidate dir tc w c :
  w !! dir = Some Dir ->
  w !! path_join dir "gotchas.md" = Some (File c true) ->
  Str.trim (body (parseFrontmatter c)) <> "" ->
  exists f, In f (candidates dir tc w) /\ fileName f = "gotchas.md".
Proof.
  intros Hd Hg Hbody.
  destruct (readdir_child dir w "gotchas.md" _ Hd Hg eq_refl) as (names & Hr & Hin).
  unfold candidates. rewrite Hr.
  assert (exists f, candidate_of dir (taskTermsOf tc) w "gotchas.md" = Some f) as [f Hf].
  { unfold candidate_of. rewrite Hg.
    destruct (String.eqb_spec (Str.trim (body (parseFrontmatter c))) ""); [contradiction|].
    eauto. }
  exists f. split; [|eapply candidate_of_name; exact Hf].
  apply list_elem_of_In, list_elem_of_omap. exists "gotchas.md".
  split; [|exact Hf]. apply list_elem_of_In, filter_In. split; [exact Hin | reflexivity].
Qed.

(** The memory part of [loadContextFiles] returns the selected candidates
    in the order of their scores. *)
Lemma loadMemoryFiles_run dir tc maxMemoryFiles w :
  let sorted := sortByScore (candidates dir tc w) in
  let sel := selectFiles sorted maxMemoryFiles (taskTermsOf tc) in
  exists w',
    loadMemoryFiles dir true tc maxMemoryFiles w
    = (Ok (List.map info_of (List.filter (fun f => bool_decide (fileName f ∈ sel)) sorted)), w').
Proof.
  cbv zeta.
  assert (forall A (m : io A) (k : A -> io (list MemoryFileInfo)) a,
            m w = (Ok a, w) -> bind m k w = k a w) as Hbind.
  { intros A m k a H. unfold bind. rewrite H. reflexivity. }
  unfold loadMemoryFiles, try_catch.
  destruct (w !! dir) as [[c r|]|] eqn:Hd.
  - assert (access dir w = (Ok tt, w)) as Ha by (unfold access; rewrite Hd; reflexivity).
    assert (readdir dir w = (Throw, w)) as Hr by (unfold readdir; rewrite Hd; reflexivity).
    rewrite (Hbind _ _ _ _ Ha). unfold bind at 1. unfold candidates. rewrite Hr.
    exists w. reflexivity.
  - assert (access dir w = (Ok tt, w)) as Ha by (unfold access; rewrite Hd; reflexivity).
    assert (exists names, readdir dir w = (Ok names, w)) as [names Hr]
      by (unfold readdir; rewrite Hd; eauto).
    rewrite (Hbind _ _ _ _ Ha), (Hbind _ _ _ _ Hr).
    rewrite (Hbind _ _ _ _ (scoring_loop dir (taskTermsOf tc) w _ [])).
    unfold candidates. rewrite Hr. simpl List.app.
    set (sorted := sortByScore _).
    destruct (loading_loop (selectFiles sorted maxMemoryFiles (taskTermsOf tc)) sorted [] w)
      as [w' ->].
    exists w'. reflexivity.
  - assert (access dir w = (Throw, w)) as Ha by (unfold access; rewrite Hd; reflexivity).
    assert (readdir dir w = (Throw, w)) as Hr by (unfold readdir; rewrite Hd; reflexivity).
    unfold bind at 1. rewrite Ha. unfold candidates. rewrite Hr.
    exists w. reflexivity.
Qed.

Lemma sorted_names_NoDup dir tc w :
  NoDup (List.map fileName (sortByScore (candidates dir tc w))).
Proof.
  rewrite (Permutation_map fileName (sortByScore_perm (candidates dir tc w))).
  apply candidates_NoDup.
Qed.

Lemma picked_names_NoDup (sel : gset string) l :
  NoDup (List.map fileName l) ->
  NoDup (List.map fileName (List.filter (fun f => bool_decide (fileName f ∈ sel)) l)).
Proof.
  intros Hnd. induction l as [|f l IH]; simpl; [constructor|].
  apply NoDup_cons in Hnd as [Hf Hnd].
  destruct (bool_decide (fileName f ∈ sel)); simpl; [|apply IH; exact Hnd].
  apply NoDup_cons. split; [|apply IH; exact Hnd].
  intros Hin. apply Hf. apply list_elem_of_In in Hin. apply list_elem_of_In.
  apply in_map_iff in Hin as (g & Hg & Hin). apply filter_In in Hin as [Hin _].
  apply in_map_iff. eauto.
Qed.

Lemma map_name_info l : List.map name (List.map info_of l) = List.map fileName l.
Proof. rewrite List.map_map. reflexivity. Qed.

(** C3. A call of [loadContextFiles] with [includeMemory] returns memory
    files with distinct names, all of them candidates (readable markdown
    files of the memory folder whose body, the frontmatter taken off, is not
    blank).  With [maxMemoryFiles = 0] it returns none.  With
    [maxMemoryFiles > 0] it returns at most [maxMemoryFiles] files, and
    [gotchas.md] is among them whenever that file is readable with a body
    that is not blank.  With [maxMemoryFiles = 1] and such a [gotchas.md],
    whatever the other candidates, it returns [gotchas.md] alone.  With
    [maxMemoryFiles = 3] and ten candidates of importance 0.95 it returns
    three files. *)
Theorem memory_selection_policy (memoryDir : string) (taskContext : option TaskContext)
    (maxMemoryFiles : Z) (w : fs) :
  exists memoryFiles w',
    loadMemoryFiles memoryDir true taskContext maxMemoryFiles w = (Ok memoryFiles, w')
    /\ NoDup (List.map name memoryFiles)
    /\ (forall n, In n (List.map name memoryFiles) ->
          exists f, In f (candidates memoryDir taskContext w) /\ fileName f = n)
    /\ (maxMemoryFiles = 0%Z -> memoryFiles = [])
    /\ ((0 < maxMemoryFiles)%Z -> (Z.of_nat (List.length memoryFiles) <= maxMemoryFiles)%Z)
    /\ ((0 < maxMemoryFiles)%Z ->
        forall c, w !! memoryDir = Some Dir ->
                  w !! path_join memoryDir "gotchas.md" = Some (File c true) ->
                  Str.trim (body (parseFrontmatter c)) <> "" ->
                  In "gotchas.md" (List.map name memoryFiles))
    /\ (maxMemoryFiles = 1%Z ->
        forall c, w !! memoryDir = Some Dir ->
                  w !! path_join memoryDir "gotchas.md" = Some (File c true) ->
                  Str.trim (body (parseFrontmatter c)) <> "" ->
                  List.map name memoryFiles = ["gotchas.md"])
    /\ (maxMemoryFiles = 3%Z ->
        List.length (candidates memoryDir taskContext w) = 10 ->
        (forall f, In f (candidates memoryDir taskContext w) ->
                   importance (sf_metadata f) = Num.Num (19 # 20)) ->
        List.length memoryFiles = 3).
Proof.
  destruct (loadMemoryFiles_run memoryDir taskContext maxMemoryFiles w) as [w' Hrun].
  cbv zeta in Hrun.
  set (cands := candidates memoryDir taskContext w) in *.
  set (sorted := sortByScore cands) in *.
  set (sel := selectFiles sorted maxMemoryFiles (taskTermsOf taskContext)) in *.
  set (picked := List.filter (fun f => bool_decide (fileName f ∈ sel)) sorted) in *.
  assert (Permutation sorted cands) as Hperm by apply sortByScore_perm.
  assert (NoDup (List.map fileName sorted)) as Hnd by apply sorted_names_NoDup.
  assert (List.length picked = size sel) as Hcount
    by (apply selected_count; [exact Hnd | apply select_names]).
  assert (forall c, w !! memoryDir = Some Dir ->
                    w !! path_join memoryDir "gotchas.md" = Some (File c true) ->
                    Str.trim (body (parseFrontmatter c)) <> "" ->
                    (0 < maxMemoryFiles)%Z ->
                    In "gotchas.md" (List.map fileName picked)) as Hgot.
  { intros c Hd Hg Hb Hmax.
    destruct (gotchas_is_candidate memoryDir taskContext w c Hd Hg Hb) as (f & Hin & Hf).
    assert (In f sorted) as Hin' by (eapply Permutation_in; [symmetry; exact Hperm | exact Hin]).
    apply in_map_iff. exists f. split; [exact Hf|]. apply filter_In. split; [exact Hin'|].
    apply bool_decide_eq_true. rewrite Hf. apply select_gotchas; [exact Hmax | eauto]. }
  exists (List.map info_of picked), w'. split; [exact Hrun|].
  rewrite map_name_info, length_map.
  split; [apply picked_names_NoDup; exact Hnd|].
  split.
  { intros n Hn. apply in_map_iff in Hn as (f & Hf & Hin). apply filter_In in Hin as [Hin _].
    exists f. split; [eapply Permutation_in; [exact Hperm | exact Hin] | exact Hf]. }
  split.
  { intros H0. assert (sel = ∅) as Hs by (apply select_nothing; lia).
    rewrite Hs, size_empty in Hcount. destruct picked; [reflexivity | discriminate]. }
  split; [intros Hmax; rewrite Hcount; apply select_size; exact Hmax|].
  split; [intros Hmax c Hd Hg Hb; apply (Hgot c Hd Hg Hb Hmax)|].
  split.
  { intros H1 c Hd Hg Hb.
    assert (In "gotchas.md" (List.map fileName picked)) as Hin by (apply (Hgot c Hd Hg Hb); lia).
    assert (Z.of_nat (List.length picked) <= 1)%Z as Hlen
      by (rewrite Hcount, <- H1; apply select_size; lia).
    destruct picked as [|f [|g picked']]; simpl in *.
    - destruct Hin.
    - destruct Hin as [->|[]]. reflexivity.
    - lia. }
  intros H3 Hlen Himp.
  assert (Z.of_nat (size sel) = Z.min maxMemoryFiles (Z.of_nat (size (names_of sorted)))) as Hfull.
  { apply select_full; [lia|]. intros f Hf.
    rewrite (Himp f) by (eapply Permutation_in; [exact Hperm | exact Hf]). reflexivity. }
  assert (size (names_of sorted) = 10) as Hsize.
  { unfold names_of. rewrite size_list_to_set by exact Hnd.
    rewrite length_map, (Permutation_length Hperm). exact Hlen. }
  rewrite Hcount. lia.
Qed.

Lemma memory_selection_policy_witness :
  (exists memoryFiles w',
     loadMemoryFiles Samples.memory_dir true Samples.jwt_task 1 Samples.gotchas_fs
     = (Ok memoryFiles, w')
     /\ List.map name memoryFiles = ["gotchas.md"])
  /\ (exists memoryFiles w',
        loadMemoryFiles Samples.memory_dir true None 3 Samples.ten_fs = (Ok memoryFiles, w')
        /\ List.length memoryFiles = 3)
  /\ (exists w',
        loadMemoryFiles Samples.memory_dir true None 0 Samples.ten_fs = (Ok [], w')).
Proof.
  split; [|split].
  - destruct (memory_selection_policy Samples.memory_dir Samples.jwt_task 1 Samples.gotchas_fs)
      as (files & w' & Hrun & _ & _ & _ & _ & _ & H1 & _).
    exists files, w'. split; [exact Hrun|].
    apply (H1 eq_refl Samples.gotchas_file).
    + vm_compute. reflexivity.
    + vm_compute. reflexivity.
    + vm_compute. discriminate.
  - destruct (memory_selection_policy Samples.memory_dir None 3 Samples.ten_fs)
      as (files & w' & Hrun & _ & _ & _ & _ & _ & _ & H3).
    exists files, w'. split; [exact Hrun|].
    apply (H3 eq_refl).
    + vm_compute. reflexivity.
    + apply List.Forall_forall. vm_compute. repeat constructor.
  - destruct (memory_selection_policy Samples.memory_dir None 0 Samples.ten_fs)
      as (files & w' & Hrun & _ & _ & H0 & _).
    exists w'. rewrite <- (H0 eq_refl). exact Hrun.
Defined.

End LoaderFacts.

(** ** Concurrent increments *)

Module LockFacts.
Import Codec Fs Memory Lock MemoryFacts.

(** Symbolic execution of the machine, one step at a time. *)
Ltac lock_simpl :=
  repeat first
    [ progress (unfold complete_io, start, resume, acquire, release, set_pc,
                 readFile, writeFile, microtasks, issue_all, indices, init)
    | progress (cbn [files fileLocks settled fresh calls c_path c_stat c_pc map
                     fold_left seq lookup list_lookup alter list_alter length fst snd])
    | rewrite lookup_empty
    | rewrite lookup_insert_eq
    | rewrite lookup_delete_eq
    | rewrite delete_insert_eq
    | rewrite insert_insert_eq
    | rewrite delete_empty
    | match goal with H : _ !! _ = _ |- _ => rewrite H end
    | rewrite bool_decide_eq_true_2 by set_solver
    | rewrite bool_decide_eq_false_2 by set_solver ].

Ltac lock_eval t :=
  let H := fresh "E" in
  eassert (t = _) as H by (lock_simpl; reflexivity);
  rewrite H; clear H.

Ltac lock_next :=
  match goal with
  | |- context [issue_all (init ?w ?r)] => lock_eval (issue_all (init w r))
  | |- context [complete_io (mkState ?f ?l ?s ?n ?cs) ?i] =>
      lock_eval (complete_io (mkState f l s n cs) i)
  | |- context [microtasks (mkState ?f ?l ?s ?n ?cs)] =>
      lock_eval (microtasks (mkState f l s n cs))
  end.

(** A call on its own leaves the files as the sequential reading of
    [incrementUsageStat] says, and no lock behind. *)
Lemma single_call_sequential p stat (w : fs) :
  let st := run [0; 0] (init w [(p, stat)]) in
  files st = snd (incrementUsageStat p stat w)
  /\ all_finished st = true /\ fileLocks st = ∅.
Proof.
  cbv zeta. unfold run. cbn [fold_left].
  destruct (w !! p) as [[c [|]|]|] eqn:Hc.
  - rewrite (incrementUsageStat_readable p stat w c Hc).
    repeat lock_next. repeat split; reflexivity.
  - rewrite (incrementUsageStat_unreadable p stat w) by congruence.
    repeat lock_next. repeat split; reflexivity.
  - rewrite (incrementUsageStat_unreadable p stat w) by congruence.
    repeat lock_next. repeat split; reflexivity.
  - rewrite (incrementUsageStat_unreadable p stat w) by congruence.
    repeat lock_next. repeat split; reflexivity.
Qed.

(** Two calls issued together are serialized: the second one reads what the
    first one wrote. *)
Lemma two_calls_serialize p stat1 stat2 (w : fs) c :
  w !! p = Some (File c true) ->
  let st := run [0; 0; 1; 1] (init w [(p, stat1); (p, stat2)]) in
  files st = <[p := File (bumped_content stat2 (bumped_content stat1 c)) true]> w
  /\ all_finished st = true /\ fileLocks st = ∅.
Proof.
  intros Hc. cbv zeta. unfold run. cbn [fold_left].
  repeat lock_next. repeat split; reflexivity.
Qed.

(** Three calls issued together, whatever the file: when the file
    operations complete in the order of their issue, the second and the
    third call both read what the first one wrote, and the file ends as
    after two increments. *)
Lemma three_calls_fifo p stat (w : fs) c :
  w !! p = Some (File c true) ->
  let st := run [0; 0; 1; 2; 1; 2] (init w [(p, stat); (p, stat); (p, stat)]) in
  files st = <[p := File (bumped_content stat (bumped_content stat c)) true]> w
  /\ pcs st = [Finished; Finished; Finished].
Proof.
  intros Hc. cbv zeta. unfold run. cbn [fold_left].
  repeat lock_next. split; reflexivity.
Qed.

(** C2. Three calls of [incrementUsageStat] for the counter [loaded] of one
    file, whose counter is 4, are issued together.  The first call takes the
    lock and the two others wait for its promise.  When the first call
    releases the lock, both waiting calls resume, and each installs a lock
    of its own without looking at the map again: they read the file one
    after the other, both find 5 and both write 6.  All three calls
    complete, and the counter has advanced by 2, not by 3 as it does when
    the three calls are made one after the other. *)
Theorem three_calls_lose_an_update :
  counter_in Samples.auth_fs Samples.auth_path Loaded = Some 4%N
  /\ pcs (issue_all (init Samples.auth_fs Samples.three_calls))
     = [Reading 0; AwaitingLock 0; AwaitingLock 0]
  /\ pcs (run [0; 0] (init Samples.auth_fs Samples.three_calls))
     = [Finished; Reading 1; Reading 2]
  /\ counter_in (files (run [0; 0] (init Samples.auth_fs Samples.three_calls)))
                Samples.auth_path Loaded = Some 5%N
  /\ all_finished (run Samples.fifo_schedule (init Samples.auth_fs Samples.three_calls)) = true
  /\ counter_in (files (run Samples.fifo_schedule (init Samples.auth_fs Samples.three_calls)))
                Samples.auth_path Loaded = Some 6%N
  /\ counter_in
       (snd (incrementUsageStat Samples.auth_path Loaded
          (snd (incrementUsageStat Samples.auth_path Loaded
             (snd (incrementUsageStat Samples.auth_path Loaded Samples.auth_fs))))))
       Samples.auth_path Loaded = Some 7%N.
Proof. repeat split; vm_compute; reflexivity. Qed.

End LockFacts.

(* ===================================================================== *)
(** ** What [parseFrontmatter] returns on any input *)

Module ParseFacts.
Import Re Codec Fs Memory Spec Header StrFacts ReFacts CodecFacts MemoryFacts HeaderFacts.
#[local] Arguments String.append : simpl nomatch.

Lemma existsb_trimEnd p s : Str.existsb p s = false -> Str.existsb p (Str.trimEnd s) = false.
Proof.
  induction s as [|c s IH]; simpl; [auto|]. intros H. apply orb_false_iff in H as [Hc Hs].
  specialize (IH Hs). destruct (Str.trimEnd s) as [|d t].
  - destruct (Chr.is_space c); simpl; rewrite ?Hc; reflexivity.
  - simpl in *. rewrite Hc. exact IH.
Qed.

Lemma existsb_trimStart p s : Str.existsb p s = false -> Str.existsb p (Str.trimStart s) = false.
Proof.
  induction s as [|c s IH]; simpl; [auto|]. intros H.
  destruct (Chr.is_space c); [|exact H].
  apply orb_false_iff in H as [_ Hs]. auto.
Qed.

Lemma existsb_filter p q s : Str.existsb p s = false -> Str.existsb p (Str.filter q s) = false.
Proof.
  induction s as [|c s IH]; simpl; [auto|]. intros H. apply orb_false_iff in H as [Hc Hs].
  destruct (q c); simpl; rewrite ?Hc; auto.
Qed.

Lemma existsb_filter_out p s : Str.existsb p (Str.filter (fun c => negb (p c)) s) = false.
Proof.
  induction s as [|c s IH]; simpl; [reflexivity|].
  destruct (p c) eqn:Hc; simpl; rewrite ?Hc; exact IH.
Qed.

(** The pieces between the separators hold no separator. *)
Lemma split_pieces p s w : In w (Str.split p s) -> Str.existsb p w = false.
Proof.
  revert w. induction s as [|c s IH]; intros w; simpl.
  - intros [<-|[]]. reflexivity.
  - destruct (p c) eqn:Hc.
    + intros [<-|H]; [reflexivity | auto].
    + destruct (Str.split p s) as [|v vs] eqn:E.
      * intros [<-|[]]. simpl. rewrite Hc. reflexivity.
      * intros [<-|H]; [|apply IH; right; exact H].
        simpl. rewrite Hc. apply IH. left. reflexivity.
Qed.

(** An item of a bracketed list, as [parseFrontmatter] keeps it. *)
Lemma parseList_items inner t :
  In t (parseList inner) ->
  t <> "" /\ Str.existsb Chr.is_quote t = false /\ Str.existsb (Chr.is_char ",") t = false.
Proof.
  unfold parseList. intros H. apply filter_In in H as [H Hlen].
  apply in_map_iff in H as (piece & <- & Hpiece).
  split; [|split].
  - intros E. rewrite E in Hlen. discriminate.
  - apply existsb_filter_out.
  - apply existsb_filter. unfold Str.trim. apply existsb_trimEnd, existsb_trimStart.
    apply (split_pieces _ inner). exact Hpiece.
Qed.

Lemma parsed_lists content :
  let m := metadata (parseFrontmatter content) in
  (tags m = [] \/ exists inner, tags m = parseList inner)
  /\ (relevantTo m = [] \/ exists inner, relevantTo m = parseList inner)
  /\ (relatedFiles m = [] \/ exists inner, relatedFiles m = parseList inner).
Proof.
  cbv zeta. unfold parseFrontmatter.
  destruct (match_anchored frontmatterRegex content) as [m|]; [|simpl; auto].
  cbv zeta. unfold on_match.
  destruct (match_search (listRegex "tags") (group1 m));
    destruct (match_search summaryRegex (group1 m));
    destruct (match_search (listRegex "relevantTo") (group1 m));
    destruct (match_search importanceRegex (group1 m));
    destruct (match_search (listRegex "relatedFiles") (group1 m));
    simpl; eauto 10.
Qed.

(** X2. Whatever the input, an entry of [tags], [relevantTo] or
    [relatedFiles] in the metadata that [parseFrontmatter] returns is not
    the empty string and holds neither a quote (single or double) nor a
    comma. *)
Theorem parsed_lists_clean (content t : string) :
  let m := metadata (parseFrontmatter content) in
  In t (tags m) \/ In t (relevantTo m) \/ In t (relatedFiles m) ->
  t <> "" /\ Str.existsb Chr.is_quote t = false /\ Str.existsb (Chr.is_char ",") t = false.
Proof.
  cbv zeta. destruct (parsed_lists content) as (Ht & Hr & Hf).
  intros [H|[H|H]].
  - destruct Ht as [E|[inner E]]; rewrite E in H; [destruct H|].
    exact (parseList_items inner t H).
  - destruct Hr as [E|[inner E]]; rewrite E in H; [destruct H|].
    exact (parseList_items inner t H).
  - destruct Hf as [E|[inner E]]; rewrite E in H; [destruct H|].
    exact (parseList_items inner t H).
Qed.

Lemma parsed_lists_clean_witness :
  In "jwt" (tags (metadata (parseFrontmatter
       ("---" +:+ Str.LF +:+ "tags: ['auth', , jwt]" +:+ Str.LF +:+ "---" +:+ Str.LF))))
  /\ "jwt" <> ""
  /\ Str.existsb Chr.is_quote "jwt" = false /\ Str.existsb (Chr.is_char ",") "jwt" = false.
Proof.
  assert (In "jwt" (tags (metadata (parseFrontmatter
            ("---" +:+ Str.LF +:+ "tags: ['auth', , jwt]" +:+ Str.LF +:+ "---" +:+ Str.LF)))))
    as H by (vm_compute; auto).
  split; [exact H|].
  apply (parsed_lists_clean
           ("---" +:+ Str.LF +:+ "tags: ['auth', , jwt]" +:+ Str.LF +:+ "---" +:+ Str.LF) "jwt").
  left. exact H.
Defined.

(** X3. Whatever the input, the body that [parseFrontmatter] returns is the
    end of the input: either the input does not begin with a delimited
    block, and then the body is the whole input and the metadata the
    default one, or the input is a delimited block followed by the body. *)
Theorem parsed_body_is_suffix (content : string) :
  (~ has_frontmatter content
   /\ parseFrontmatter content = {| metadata := createDefaultMetadata; body := content |})
  \/ (exists block,
        lang frontmatterRegex block
        /\ content = block +:+ body (parseFrontmatter content)).
Proof.
  destruct (match_anchored frontmatterRegex content) as [m|] eqn:Hm.
  - right. assert (has_frontmatter content) as Hf
      by (apply frontmatter_match_iff; eauto).
    destruct (parseFrontmatter_with_block content Hf) as (block & Hb & Hl).
    exists block. split; [exact Hl | exact Hb].
  - left. pose proof (no_frontmatter content Hm) as Hno.
    split; [exact Hno | apply parseFrontmatter_default; exact Hno].
Qed.

(** X4. Whatever the input, the importance that [parseFrontmatter] returns
    is a number between 0 and 1 or [NaN]; it is [NaN] for a value without
    digit, as in [importance: .], where [parseFloat] finds no number and
    [Math.min] and [Math.max] pass [NaN] on. *)
Theorem importance_clamped_or_NaN :
  (forall content,
     match importance (metadata (parseFrontmatter content)) with
     | Num.NaN => True
     | Num.Num q => (0 <= q /\ q <= 1)%Q
     end)
  /\ importance (metadata (parseFrontmatter
       ("---" +:+ Str.LF +:+ "importance: ." +:+ Str.LF +:+ "---" +:+ Str.LF)))
     = Num.NaN.
Proof. split; [exact importance_in_range | vm_compute; reflexivity]. Qed.

(** X5. After a call of [incrementUsageStat] on a readable file, whatever
    its content, the file begins with a delimited frontmatter block: the
    serializer writes one that the pattern of [parseFrontmatter] finds, so a
    later call reads a block and does not install a second one before it. *)
Theorem incrementUsageStat_leaves_block (p : string) (stat : StatName) (w : fs) (c : string) :
  w !! p = Some (File c true) ->
  exists c',
    incrementUsageStat p stat w = (Ok tt, <[p := File c' true]> w)
    /\ has_frontmatter c'
    /\ is_Some (match_anchored frontmatterRegex c').
Proof.
  intros Hc. exists (bumped_content stat c).
  split; [apply incrementUsageStat_readable; exact Hc|].
  assert (has_frontmatter (bumped_content stat c)) as Hf.
  { unfold bumped_content. cbv zeta.
    fold (file_of (bump stat (metadata (parseFrontmatter c))) (body (parseFrontmatter c))).
    rewrite serialize_header.
    exists "", (header (fields_of (bump stat (metadata (parseFrontmatter c))))), "",
           (body (parseFrontmatter c)).
    repeat split. }
  split; [exact Hf | apply frontmatter_match_iff; exact Hf].
Qed.

Lemma incrementUsageStat_leaves_block_witness :
  exists c',
    incrementUsageStat Samples.auth_path Loaded Samples.notes_fs
    = (Ok tt, <[Samples.auth_path := File c' true]> Samples.notes_fs)
    /\ has_frontmatter c'
    /\ is_Some (match_anchored frontmatterRegex c').
Proof.
  apply (incrementUsageStat_leaves_block Samples.auth_path Loaded Samples.notes_fs
           "Use RS256 for signing").
  vm_compute. reflexivity.
Defined.

(** X6. On a file that the serializer wrote for a plain metadata, with a
    body that does not start with a blank line, whose counters are below
    2^53 and stay so, [n] calls of [incrementUsageStat] made one after the
    other all return and leave a file that is read back with the named
    counter [n] higher, the two other counters, the other fields and the
    body as they were. *)
Theorem sequential_increments_count (n : nat) (p : string) (stat : StatName) (w : fs)
    (m : MemoryMetadata) (text : string) :
  plain_metadata m = true -> leading_blank_line text = false ->
  safe_stats (usageStats m) = true ->
  (get_stat stat (usageStats m) + N.of_nat n < 2 ^ 53)%N ->
  w !! p = Some (File (file_of m text) true) ->
  exists content m',
    increments n p stat w = (Ok tt, <[p := File content true]> w)
    /\ parseFrontmatter content = {| metadata := m'; body := text |}
    /\ get_stat stat (usageStats m') = (get_stat stat (usageStats m) + N.of_nat n)%N
    /\ (forall k, k <> stat -> get_stat k (usageStats m') = get_stat k (usageStats m))
    /\ safe_stats (usageStats m') = true
    /\ tags m' = tags m /\ summary m' = summary m /\ relevantTo m' = relevantTo m
    /\ importance m' = importance m /\ relatedFiles m' = relatedFiles m.
Proof.
  intros Hm Ht Hsafe Hroom Hw.
  exists (file_of (bump_by n stat m) text), (bump_by n stat m).
  assert (forall k, k <> stat ->
            get_stat k (usageStats (bump_by n stat m)) = get_stat k (usageStats m)) as Hother.
  { intros k Hk. clear Hroom. induction n as [|n IH]; [reflexivity|].
    change (bump_by (S n) stat m) with (bump stat (bump_by n stat m)).
    rewrite (bump_other stat k _ Hk). exact IH. }
  split; [apply increments_in_sequence; assumption|].
  split; [apply parse_plain_file; [rewrite plain_bump_by; exact Hm | exact Ht]|].
  split; [apply bump_by_stat|].
  split; [exact Hother|].
  split.
  { pose proof (bump_by_stat n stat m) as Hstat.
    apply safe_stats_iff in Hsafe as (Hl & Hr & Hs). apply safe_stats_iff.
    destruct stat;
      [ pose proof (Hother Referenced ltac:(discriminate)) as H1;
        pose proof (Hother SuccessfulFeatures ltac:(discriminate)) as H2
      | pose proof (Hother Loaded ltac:(discriminate)) as H1;
        pose proof (Hother SuccessfulFeatures ltac:(discriminate)) as H2
      | pose proof (Hother Loaded ltac:(discriminate)) as H1;
        pose proof (Hother Referenced ltac:(discriminate)) as H2 ];
      cbn [get_stat] in *; rewrite ?Hstat, ?H1, ?H2; repeat split; assumption. }
  clear Hroom Hother. repeat split; induction n as [|n IH]; try reflexivity; exact IH.
Qed.

Lemma sequential_increments_count_witness :
  exists content m',
    increments 3 Samples.auth_path Loaded Samples.auth_fs
    = (Ok tt, <[Samples.auth_path := File content true]> Samples.auth_fs)
    /\ parseFrontmatter content = {| metadata := m'; body := "Use RS256 for signing" |}
    /\ loaded (usageStats m') = 7%N.
Proof.
  destruct (sequential_increments_count 3 Samples.auth_path Loaded Samples.auth_fs
              Samples.auth_metadata "Use RS256 for signing")
    as (content & m' & Hrun & Hparse & Hcount & _);
    [reflexivity | reflexivity | reflexivity | reflexivity | reflexivity |].
  exists content, m'. split; [exact Hrun|]. split; [exact Hparse|]. exact Hcount.
Defined.

End ParseFacts.

(** ** Terms and matches *)

Module TermFacts.
Import Codec Scoring Loader Spec StrFacts ScoringFacts.
#[local] Arguments String.append : simpl nomatch.

Ltac by_cases_on_char c :=
  destruct c as [[|] [|] [|] [|] [|] [|] [|] [|]]; vm_compute; congruence.

(** The test of the filter of [extractTerms]. *)
Lemma map_app f s t : Str.map f (s +:+ t) = Str.map f s +:+ Str.map f t.
Proof. induction s as [|c s IH]; [reflexivity|]. rewrite app_cons. simpl. rewrite IH. reflexivity. Qed.

Lemma split_spaces_head r s : exists h t, Str.split_spaces_from r s = h :: t.
Proof.
  revert r. induction s as [|c s IH]; intros r; simpl; [eauto|].
  destruct (Chr.is_space c).
  - destruct r; [apply IH | eauto].
  - destruct (IH false) as (h & t & ->). eauto.
Qed.

(** A word of the split holds no white space, and its characters are
    characters of the text. *)
Lemma split_spaces_words q s : forall r w,
  In w (Str.split_spaces_from r s) ->
  Str.forallb q s = true ->
  Str.forallb (fun c => (q c && negb (Chr.is_space c))%bool) w = true.
Proof.
  induction s as [|c s IH]; intros r w; simpl.
  - intros [<-|[]] _. reflexivity.
  - intros Hin Hq. apply andb_true_iff in Hq as [Hc Hs].
    destruct (Chr.is_space c) eqn:Hsp.
    + destruct r; [exact (IH true w Hin Hs)|].
      destruct Hin as [<-|Hin]; [reflexivity | exact (IH true w Hin Hs)].
    + destruct (split_spaces_head false s) as (h & t & E). rewrite E in Hin.
      destruct Hin as [<-|Hin].
      * simpl. rewrite Hc, Hsp. simpl. apply (IH false h); [rewrite E; left; reflexivity | exact Hs].
      * apply (IH false w); [rewrite E; right; exact Hin | exact Hs].
Qed.

Lemma blanked_chars s :
  Str.forallb (fun c => (Chr.is_lower c || Chr.is_digit c || Chr.is_space c)%bool)
              (Str.map blank_non_word s) = true.
Proof.
  induction s as [|c s IH]; [reflexivity|]. simpl. rewrite IH, andb_true_r.
  unfold blank_non_word.
  destruct (Chr.is_lower c || Chr.is_digit c || Chr.is_space c)%bool eqn:E; [exact E | reflexivity].
Qed.

Lemma forallb_weaken (p q : ascii -> bool) s :
  (forall c, p c = true -> q c = true) -> Str.forallb p s = true -> Str.forallb q s = true.
Proof.
  intros Hpq. induction s as [|c s IH]; simpl; [auto|].
  intros H. apply andb_true_iff in H as [Hc Hs]. rewrite (Hpq c Hc), (IH Hs). reflexivity.
Qed.

(** X7. Every term that [extractTerms] returns has at least three
    characters, all of them lower-case letters a-z or digits, and is not a
    stop word. *)
Theorem extractTerms_terms (text t : string) :
  In t (extractTerms text) ->
  2 < String.length t
  /\ Str.forallb (fun c => (Chr.is_lower c || Chr.is_digit c)%bool) t = true
  /\ t ∉ stopWords.
Proof.
  unfold extractTerms. intros H. apply filter_In in H as [Hin Hkeep].
  apply andb_true_iff in Hkeep as [Hlen Hstop].
  split; [apply Nat.ltb_lt; exact Hlen|]. split.
  - pose proof (split_spaces_words _ _ false t Hin (blanked_chars (Str.toLowerCase text))) as Hw.
    revert Hw. apply forallb_weaken. intros c Hc.
    apply andb_true_iff in Hc as [Hc Hsp]. apply negb_true_iff in Hsp.
    rewrite Hsp, orb_false_r in Hc. exact Hc.
  - apply negb_true_iff, bool_decide_eq_false in Hstop. exact Hstop.
Qed.

Lemma extractTerms_terms_witness :
  In "tokens" (extractTerms "Add the JWT-Tokens (v2) to API!")
  /\ 2 < String.length "tokens"
  /\ Str.forallb (fun c => (Chr.is_lower c || Chr.is_digit c)%bool) "tokens" = true
  /\ "tokens" ∉ stopWords.
Proof.
  assert (In "tokens" (extractTerms "Add the JWT-Tokens (v2) to API!")) as H
    by (vm_compute; auto).
  split; [exact H|]. exact (extractTerms_terms _ _ H).
Defined.

(** The words on both sides of a space, empty pieces apart. *)
Lemma split_spaces_space (k : string -> bool) B :
  k "" = false ->
  forall A,
    (exists h t t',
        Str.split_spaces_from false (A +:+ String " " B) = h :: t
        /\ Str.split_spaces_from false A = h :: t'
        /\ List.filter k t = List.filter k t' ++ List.filter k (Str.split_spaces_from true B))
    /\ List.filter k (Str.split_spaces_from true (A +:+ String " " B))
       = List.filter k (Str.split_spaces_from true A)
         ++ List.filter k (Str.split_spaces_from true B).
Proof.
  intros Hk. induction A as [|c A [IHf IHt]].
  - split.
    + exists "", (Str.split_spaces_from true B), []. repeat split.
    + rewrite app_nil_l. simpl. rewrite Hk. reflexivity.
  - rewrite app_cons. simpl. destruct (Chr.is_space c) eqn:Hsp.
    + split; [|exact IHt].
      exists "", (Str.split_spaces_from true (A +:+ String " " B)), (Str.split_spaces_from true A).
      repeat split. exact IHt.
    + destruct IHf as (h & t & t' & -> & -> & Ht). split.
      * exists (String c h), t, t'. repeat split. exact Ht.
      * simpl. rewrite Ht. destruct (k (String c h)); reflexivity.
Qed.

Lemma split_spaces_run (k : string -> bool) B :
  k "" = false ->
  List.filter k (Str.split_spaces_from true B) = List.filter k (Str.split_spaces_from false B).
Proof.
  intros Hk. destruct B as [|c B]; [reflexivity|]. simpl.
  destruct (Chr.is_space c); [simpl; rewrite Hk; reflexivity | reflexivity].
Qed.

Lemma split_spaces_app (k : string -> bool) A B :
  k "" = false ->
  List.filter k (Str.split_spaces (A +:+ " " +:+ B))
  = List.filter k (Str.split_spaces A) ++ List.filter k (Str.split_spaces B).
Proof.
  intros Hk. unfold Str.split_spaces.
  destruct (split_spaces_space k B Hk A) as [(h & t & t' & E1 & E2 & Ht) _].
  change (A +:+ " " +:+ B) with (A +:+ String " " B).
  rewrite E1, E2. simpl. rewrite Ht, (split_spaces_run k B Hk).
  destruct (k h); reflexivity.
Qed.

(** X8. The terms of two texts joined by a space are the terms of the first
    followed by the terms of the second; so the task terms of
    [loadContextFiles] are the terms of the title followed by those of the
    description, and the terms of the title alone when there is no
    description. *)
Theorem extractTerms_app (a b : string) :
  extractTerms (a +:+ " " +:+ b) = extractTerms a ++ extractTerms b
  /\ taskTermsOf (Some {| title := a; description := Some b |})
     = extractTerms a ++ extractTerms b
  /\ taskTermsOf (Some {| title := a; description := None |}) = extractTerms a.
Proof.
  assert (forall x y, extractTerms (x +:+ " " +:+ y) = extractTerms x ++ extractTerms y) as Happ.
  { intros x y. unfold extractTerms, Str.toLowerCase.
    rewrite !map_app.
    change (Str.map blank_non_word (Str.map Chr.toLowerCase " ")) with " ".
    apply split_spaces_app. reflexivity. }
  split; [apply Happ|]. split; [apply Happ|].
  unfold taskTermsOf. cbn [title description]. rewrite Happ.
  change (extractTerms "") with (@nil string). apply List.app_nil_r.
Qed.





End TermFacts.

(** ** What the memory part of [loadContextFiles] selects and changes *)

Module LoadFacts.
Import Codec Scoring Fs Memory Loader Spec StrFacts MemoryFacts LoaderFacts.

Lemma fold_add_justified maxMemoryFiles test l : forall (sel : gset string) n,
  n ∈ fold_left (add_while_room test maxMemoryFiles) l sel ->
  n ∈ sel \/ exists g, In g l /\ fileName g = n /\ test g = true.
Proof.
  induction l as [|f l IH]; intros sel n; simpl; [auto|].
  intros H. apply IH in H as [H|(g & Hg & Hn & Ht)]; [|right; eauto].
  unfold add_while_room in H. destruct (test f) eqn:Hf; simpl in H; [|auto].
  destruct (Z.ltb _ _); [|auto].
  apply elem_of_union in H as [H|H]; [auto|].
  apply elem_of_singleton in H. right. exists f. auto.
Qed.

(** Why a name is in the selection. *)
Lemma select_justified l maxMemoryFiles taskTerms n :
  n ∈ selectFiles l maxMemoryFiles taskTerms ->
  n = "gotchas.md"
  \/ exists g, In g l /\ fileName g = n
               /\ (Num.geb (importance (sf_metadata g)) (Num.Num (9 # 10)) = true
                   \/ (Num.gtb (score g) (Num.Num 0) = true /\ taskTerms <> [])).
Proof.
  unfold selectFiles. destruct (Z.ltb 0 maxMemoryFiles); [|set_solver].
  set (sel0 := match List.find _ l with Some _ => _ | None => _ end).
  assert (forall k, k ∈ sel0 -> k = "gotchas.md") as H0.
  { intros k. unfold sel0. destruct (List.find _ l); set_solver. }
  assert (forall k,
            k ∈ fold_left
                  (add_while_room
                     (fun file => Num.geb (importance (sf_metadata file)) (Num.Num (9 # 10)))
                     maxMemoryFiles) l sel0 ->
            k = "gotchas.md"
            \/ exists g, In g l /\ fileName g = k
                         /\ Num.geb (importance (sf_metadata g)) (Num.Num (9 # 10)) = true) as H1.
  { intros k Hk. apply fold_add_justified in Hk as [Hk|Hk]; [left; auto | right; exact Hk]. }
  destruct taskTerms as [|t ts]; simpl.
  - intros H. apply H1 in H as [H|(g & Hg & Hn & Hi)]; [auto|]. right. eauto.
  - intros H. apply fold_add_justified in H as [H|(g & Hg & Hn & Hs)].
    + apply H1 in H as [H|(g & Hg & Hn & Hi)]; [auto|]. right. eauto.
    + right. exists g. split; [exact Hg|]. split; [exact Hn|]. right. split; [exact Hs|].
      discriminate.
Qed.

Lemma same_name_same_file (l : list ScoredFile) f g :
  NoDup (List.map fileName l) -> In f l -> In g l -> fileName f = fileName g -> f = g.
Proof.
  induction l as [|x l IH]; simpl; [intros _ []|].
  intros Hnd Hf Hg Hn. apply NoDup_cons in Hnd as [Hx Hnd].
  destruct Hf as [->|Hf], Hg as [->|Hg]; [reflexivity| | |auto].
  - exfalso. apply Hx. rewrite Hn. apply list_elem_of_In, in_map. exact Hg.
  - exfalso. apply Hx. rewrite <- Hn. apply list_elem_of_In, in_map. exact Hf.
Qed.

(** X10. Every memory file that [loadContextFiles] returns is a candidate
    (a readable markdown file of the folder with a body that is not blank)
    that is named [gotchas.md], or has an importance of at least 0.9, or has
    a positive score while there are task terms; the content returned is the
    body of the candidate. *)
Theorem selected_files_justified (memoryDir : string) (taskContext : option TaskContext)
    (maxMemoryFiles : Z) (w : fs) :
  exists memoryFiles w',
    loadMemoryFiles memoryDir true taskContext maxMemoryFiles w = (Ok memoryFiles, w')
    /\ Forall
         (fun info =>
            exists f,
              In f (candidates memoryDir taskContext w)
              /\ name info = fileName f /\ mf_content info = sf_body f
              /\ (fileName f = "gotchas.md"
                  \/ Num.geb (importance (sf_metadata f)) (Num.Num (9 # 10)) = true
                  \/ (Num.gtb (score f) (Num.Num 0) = true
                      /\ taskTermsOf taskContext <> [])))
         memoryFiles.
Proof.
  destruct (loadMemoryFiles_run memoryDir taskContext maxMemoryFiles w) as [w' Hrun].
  cbv zeta in Hrun.
  set (sorted := sortByScore (candidates memoryDir taskContext w)) in *.
  set (sel := selectFiles sorted maxMemoryFiles (taskTermsOf taskContext)) in *.
  eexists _, w'. split; [exact Hrun|].
  apply List.Forall_forall. intros info Hinfo.
  apply in_map_iff in Hinfo as (f & <- & Hf). apply filter_In in Hf as [Hf Hsel].
  apply bool_decide_eq_true in Hsel.
  assert (In f (candidates memoryDir taskContext w)) as Hc
    by (eapply Permutation_in; [apply sortByScore_perm | exact Hf]).
  exists f. split; [exact Hc|]. split; [reflexivity|]. split; [reflexivity|].
  apply select_justified in Hsel as [Hg|(g & Hg & Hn & Hwhy)]; [auto|].
  assert (g = f) as -> by
    (apply (same_name_same_file sorted); [apply sorted_names_NoDup | exact Hg | exact Hf | exact Hn]).
  destruct Hwhy as [H|H]; auto.
Qed.

(** The file system after the loading loop: the [loaded] counter of each
    selected file has been incremented, in the order of the list. *)
Lemma loading_loop_state (sel : gset string) scored : forall acc w,
  for_of scored (loadSelected sel) acc w
  = (Ok (acc ++ List.map info_of
                  (List.filter (fun f => bool_decide (fileName f ∈ sel)) scored)),
     fold_left (fun w f => snd (incrementUsageStat (filePath f) Loaded w))
               (List.filter (fun f => bool_decide (fileName f ∈ sel)) scored) w).
Proof.
  induction scored as [|f scored IH]; intros acc w; simpl.
  - unfold ret. rewrite List.app_nil_r. reflexivity.
  - unfold bind at 1. unfold loadSelected at 1.
    destruct (bool_decide (fileName f ∈ sel)); simpl.
    + unfold bind, try_catch.
      destruct (incrementUsageStat_returns (filePath f) Loaded w) as [w1 E]. rewrite E.
      unfold ret. cbv beta iota. rewrite IH, <- List.app_assoc. reflexivity.
    + apply IH.
Qed.

Lemma increment_other p q stat w : p <> q -> snd (incrementUsageStat q stat w) !! p = w !! p.
Proof.
  intros Hpq. destruct (w !! q) as [[c [|]|]|] eqn:E.
  - rewrite (incrementUsageStat_readable q stat w c E). simpl.
    apply lookup_insert_ne. congruence.
  - rewrite (incrementUsageStat_unreadable q stat w) by congruence. reflexivity.
  - rewrite (incrementUsageStat_unreadable q stat w) by congruence. reflexivity.
  - rewrite (incrementUsageStat_unreadable q stat w) by congruence. reflexivity.
Qed.

Lemma increments_frame (picked : list ScoredFile) p : forall w,
  ~ In p (List.map filePath picked) ->
  fold_left (fun w f => snd (incrementUsageStat (filePath f) Loaded w)) picked w !! p = w !! p.
Proof.
  induction picked as [|f picked IH]; intros w Hp; simpl; [reflexivity|].
  rewrite IH by (intros H; apply Hp; right; exact H).
  apply increment_other. intros ->. apply Hp. left. reflexivity.
Qed.

Lemma increments_once (picked : list ScoredFile) f c : forall w,
  NoDup (List.map filePath picked) -> In f picked ->
  w !! filePath f = Some (File c true) ->
  fold_left (fun w f => snd (incrementUsageStat (filePath f) Loaded w)) picked w !! filePath f
  = Some (File (bumped_content Loaded c) true).
Proof.
  induction picked as [|g picked IH]; intros w Hnd Hin Hc; [destruct Hin|].
  simpl. apply NoDup_cons in Hnd as [Hg Hnd]. destruct Hin as [->|Hin].
  - rewrite increments_frame by (intros H; apply Hg, list_elem_of_In; exact H).
    rewrite (incrementUsageStat_readable (filePath f) Loaded w c Hc). simpl.
    apply lookup_insert_eq.
  - apply IH; [exact Hnd | exact Hin|].
    rewrite increment_other; [exact Hc|].
    intros E. apply Hg. rewrite <- E. apply list_elem_of_In, in_map. exact Hin.
Qed.

Lemma append_inv_head s : forall a b, s +:+ a = s +:+ b -> a = b.
Proof.
  induction s as [|c s IH]; intros a b H; [exact H|].
  rewrite !app_cons in H. injection H as H. auto.
Qed.

Lemma candidate_file dir terms w n f :
  candidate_of dir terms w n = Some f ->
  fileName f = n /\ filePath f = path_join dir n
  /\ exists c, w !! path_join dir n = Some (File c true) /\ sf_body f = body (parseFrontmatter c).
Proof.
  unfold candidate_of. destruct (w !! path_join dir n) as [[c [|]|]|]; try discriminate.
  destruct (String.eqb _ _); [discriminate|]. intros [= <-]. simpl. eauto.
Qed.

Lemma candidates_files dir tc w f :
  In f (candidates dir tc w) ->
  filePath f = path_join dir (fileName f)
  /\ exists c, w !! filePath f = Some (File c true) /\ sf_body f = body (parseFrontmatter c).
Proof.
  unfold candidates. destruct (readdir dir w) as [[names|] ?]; [|intros []].
  intros H. apply list_elem_of_In, list_elem_of_omap in H as (n & _ & Hn).
  apply candidate_file in Hn as (Hname & Hpath & c & Hc & Hb).
  rewrite Hname, Hpath. eauto.
Qed.

Lemma paths_NoDup dir (l : list ScoredFile) :
  (forall f, In f l -> filePath f = path_join dir (fileName f)) ->
  NoDup (List.map fileName l) -> NoDup (List.map filePath l).
Proof.
  induction l as [|f l IH]; simpl; intros Hp Hnd; [constructor|].
  apply NoDup_cons in Hnd as [Hf Hnd]. apply NoDup_cons. split.
  - intros Hin. apply Hf. apply list_elem_of_In in Hin. apply list_elem_of_In.
    apply in_map_iff in Hin as (g & Hg & Hin). apply in_map_iff. exists g. split; [|exact Hin].
    rewrite (Hp f (or_introl eq_refl)), (Hp g (or_intror Hin)) in Hg.
    unfold path_join in Hg. apply append_inv_head in Hg. apply (append_inv_head "/") in Hg. exact Hg.
  - apply IH; [intros g Hg; apply Hp; right; exact Hg | exact Hnd].
Qed.

(** The result and the file system after the memory part of
    [loadContextFiles]. *)
Lemma loadMemoryFiles_state memoryDir taskContext maxMemoryFiles w :
  let sorted := sortByScore (candidates memoryDir taskContext w) in
  let sel := selectFiles sorted maxMemoryFiles (taskTermsOf taskContext) in
  let picked := List.filter (fun f => bool_decide (fileName f ∈ sel)) sorted in
  loadMemoryFiles memoryDir true taskContext maxMemoryFiles w
  = (Ok (List.map info_of picked),
     fold_left (fun w f => snd (incrementUsageStat (filePath f) Loaded w)) picked w).
Proof.
  cbv zeta.
  assert (forall A (m : io A) (k : A -> io (list MemoryFileInfo)) a,
            m w = (Ok a, w) -> bind m k w = k a w) as Hbind.
  { intros A m k a H. unfold bind. rewrite H. reflexivity. }
  unfold loadMemoryFiles, try_catch.
  destruct (w !! memoryDir) as [[c r|]|] eqn:Hd.
  - assert (access memoryDir w = (Ok tt, w)) as Ha by (unfold access; rewrite Hd; reflexivity).
    assert (readdir memoryDir w = (Throw, w)) as Hr by (unfold readdir; rewrite Hd; reflexivity).
    rewrite (Hbind _ _ _ _ Ha). unfold bind at 1. rewrite Hr.
    unfold candidates. rewrite Hr. reflexivity.
  - assert (access memoryDir w = (Ok tt, w)) as Ha by (unfold access; rewrite Hd; reflexivity).
    assert (exists names, readdir memoryDir w = (Ok names, w)) as [names Hr]
      by (unfold readdir; rewrite Hd; eauto).
    rewrite (Hbind _ _ _ _ Ha), (Hbind _ _ _ _ Hr).
    rewrite (Hbind _ _ _ _ (scoring_loop memoryDir (taskTermsOf taskContext) w _ [])).
    rewrite loading_loop_state.
    unfold candidates. rewrite Hr. reflexivity.
  - assert (access memoryDir w = (Throw, w)) as Ha by (unfold access; rewrite Hd; reflexivity).
    assert (readdir memoryDir w = (Throw, w)) as Hr by (unfold readdir; rewrite Hd; reflexivity).
    unfold bind at 1. rewrite Ha.
    unfold candidates. rewrite Hr. reflexivity.
Qed.

(** X11. A call of [loadContextFiles] changes, in the file system, the
    files that it returns and nothing else.  Each returned file was a
    readable file of the memory folder; the content returned is the body
    read before the call; and the file is rewritten once, as
    [incrementUsageStat] rewrites its former content for the counter
    [loaded]. *)
Theorem loadMemoryFiles_effect (memoryDir : string) (taskContext : option TaskContext)
    (maxMemoryFiles : Z) (w : fs) :
  exists memoryFiles w',
    loadMemoryFiles memoryDir true taskContext maxMemoryFiles w = (Ok memoryFiles, w')
    /\ (forall p, ~ In p (List.map path memoryFiles) -> w' !! p = w !! p)
    /\ Forall
         (fun info =>
            exists c,
              path info = path_join memoryDir (name info)
              /\ w !! path info = Some (File c true)
              /\ mf_content info = body (parseFrontmatter c)
              /\ w' !! path info = Some (File (bumped_content Loaded c) true))
         memoryFiles.
Proof.
  pose proof (loadMemoryFiles_state memoryDir taskContext maxMemoryFiles w) as Hrun.
  cbv zeta in Hrun.
  set (sorted := sortByScore (candidates memoryDir taskContext w)) in *.
  set (sel := selectFiles sorted maxMemoryFiles (taskTermsOf taskContext)) in *.
  set (picked := List.filter (fun f => bool_decide (fileName f ∈ sel)) sorted) in *.
  assert (forall f, In f picked -> In f (candidates memoryDir taskContext w)) as Hcand.
  { intros f Hf. apply filter_In in Hf as [Hf _].
    eapply Permutation_in; [apply sortByScore_perm | exact Hf]. }
  assert (NoDup (List.map filePath picked)) as Hnd.
  { apply (paths_NoDup memoryDir).
    - intros f Hf. apply (candidates_files memoryDir taskContext w f (Hcand f Hf)).
    - apply picked_names_NoDup, sorted_names_NoDup. }
  eexists _, _. split; [exact Hrun|]. split.
  - intros p Hp. apply increments_frame. rewrite List.map_map in Hp. exact Hp.
  - apply List.Forall_forall. intros info Hinfo. apply in_map_iff in Hinfo as (f & <- & Hf).
    destruct (candidates_files memoryDir taskContext w f (Hcand f Hf)) as (Hpath & c & Hc & Hb).
    exists c. cbn [path name mf_content info_of].
    split; [exact Hpath|]. split; [exact Hc|]. split; [exact Hb|].
    apply increments_once; assumption.
Qed.

End LoadFacts.

(** ** Two calls under the lock, in every order of completion *)

Module TwoCalls.
Import Codec Fs Memory Lock MemoryFacts LockFacts.

Lemma complete_io_none st i : calls st !! i = None -> complete_io st i = st.
Proof. intros H. unfold complete_io. rewrite H. reflexivity. Qed.

Section SameFile.
Variables (p : string) (stat1 stat2 : StatName) (w : fs) (c : string).
Hypothesis Hc : w !! p = Some (File c true).

Lemma two_calls_chain :
  exists S0 S1 S2 S3 S4 : state,
    issue_all (init w [(p, stat1); (p, stat2)]) = S0
    /\ (forall i, microtasks (complete_io S0 i) = S0 \/ microtasks (complete_io S0 i) = S1)
    /\ (forall i, microtasks (complete_io S1 i) = S1 \/ microtasks (complete_io S1 i) = S2)
    /\ (forall i, microtasks (complete_io S2 i) = S2 \/ microtasks (complete_io S2 i) = S3)
    /\ (forall i, microtasks (complete_io S3 i) = S3 \/ microtasks (complete_io S3 i) = S4)
    /\ (forall i, microtasks (complete_io S4 i) = S4)
    /\ all_finished S0 = false /\ all_finished S1 = false
    /\ all_finished S2 = false /\ all_finished S3 = false
    /\ files S4 = <[p := File (bumped_content stat2 (bumped_content stat1 c)) true]> w
    /\ fileLocks S4 = ∅.
Proof.
  eexists _, _, _, _, _.
  split; [lock_simpl; reflexivity|].
  split.
  { intros [|[|i]].
    - right. repeat lock_next. reflexivity.
    - left. repeat lock_next. reflexivity.
    - left. rewrite complete_io_none by reflexivity. repeat lock_next. reflexivity. }
  split.
  { intros [|[|i]].
    - right. repeat lock_next. reflexivity.
    - left. repeat lock_next. reflexivity.
    - left. rewrite complete_io_none by reflexivity. repeat lock_next. reflexivity. }
  split.
  { intros [|[|i]].
    - left. repeat lock_next. reflexivity.
    - right. repeat lock_next. reflexivity.
    - left. rewrite complete_io_none by reflexivity. repeat lock_next. reflexivity. }
  split.
  { intros [|[|i]].
    - left. repeat lock_next. reflexivity.
    - right. repeat lock_next. reflexivity.
    - left. rewrite complete_io_none by reflexivity. repeat lock_next. reflexivity. }
  split.
  { intros [|[|i]].
    - repeat lock_next. reflexivity.
    - repeat lock_next. reflexivity.
    - rewrite complete_io_none by reflexivity. repeat lock_next. reflexivity. }
  repeat split.
Qed.

(** X12. Two calls of [incrementUsageStat] on the same readable file are
    issued in the same turn.  In whatever order file operations are
    reported as complete, once both calls have finished the file holds what
    the second call makes of what the first call wrote - both updates, as
    if the calls had been made one after the other - and no lock is left. *)
Theorem two_calls_serialized (schedule : list nat) :
  let st := run schedule (init w [(p, stat1); (p, stat2)]) in
  all_finished st = true ->
  files st = <[p := File (bumped_content stat2 (bumped_content stat1 c)) true]> w
  /\ files st
     = snd (incrementUsageStat p stat2 (snd (incrementUsageStat p stat1 w)))
  /\ fileLocks st = ∅.
Proof.
  cbv zeta. unfold run.
  destruct two_calls_chain
    as (S0 & S1 & S2 & S3 & S4 & -> & H0 & H1 & H2 & H3 & H4 & F0 & F1 & F2 & F3 & Hfiles & Hlocks).
  assert (forall sched st, In st [S0; S1; S2; S3; S4] ->
            In (fold_left (fun st i => microtasks (complete_io st i)) sched st)
               [S0; S1; S2; S3; S4]) as Hinv.
  { induction sched as [|i sched IH]; intros st Hst; [exact Hst|].
    simpl fold_left. apply IH.
    destruct Hst as [<-|[<-|[<-|[<-|[<-|[]]]]]].
    - destruct (H0 i) as [->| ->]; simpl; auto.
    - destruct (H1 i) as [->| ->]; simpl; auto.
    - destruct (H2 i) as [->| ->]; simpl; auto.
    - destruct (H3 i) as [->| ->]; simpl; auto 6.
    - rewrite H4. simpl. auto 6. }
  intros Hfin.
  assert (fold_left (fun st i => microtasks (complete_io st i)) schedule S0 = S4) as ->.
  { destruct (Hinv schedule S0 (or_introl eq_refl)) as [E|[E|[E|[E|[E|[]]]]]];
      rewrite <- E in Hfin; congruence. }
  split; [exact Hfiles|]. split; [|exact Hlocks].
  rewrite Hfiles, (incrementUsageStat_readable p stat1 w c Hc). simpl.
  rewrite (incrementUsageStat_readable p stat2 _ (bumped_content stat1 c))
    by apply lookup_insert_eq.
  simpl. rewrite insert_insert_eq. reflexivity.
Qed.

End SameFile.

Lemma two_calls_serialized_witness :
  let st := run [0; 1; 0; 1; 1] (init Samples.auth_fs
                 [(Samples.auth_path, Loaded); (Samples.auth_path, Referenced)]) in
  all_finished st = true
  /\ files st
     = snd (incrementUsageStat Samples.auth_path Referenced
              (snd (incrementUsageStat Samples.auth_path Loaded Samples.auth_fs))).
Proof.
  cbv zeta.
  assert (all_finished (run [0; 1; 0; 1; 1] (init Samples.auth_fs
            [(Samples.auth_path, Loaded); (Samples.auth_path, Referenced)])) = true) as H
    by (vm_compute; reflexivity).
  split; [exact H|].
  apply (two_calls_serialized Samples.auth_path Loaded Referenced Samples.auth_fs
           Samples.auth_file); [vm_compute; reflexivity | exact H].
Defined.

(** Symbolic execution with two paths. *)
Ltac lock_simpl2 :=
  repeat first
    [ progress (unfold complete_io, start, resume, acquire, release, set_pc,
                 readFile, writeFile, microtasks, issue_all, indices, init)
    | progress (cbn [files fileLocks settled fresh calls c_path c_stat c_pc map
                     fold_left seq lookup list_lookup alter list_alter length fst snd])
    | rewrite lookup_empty
    | rewrite lookup_insert_eq
    | rewrite lookup_insert_ne by congruence
    | rewrite lookup_delete_eq
    | rewrite lookup_delete_ne by congruence
    | rewrite delete_insert_eq
    | rewrite insert_insert_eq
    | rewrite delete_empty
    | match goal with H : _ !! _ = _ |- _ => rewrite H end
    | rewrite bool_decide_eq_true_2 by set_solver
    | rewrite bool_decide_eq_false_2 by set_solver ].

Ltac lock_eval2 t :=
  let H := fresh "E" in
  eassert (t = _) as H by (lock_simpl2; reflexivity);
  rewrite H; clear H.

Ltac lock_next2 :=
  match goal with
  | |- context [issue_all (init ?w ?r)] => lock_eval2 (issue_all (init w r))
  | |- context [complete_io (mkState ?f ?l ?s ?n ?cs) ?i] =>
      lock_eval2 (complete_io (mkState f l s n cs) i)
  | |- context [microtasks (mkState ?f ?l ?s ?n ?cs)] =>
      lock_eval2 (microtasks (mkState f l s n cs))
  end.

Ltac lock_step2 :=
  first [ rewrite complete_io_none by reflexivity; repeat lock_next2
        | repeat lock_next2 ].

Section TwoFiles.
Variables (p1 p2 : string) (stat1 stat2 : StatName) (w : fs) (c1 c2 : string).
Hypothesis Hne : p1 <> p2.
Hypothesis Hc1 : w !! p1 = Some (File c1 true).
Hypothesis Hc2 : w !! p2 = Some (File c2 true).

Ltac map_same p1 p2 :=
  let k := fresh "k" in
  let E1 := fresh "E" in
  let E2 := fresh "E" in
  apply map_eq; intros k;
  destruct (decide (k = p1)) as [E1|E1]; destruct (decide (k = p2)) as [E2|E2];
  try (exfalso; congruence);
  try rewrite E1; try rewrite E2;
  repeat first [ rewrite lookup_insert_eq
               | rewrite lookup_insert_ne by congruence
               | rewrite lookup_delete_eq
               | rewrite lookup_delete_ne by congruence
               | rewrite lookup_empty ];
  reflexivity.

Ltac same_state p1 p2 :=
  first [ reflexivity
        | f_equal; first [reflexivity | map_same p1 p2 | set_solver] ].

Lemma two_files_grid :
  exists S00 S10 S20 S01 S11 S21 S02 S12 S22 : state,
    issue_all (init w [(p1, stat1); (p2, stat2)]) = S00
    /\ (forall i, In (microtasks (complete_io S00 i)) [S00; S10; S01])
    /\ (forall i, In (microtasks (complete_io S10 i)) [S10; S20; S11])
    /\ (forall i, In (microtasks (complete_io S01 i)) [S01; S11; S02])
    /\ (forall i, In (microtasks (complete_io S20 i)) [S20; S21])
    /\ (forall i, In (microtasks (complete_io S11 i)) [S11; S21; S12])
    /\ (forall i, In (microtasks (complete_io S02 i)) [S02; S12])
    /\ (forall i, In (microtasks (complete_io S21 i)) [S21; S22])
    /\ (forall i, In (microtasks (complete_io S12 i)) [S12; S22])
    /\ (forall i, microtasks (complete_io S22 i) = S22)
    /\ all_finished S00 = false /\ all_finished S10 = false /\ all_finished S20 = false
    /\ all_finished S01 = false /\ all_finished S11 = false /\ all_finished S21 = false
    /\ all_finished S02 = false /\ all_finished S12 = false
    /\ files S22
       = <[p2 := File (bumped_content stat2 c2) true]>
           (<[p1 := File (bumped_content stat1 c1) true]> w)
    /\ fileLocks S22 = ∅.
Proof.
  assert (p2 <> p1) as Hne' by congruence.
  eexists _, _, _, _, _, _, _, _, _.
  split; [lock_simpl2; reflexivity|].
  split.
  { intros [|[|i]].
    - right; left. lock_step2. reflexivity.
    - right; right; left. lock_step2. reflexivity.
    - left. lock_step2. reflexivity. }
  split.
  { intros [|[|i]].
    - right; left. lock_step2. reflexivity.
    - right; right; left. lock_step2. reflexivity.
    - left. lock_step2. reflexivity. }
  split.
  { intros [|[|i]].
    - right; left. lock_step2. same_state p1 p2.
    - right; right; left. lock_step2. reflexivity.
    - left. lock_step2. reflexivity. }
  split.
  { intros [|[|i]].
    - left. lock_step2. reflexivity.
    - right; left. lock_step2. reflexivity.
    - left. lock_step2. reflexivity. }
  split.
  { intros [|[|i]].
    - right; left. lock_step2. same_state p1 p2.
    - right; right; left. lock_step2. same_state p1 p2.
    - left. lock_step2. reflexivity. }
  split.
  { intros [|[|i]].
    - right; left. lock_step2. same_state p1 p2.
    - left. lock_step2. reflexivity.
    - left. lock_step2. reflexivity. }
  split.
  { intros [|[|i]].
    - left. lock_step2. reflexivity.
    - right; left. lock_step2. reflexivity.
    - left. lock_step2. reflexivity. }
  split.
  { intros [|[|i]].
    - right; left. lock_step2. same_state p1 p2.
    - left. lock_step2. reflexivity.
    - left. lock_step2. reflexivity. }
  split.
  { intros [|[|i]]; lock_step2; reflexivity. }
  repeat split; try reflexivity.
  cbn [fileLocks]. map_same p1 p2.
Qed.

(** X13. Two calls of [incrementUsageStat] on two different readable
    files are issued in the same turn.  Neither waits for the other: both
    enter their reads at once.  In whatever order the file operations
    complete, once both calls have finished each file holds its own update
    and no lock is left. *)
Theorem two_files_independent (schedule : list nat) :
  let st0 := init w [(p1, stat1); (p2, stat2)] in
  pcs (issue_all st0) = [Reading 0; Reading 1]
  /\ (all_finished (run schedule st0) = true ->
      files (run schedule st0)
      = <[p2 := File (bumped_content stat2 c2) true]>
          (<[p1 := File (bumped_content stat1 c1) true]> w)
      /\ fileLocks (run schedule st0) = ∅).
Proof.
  cbv zeta. split; [lock_simpl2; reflexivity|].
  unfold run.
  destruct two_files_grid
    as (S00 & S10 & S20 & S01 & S11 & S21 & S02 & S12 & S22 & -> & H00 & H10 & H01 & H20
        & H11 & H02 & H21 & H12 & H22 & F00 & F10 & F20 & F01 & F11 & F21 & F02 & F12
        & Hfiles & Hlocks).
  set (all := [S00; S10; S20; S01; S11; S21; S02; S12; S22]).
  assert (forall sched st, In st all ->
            In (fold_left (fun st i => microtasks (complete_io st i)) sched st) all) as Hinv.
  { induction sched as [|i sched IH]; intros st Hst; [exact Hst|].
    simpl fold_left. apply IH. unfold all in *. simpl in Hst.
    destruct Hst as [<-|[<-|[<-|[<-|[<-|[<-|[<-|[<-|[<-|[]]]]]]]]]].
    - specialize (H00 i). simpl in *. intuition.
    - specialize (H10 i). simpl in *. intuition.
    - specialize (H20 i). simpl in *. intuition.
    - specialize (H01 i). simpl in *. intuition.
    - specialize (H11 i). simpl in *. intuition.
    - specialize (H21 i). simpl in *. intuition.
    - specialize (H02 i). simpl in *. intuition.
    - specialize (H12 i). simpl in *. intuition.
    - rewrite H22. simpl. intuition. }
  intros Hfin.
  assert (fold_left (fun st i => microtasks (complete_io st i)) schedule S00 = S22) as ->.
  { specialize (Hinv schedule S00 (or_introl eq_refl)). unfold all in Hinv. simpl in Hinv.
    destruct Hinv as [E|[E|[E|[E|[E|[E|[E|[E|[E|[]]]]]]]]]];
      rewrite <- E in Hfin; congruence. }
  split; [exact Hfiles | exact Hlocks].
Qed.

End TwoFiles.

Lemma two_files_independent_witness :
  let st0 := init Samples.gotchas_fs
               [(Fs.path_join Samples.memory_dir "gotchas.md", Loaded);
                (Fs.path_join Samples.memory_dir "schema.md", Loaded)] in
  all_finished (run [1; 0; 0; 1] st0) = true
  /\ files (run [1; 0; 0; 1] st0)
     = <[Fs.path_join Samples.memory_dir "schema.md"
           := File (bumped_content Loaded Samples.database_file) true]>
         (<[Fs.path_join Samples.memory_dir "gotchas.md"
              := File (bumped_content Loaded Samples.gotchas_file) true]> Samples.gotchas_fs).
Proof.
  cbv zeta.
  assert (all_finished (run [1; 0; 0; 1] (init Samples.gotchas_fs
            [(Fs.path_join Samples.memory_dir "gotchas.md", Loaded);
             (Fs.path_join Samples.memory_dir "schema.md", Loaded)])) = true) as H
    by (vm_compute; reflexivity).
  split; [exact H|].
  apply (two_files_independent
           (Fs.path_join Samples.memory_dir "gotchas.md")
           (Fs.path_join Samples.memory_dir "schema.md") Loaded Loaded Samples.gotchas_fs
           Samples.gotchas_file Samples.database_file).
  - vm_compute. discriminate.
  - vm_compute. reflexivity.
  - vm_compute. reflexivity.
  - exact H.
Defined.

End TwoCalls.

(** ** Usage recording *)

Module UsageFacts.
Import Codec Scoring Fs Memory Loader Header Usage StrFacts MemoryFacts HeaderFacts LoaderFacts
       LoadFacts.

Lemma increment_dom p stat (w : fs) : dom (snd (incrementUsageStat p stat w)) = dom w.
Proof.
  destruct (w !! p) as [[c [|]|]|] eqn:E.
  - rewrite (incrementUsageStat_readable p stat w c E). simpl.
    rewrite dom_insert_L. apply elem_of_dom_2 in E. set_solver.
  - rewrite (incrementUsageStat_unreadable p stat w) by congruence. reflexivity.
  - rewrite (incrementUsageStat_unreadable p stat w) by congruence. reflexivity.
  - rewrite (incrementUsageStat_unreadable p stat w) by congruence. reflexivity.
Qed.

Lemma increment_run p stat w :
  incrementUsageStat p stat w = (Ok tt, snd (incrementUsageStat p stat w)).
Proof. destruct (incrementUsageStat_returns p stat w) as [w' ->]. reflexivity. Qed.

(** The file system after one turn of the loop. *)
Lemma recordFile_run memoryDir agentOutput success file w :
  recordFile memoryDir agentOutput success file w
  = (Ok tt, snd (recordFile memoryDir agentOutput success file w)).
Proof.
  unfold recordFile. destruct (wasReferenced _ _); [|reflexivity].
  unfold bind. rewrite (increment_run _ Referenced w). cbv beta iota.
  destruct success; [|reflexivity]. simpl. rewrite increment_run. reflexivity.
Qed.

Lemma recordFile_skip memoryDir agentOutput success file w :
  wasReferenced (smf_content file) agentOutput = false ->
  snd (recordFile memoryDir agentOutput success file w) = w.
Proof. intros H. unfold recordFile. rewrite H. reflexivity. Qed.

Lemma recordFile_other memoryDir agentOutput success file w p :
  p <> path_join memoryDir (smf_name file) ->
  snd (recordFile memoryDir agentOutput success file w) !! p = w !! p.
Proof.
  intros Hp. unfold recordFile. destruct (wasReferenced _ _); [|reflexivity].
  unfold bind. rewrite (increment_run _ Referenced w). cbv beta iota.
  destruct success; simpl; rewrite ?increment_other by exact Hp; reflexivity.
Qed.

Lemma recordFile_dom memoryDir agentOutput success file (w : fs) :
  dom (snd (recordFile memoryDir agentOutput success file w)) = dom w.
Proof.
  unfold recordFile. destruct (wasReferenced _ _); [|reflexivity].
  unfold bind. rewrite (increment_run _ Referenced w). cbv beta iota.
  destruct success; simpl; rewrite ?increment_dom; reflexivity.
Qed.

(** The metadata after the recording of a referenced file. *)
Lemma recordFile_plain memoryDir agentOutput success file w m text :
  wasReferenced (smf_content file) agentOutput = true ->
  plain_metadata m = true -> leading_blank_line text = false ->
  w !! path_join memoryDir (smf_name file) = Some (File (file_of m text) true) ->
  snd (recordFile memoryDir agentOutput success file w)
  = <[path_join memoryDir (smf_name file)
        := File (file_of (if success then bump SuccessfulFeatures (bump Referenced m)
                          else bump Referenced m) text) true]> w.
Proof.
  intros Href Hm Ht Hw. unfold recordFile. rewrite Href. unfold bind.
  rewrite (incrementUsageStat_readable _ Referenced w _ Hw), (bumped_plain _ m text Hm Ht).
  destruct success; [|reflexivity].
  rewrite (incrementUsageStat_readable _ SuccessfulFeatures _ (file_of (bump Referenced m) text))
    by apply lookup_insert_eq.
  rewrite (bumped_plain _ _ text) by (try rewrite plain_bump; assumption).
  simpl. rewrite insert_insert_eq. reflexivity.
Qed.

Lemma record_loop memoryDir agentOutput success loadedFiles : forall w,
  for_of loadedFiles (fun file _ => recordFile memoryDir agentOutput success file) tt w
  = (Ok tt,
     fold_left (fun w file => snd (recordFile memoryDir agentOutput success file w))
               loadedFiles w).
Proof.
  induction loadedFiles as [|f l IH]; intros w; [reflexivity|].
  simpl. unfold bind at 1. rewrite recordFile_run. apply IH.
Qed.

(** X14. [recordMemoryUsage] returns normally on every file system and for
    every input.  It neither creates nor removes a path, and the only paths
    whose node it can change are those of the listed files that count as
    referenced (at least three of the terms of the file content, with
    repetitions, occur among the terms of the output); in particular,
    when no listed file counts as referenced the file system is left as it
    was. *)
Theorem recordMemoryUsage_touches (projectPath : string) (loadedFiles : list SimpleMemoryFile)
    (agentOutput : string) (success : bool) (w : fs) :
  exists w',
    recordMemoryUsage projectPath loadedFiles agentOutput success w = (Ok tt, w')
    /\ dom w' = dom w
    /\ (forall p,
          (forall file, In file loadedFiles ->
             wasReferenced (smf_content file) agentOutput = true ->
             p <> path_join (getMemoryDir projectPath) (smf_name file)) ->
          w' !! p = w !! p)
    /\ ((forall file, In file loadedFiles ->
           wasReferenced (smf_content file) agentOutput = false) -> w' = w).
Proof.
  unfold recordMemoryUsage. eexists. split; [apply record_loop|].
  set (dir := getMemoryDir projectPath). clearbody dir.
  revert w. induction loadedFiles as [|f l IH]; intros w; simpl.
  - repeat split.
  - destruct (IH (snd (recordFile dir agentOutput success f w))) as (Hdom & Hframe & Hnone).
    split; [rewrite Hdom; apply recordFile_dom|]. split.
    + intros p Hp. rewrite Hframe by (intros g Hg; apply Hp; right; exact Hg).
      destruct (wasReferenced (smf_content f) agentOutput) eqn:E.
      * apply recordFile_other. apply Hp; [left; reflexivity | exact E].
      * rewrite recordFile_skip by exact E. reflexivity.
    + intros Hall. rewrite Hnone by (intros g Hg; apply Hall; right; exact Hg).
      apply recordFile_skip. apply Hall. left. reflexivity.
Qed.

Lemma fold_record_other dir agentOutput success l p : forall w,
  (forall g, In g l -> p <> path_join dir (smf_name g)) ->
  fold_left (fun w file => snd (recordFile dir agentOutput success file w)) l w !! p = w !! p.
Proof.
  induction l as [|g l IH]; intros w Hp; simpl; [reflexivity|].
  rewrite IH by (intros h Hh; apply Hp; right; exact Hh).
  apply recordFile_other. apply Hp. left. reflexivity.
Qed.

Lemma join_name_inj dir a b : path_join dir a = path_join dir b -> a = b.
Proof.
  unfold path_join. intros H. apply append_inv_head in H.
  apply (append_inv_head "/") in H. exact H.
Qed.

(** X15. The files of the list have distinct names.  A listed file counts
    as referenced, and in the memory folder it is a file that the
    serializer wrote for a plain metadata, with a body that does not start
    with a blank line, whose counters are below 2^53 and stay so when one
    is added.  Then after [recordMemoryUsage] the file is the
    serialization of the same metadata with [referenced] one higher and,
    when the feature succeeded, [successfulFeatures] one higher, followed
    by the same body; [loaded] is as before, the counters are still below
    2^53, and a file in which [successfulFeatures] did not exceed
    [referenced] is still so. *)
Theorem recordMemoryUsage_counts (projectPath : string) (loadedFiles : list SimpleMemoryFile)
    (agentOutput : string) (success : bool) (w : fs) (file : SimpleMemoryFile)
    (m : MemoryMetadata) (text : string) :
  NoDup (List.map smf_name loadedFiles) ->
  In file loadedFiles ->
  wasReferenced (smf_content file) agentOutput = true ->
  plain_metadata m = true -> leading_blank_line text = false ->
  safe_stats (usageStats m) = true ->
  (referenced (usageStats m) + 1 < 2 ^ 53)%N ->
  (successfulFeatures (usageStats m) + 1 < 2 ^ 53)%N ->
  w !! path_join (getMemoryDir projectPath) (smf_name file)
    = Some (File (file_of m text) true) ->
  exists w' m',
    recordMemoryUsage projectPath loadedFiles agentOutput success w = (Ok tt, w')
    /\ w' !! path_join (getMemoryDir projectPath) (smf_name file)
       = Some (File (file_of m' text) true)
    /\ parseFrontmatter (file_of m' text) = {| metadata := m'; body := text |}
    /\ referenced (usageStats m') = (referenced (usageStats m) + 1)%N
    /\ successfulFeatures (usageStats m')
       = (successfulFeatures (usageStats m) + (if success then 1 else 0))%N
    /\ loaded (usageStats m') = loaded (usageStats m)
    /\ safe_stats (usageStats m') = true
    /\ ((successfulFeatures (usageStats m) <= referenced (usageStats m))%N ->
        (successfulFeatures (usageStats m') <= referenced (usageStats m'))%N).
Proof.
  intros Hnd Hin Href Hm Ht Hsafe Hroom1 Hroom2 Hw.
  apply safe_stats_iff in Hsafe as (Hsl & Hsr & Hss).
  set (m' := if success then bump SuccessfulFeatures (bump Referenced m)
             else bump Referenced m).
  assert (plain_metadata m' = true) as Hm' by (unfold m'; destruct success; exact Hm).
  unfold recordMemoryUsage. eexists _, m'. split; [apply record_loop|].
  split.
  - set (dir := getMemoryDir projectPath) in *. clearbody dir.
    revert w Hw. induction loadedFiles as [|g l IH]; intros w Hw; [destruct Hin|].
    simpl in Hnd. apply NoDup_cons in Hnd as [Hg Hnd]. simpl.
    destruct Hin as [->|Hin].
    + rewrite fold_record_other.
      * rewrite (recordFile_plain dir agentOutput success file w m text Href Hm Ht Hw).
        apply lookup_insert_eq.
      * intros h Hh E. apply join_name_inj in E. apply Hg. rewrite E.
        apply list_elem_of_In, in_map. exact Hh.
    + apply IH; [exact Hnd | exact Hin|].
      rewrite recordFile_other; [exact Hw|].
      intros E. apply join_name_inj in E. apply Hg. rewrite <- E.
      apply list_elem_of_In, in_map. exact Hin.
  - split; [apply parse_plain_file; assumption|].
    unfold m'. destruct m as [tg sm rt im rf [l r s]].
    cbn [usageStats loaded referenced successfulFeatures] in Hsl, Hsr, Hss, Hroom1, Hroom2.
    destruct success; simpl.
    + split; [reflexivity|]. split; [reflexivity|]. split; [reflexivity|].
      split; [apply safe_stats_iff; repeat split; assumption | lia].
    + split; [reflexivity|]. split; [lia|]. split; [reflexivity|].
      split; [apply safe_stats_iff; repeat split; assumption | lia].
Qed.

Lemma recordMemoryUsage_counts_witness :
  exists w' m',
    recordMemoryUsage "/project" [Scenarios.auth_loaded] Scenarios.auth_output true Samples.auth_fs
    = (Ok tt, w')
    /\ w' !! Samples.auth_path = Some (File (file_of m' "Use RS256 for signing") true)
    /\ referenced (usageStats m') = 1%N
    /\ successfulFeatures (usageStats m') = 1%N
    /\ loaded (usageStats m') = 4%N.
Proof.
  destruct (recordMemoryUsage_counts "/project" [Scenarios.auth_loaded] Scenarios.auth_output
              true Samples.auth_fs Scenarios.auth_loaded Samples.auth_metadata
              "Use RS256 for signing")
    as (w' & m' & Hrun & Hfile & _ & Href & Hsucc & Hloaded & _).
  - apply NoDup_singleton.
  - left. reflexivity.
  - vm_compute. reflexivity.
  - reflexivity.
  - reflexivity.
  - reflexivity.
  - reflexivity.
  - reflexivity.
  - reflexivity.
  - exists w', m'. split; [exact Hrun|]. split; [exact Hfile|].
    split; [exact Href|]. split; [exact Hsucc | exact Hloaded].
Defined.

End UsageFacts.

(** ** The starter files and the first load of a project *)

Module FolderFacts.
Import Codec Scoring Fs Memory Loader Spec Header Folder Context StrFacts MemoryFacts HeaderFacts
       LoaderFacts LoadFacts UsageFacts.

Lemma path_join_ne dir n : path_join dir n <> dir.
Proof.
  unfold path_join. intros H. apply (f_equal String.length) in H.
  rewrite !length_app in H. simpl in H. lia.
Qed.

Lemma path_join_prefix dir n : String.prefix dir (path_join dir n) = true.
Proof. apply prefix_app. Qed.

Lemma index_file : indexContent = file_of indexMetadata (Str.drop 1 indexText).
Proof. vm_compute. reflexivity. Qed.

Lemma gotchas_file : gotchasContent = file_of gotchasMetadata (Str.drop 1 gotchasText).
Proof. vm_compute. reflexivity. Qed.

Lemma parse_index :
  parseFrontmatter indexContent
  = {| metadata := indexMetadata; body := Str.drop 1 indexText |}.
Proof. rewrite index_file. apply parse_plain_file; reflexivity. Qed.

Lemma parse_gotchas :
  parseFrontmatter gotchasContent
  = {| metadata := gotchasMetadata; body := Str.drop 1 gotchasText |}.
Proof. rewrite gotchas_file. apply parse_plain_file; reflexivity. Qed.

(** *** The chain of directories that [mkdir] makes *)

Lemma ancestors_from_split pre rest a :
  In a (ancestors_from pre rest) ->
  exists u v, rest = u +:+ v /\ v <> "" /\ a = pre +:+ u.
Proof.
  revert pre. induction rest as [|c rest IH]; intros pre H; [destruct H|].
  cbn [ancestors_from] in H. apply in_app_or in H as [H|H].
  - destruct (Chr.is_char "/" c && negb (String.eqb pre ""))%bool; [|destruct H].
    destruct H as [<-|[]]. exists "", (String c rest).
    split; [reflexivity|]. split; [discriminate|]. rewrite app_nil_r. reflexivity.
  - destruct (IH _ H) as (u & v & -> & Hv & ->). exists (String c u), v.
    split; [reflexivity|]. split; [exact Hv|]. rewrite app_assoc. reflexivity.
Qed.

Lemma ancestor_shorter p a : In a (ancestors p) -> String.length a < String.length p.
Proof.
  intros H. destruct (ancestors_from_split "" p a H) as (u & v & -> & Hv & ->).
  rewrite app_nil_l, length_app. destruct v; [congruence | simpl; lia].
Qed.

Lemma prefix_longer l s : String.prefix l s = true -> String.length l <= String.length s.
Proof.
  intros H. apply prefix_inv in H as [t ->]. rewrite length_app. lia.
Qed.

(** A path at or below [p] is not an ancestor of [p]. *)
Lemma below_not_ancestor p q : String.prefix p q = true -> ~ In q (ancestors p).
Proof.
  intros Hq Hin. apply prefix_longer in Hq. apply ancestor_shorter in Hin. lia.
Qed.

Lemma prefix_refl p : String.prefix p p = true.
Proof. rewrite <- (app_nil_r p) at 2. apply prefix_app. Qed.

Lemma make_dirs_lookup chain : forall (w : fs) q,
  List.fold_left make_dir chain w !! q
  = match w !! q with
    | Some node => Some node
    | None => if bool_decide (q ∈ chain) then Some Dir else None
    end.
Proof.
  induction chain as [|a chain IH]; intros w q; simpl fold_left.
  - destruct (w !! q); reflexivity.
  - rewrite IH. unfold make_dir.
    destruct (decide (a = q)) as [->|Hne].
    + destruct (w !! q) as [node|] eqn:Hq; [rewrite Hq; reflexivity|].
      rewrite lookup_insert_eq, bool_decide_eq_true_2 by apply list_elem_of_here.
      reflexivity.
    + assert ((match w !! a with None => <[a:=Dir]> w | Some _ => w end) !! q = w !! q) as ->.
      { destruct (w !! a); [reflexivity | apply lookup_insert_ne; exact Hne]. }
      destruct (w !! q); [reflexivity|].
      apply f_equal with (f := fun b : bool => if b then Some Dir else None).
      apply bool_decide_ext. rewrite elem_of_cons. split; [intros H; right; exact H|].
      intros [H|H]; [congruence | exact H].
Qed.

(** [mkdir] on a missing path none of whose ancestors is a file. *)
Lemma mkdir_missing p (w : fs) :
  w !! p = None ->
  (forall a, In a (ancestors p) -> is_file (w !! a) = false) ->
  exists w1,
    mkdir p w = (Ok tt, w1)
    /\ w1 !! p = Some Dir
    /\ (forall a, In a (ancestors p) -> w1 !! a = Some Dir)
    /\ (forall q, q <> p -> ~ In q (ancestors p) -> w1 !! q = w !! q).
Proof.
  intros Hp Hanc. unfold mkdir.
  assert (List.existsb (fun a => is_file (w !! a)) (ancestors p ++ [p]) = false) as ->.
  { rewrite List.existsb_app. simpl. rewrite Hp. simpl. rewrite orb_false_r.
    destruct (List.existsb (fun a => is_file (w !! a)) (ancestors p)) eqn:E; [|reflexivity].
    apply existsb_exists in E as (a & Ha & Hf). rewrite (Hanc a Ha) in Hf. discriminate. }
  eexists. split; [reflexivity|]. split; [|split].
  - rewrite make_dirs_lookup, Hp.
    rewrite bool_decide_eq_true_2
      by (apply list_elem_of_In, in_or_app; right; left; reflexivity).
    reflexivity.
  - intros a Ha. rewrite make_dirs_lookup.
    specialize (Hanc a Ha). destruct (w !! a) as [[c r|]|]; [discriminate | reflexivity|].
    rewrite bool_decide_eq_true_2 by (apply list_elem_of_In, in_or_app; left; exact Ha).
    reflexivity.
  - intros q Hq Hnot. rewrite make_dirs_lookup. destruct (w !! q); [reflexivity|].
    rewrite bool_decide_eq_false_2; [reflexivity|].
    intros H. apply list_elem_of_In, in_app_or in H as [H|[H|[]]];
      [exact (Hnot H) | congruence].
Qed.

Lemma mkdir_blocked p (w : fs) a :
  In a (ancestors p) -> is_file (w !! a) = true -> mkdir p w = (Throw, w).
Proof.
  intros Ha Hf. unfold mkdir.
  assert (List.existsb (fun a => is_file (w !! a)) (ancestors p ++ [p]) = true) as ->;
    [|reflexivity].
  apply existsb_exists. exists a. split; [apply in_or_app; left; exact Ha | exact Hf].
Qed.

(** The file system that the initialization makes of one without the
    folder. *)
Lemma initialize_missing projectPath (w : fs) :
  let dir := getMemoryDir projectPath in
  w !! dir = None ->
  w !! path_join dir "_index.md" = None ->
  w !! path_join dir "gotchas.md" = None ->
  (forall a, In a (ancestors dir) -> is_file (w !! a) = false) ->
  exists w1,
    initializeMemoryFolder projectPath w
    = (Ok tt,
       <[path_join dir "gotchas.md" := File gotchasContent true]>
         (<[path_join dir "_index.md" := File indexContent true]> w1))
    /\ w1 !! dir = Some Dir
    /\ (forall a, In a (ancestors dir) -> w1 !! a = Some Dir)
    /\ (forall q, q <> dir -> ~ In q (ancestors dir) -> w1 !! q = w !! q).
Proof.
  cbv zeta. intros Hd Hi Hg Hanc.
  destruct (mkdir_missing _ w Hd Hanc) as (w1 & Hmk & Hd1 & Hanc1 & Hframe).
  exists w1. split; [|split; [exact Hd1 | split; [exact Hanc1 | exact Hframe]]].
  assert (forall n, w1 !! path_join (getMemoryDir projectPath) n
                    = w !! path_join (getMemoryDir projectPath) n) as Hchild.
  { intros n. apply Hframe; [apply path_join_ne|].
    apply below_not_ancestor, path_join_prefix. }
  unfold initializeMemoryFolder, try_catch, access, bind.
  rewrite Hd, Hmk. cbv beta iota.
  rewrite (writeFile_create w1 (path_join (getMemoryDir projectPath) "_index.md")).
  - rewrite writeFile_create; [reflexivity| |].
    + rewrite lookup_insert_ne by (intros E; apply join_name_inj in E; discriminate).
      rewrite Hchild. exact Hg.
    + rewrite parent_is_dir_join by (first [reflexivity | apply getMemoryDir_not_empty]).
      rewrite lookup_insert_ne by apply path_join_ne. rewrite Hd1. reflexivity.
  - rewrite Hchild. exact Hi.
  - rewrite parent_is_dir_join by (first [reflexivity | apply getMemoryDir_not_empty]).
    rewrite Hd1. reflexivity.
Qed.

Lemma initialize_existing projectPath (w : fs) :
  w !! getMemoryDir projectPath <> None -> initializeMemoryFolder projectPath w = (Ok tt, w).
Proof.
  intros H. unfold initializeMemoryFolder, try_catch, access.
  destruct (w !! getMemoryDir projectPath); [reflexivity | congruence].
Qed.

Lemma initialize_blocked projectPath (w : fs) a :
  w !! getMemoryDir projectPath = None ->
  In a (ancestors (getMemoryDir projectPath)) -> is_file (w !! a) = true ->
  initializeMemoryFolder projectPath w = (Throw, w).
Proof.
  intros Hd Ha Hf. unfold initializeMemoryFolder, try_catch, access, bind.
  rewrite Hd, (mkdir_blocked _ w a Ha Hf). reflexivity.
Qed.

(** X16. When the memory folder exists, [initializeMemoryFolder] changes
    nothing, even if the starter files are missing.  When the folder is
    missing and one of its ancestors is a file, the call fails and changes
    nothing.  When the folder and the two starter paths are missing and no
    ancestor is a file, the call makes the folder with the ancestors that
    were missing, writes [_index.md] and [gotchas.md], and touches no other
    path; a second call then changes nothing.  Both starter files are read
    back by [parseFrontmatter] with the metadata they were written from
    (importance 0.5 for the index, 0.9 for the gotchas) and with the text
    of the template as body. *)
Theorem initializeMemoryFolder_effect (projectPath : string) (w : fs) :
  let dir := getMemoryDir projectPath in
  let index := path_join dir "_index.md" in
  let gotchas := path_join dir "gotchas.md" in
  (w !! dir <> None -> initializeMemoryFolder projectPath w = (Ok tt, w))
  /\ (w !! dir = None ->
      (exists a, In a (ancestors dir) /\ is_file (w !! a) = true) ->
      initializeMemoryFolder projectPath w = (Throw, w))
  /\ (w !! dir = None -> w !! index = None -> w !! gotchas = None ->
      (forall a, In a (ancestors dir) -> is_file (w !! a) = false) ->
      exists w',
        initializeMemoryFolder projectPath w = (Ok tt, w')
        /\ w' !! dir = Some Dir
        /\ (forall a, In a (ancestors dir) -> w' !! a = Some Dir)
        /\ w' !! index = Some (File indexContent true)
        /\ w' !! gotchas = Some (File gotchasContent true)
        /\ (forall p, p <> dir -> ~ In p (ancestors dir) -> p <> index -> p <> gotchas ->
              w' !! p = w !! p)
        /\ initializeMemoryFolder projectPath w' = (Ok tt, w'))
  /\ parseFrontmatter indexContent
     = {| metadata := indexMetadata; body := Str.drop 1 indexText |}
  /\ parseFrontmatter gotchasContent
     = {| metadata := gotchasMetadata; body := Str.drop 1 gotchasText |}.
Proof.
  cbv zeta. split; [apply initialize_existing|].
  split; [intros Hd (a & Ha & Hf); exact (initialize_blocked projectPath w a Hd Ha Hf)|].
  split; [|split; [apply parse_index | apply parse_gotchas]].
  intros Hd Hi Hg Hanc.
  destruct (initialize_missing projectPath w Hd Hi Hg Hanc) as (w1 & Hrun & Hd1 & Hanc1 & Hframe).
  set (dir := getMemoryDir projectPath) in *.
  assert (path_join dir "gotchas.md" <> path_join dir "_index.md") as Hgi
    by (intros E; apply join_name_inj in E; discriminate).
  eexists. split; [exact Hrun|].
  split.
  { rewrite lookup_insert_ne by apply path_join_ne.
    rewrite lookup_insert_ne by apply path_join_ne. exact Hd1. }
  split.
  { intros a Ha.
    assert (forall n, path_join dir n <> a) as Hne.
    { intros n E. apply (below_not_ancestor dir (path_join dir n));
        [apply path_join_prefix | rewrite E; exact Ha]. }
    rewrite !lookup_insert_ne by apply Hne. exact (Hanc1 a Ha). }
  split.
  { rewrite lookup_insert_ne by exact Hgi. apply lookup_insert_eq. }
  split; [apply lookup_insert_eq|].
  split.
  { intros p H1 H2 H3 H4. rewrite !lookup_insert_ne by congruence. apply Hframe; assumption. }
  apply initialize_existing. fold dir.
  rewrite lookup_insert_ne by apply path_join_ne.
  rewrite lookup_insert_ne by apply path_join_ne.
  rewrite Hd1. discriminate.
Qed.

Lemma initializeMemoryFolder_effect_witness :
  exists w',
    initializeMemoryFolder "/project" ∅ = (Ok tt, w')
    /\ w' !! "/project/.automaker/memory" = Some Dir
    /\ w' !! "/project/.automaker" = Some Dir
    /\ w' !! "/project/.automaker/memory/gotchas.md" = Some (File gotchasContent true)
    /\ initializeMemoryFolder "/project" w' = (Ok tt, w').
Proof.
  destruct (initializeMemoryFolder_effect "/project" ∅) as (_ & _ & H & _).
  destruct H as (w' & Hrun & Hd & Hanc & _ & Hg & _ & Hagain);
    [reflexivity | reflexivity | reflexivity | intros a _; reflexivity |].
  exists w'. split; [exact Hrun|]. split; [exact Hd|].
  split; [apply Hanc; vm_compute; auto|]. split; [exact Hg | exact Hagain].
Defined.

Lemma only_one (a : string) l : NoDup l -> (forall x, In x l -> x = a) -> In a l -> l = [a].
Proof.
  intros Hnd Hall Hin. destruct l as [|x [|y l]]; [destruct Hin| |].
  - rewrite (Hall x (or_introl eq_refl)). reflexivity.
  - exfalso. apply NoDup_cons in Hnd as [Hx _]. apply Hx.
    rewrite (Hall x (or_introl eq_refl)), (Hall y (or_intror (or_introl eq_refl))).
    apply list_elem_of_here.
Qed.

Lemma readdir_names dir (w : fs) names n :
  readdir dir w = (Ok names, w) -> In n names -> exists node, w !! path_join dir n = Some node.
Proof.
  unfold readdir. destruct (w !! dir) as [[|]|]; try discriminate.
  intros [= <-] Hin. apply list_elem_of_In, list_elem_of_omap in Hin as (p & Hp & Hn).
  apply child_name_Some in Hn as ->.
  apply list_elem_of_fmap in Hp as ([q node] & -> & Hq). apply elem_of_map_to_list in Hq.
  exists node. exact Hq.
Qed.

(** X17. A project has no path at or below its memory folder and no
    ancestor of the folder is a file, and [loadContextFiles] is called with
    the defaults ([includeMemory], [initializeMemory]) and a positive
    [maxMemoryFiles], whatever the task.  Then the call makes the folder
    with its two starter files and returns exactly one memory file,
    [gotchas.md] of category [gotchas], with the starter text as content;
    afterwards the [loaded] counter of that file is 1, the index file is as
    written, and no path has changed other than those of the folder and the
    ancestors that were made. *)
Theorem fresh_project_first_load (projectPath : string) (taskContext : option TaskContext)
    (maxMemoryFiles : Z) (w : fs) :
  let dir := getMemoryDir projectPath in
  (0 < maxMemoryFiles)%Z ->
  (forall p, String.prefix dir p = true -> w !! p = None) ->
  (forall a, In a (ancestors dir) -> is_file (w !! a) = false) ->
  exists w',
    loadContextMemory projectPath true true taskContext maxMemoryFiles w
    = (Ok [ {| name := "gotchas.md";
               path := path_join dir "gotchas.md";
               mf_content := Str.drop 1 gotchasText;
               mf_category := "gotchas" |} ], w')
    /\ w' !! path_join dir "gotchas.md"
       = Some (File (file_of (bump Loaded gotchasMetadata) (Str.drop 1 gotchasText)) true)
    /\ loaded (usageStats (metadata (parseFrontmatter
         (file_of (bump Loaded gotchasMetadata) (Str.drop 1 gotchasText))))) = 1%N
    /\ w' !! path_join dir "_index.md" = Some (File indexContent true)
    /\ (forall p, String.prefix dir p = false -> ~ In p (ancestors dir) -> w' !! p = w !! p).
Proof.
  cbv zeta. intros Hmax Hfresh Hanc.
  set (dir := getMemoryDir projectPath) in *.
  set (g := path_join dir "gotchas.md"). set (i := path_join dir "_index.md").
  assert (w !! dir = None) as Hd by (apply Hfresh, prefix_refl).
  assert (w !! i = None) as Hi by (apply Hfresh, path_join_prefix).
  assert (w !! g = None) as Hg by (apply Hfresh, path_join_prefix).
  destruct (initialize_missing projectPath w Hd Hi Hg Hanc)
    as (w0 & Hinit & Hd0 & _ & Hframe).
  fold dir in Hinit, Hd0, Hframe. fold g i in Hinit.
  set (w1 := <[g := File gotchasContent true]> (<[i := File indexContent true]> w0)) in *.
  assert (g <> i) as Hgi by (intros E; apply join_name_inj in E; discriminate).
  assert (w1 !! dir = Some Dir) as Hd1.
  { unfold w1. rewrite lookup_insert_ne by apply path_join_ne.
    rewrite lookup_insert_ne by apply path_join_ne. exact Hd0. }
  assert (w1 !! g = Some (File gotchasContent true)) as Hg1 by apply lookup_insert_eq.
  assert (w1 !! i = Some (File indexContent true)) as Hi1.
  { unfold w1. rewrite lookup_insert_ne by exact Hgi. apply lookup_insert_eq. }
  (* the listing of the folder *)
  destruct (readdir_child dir w1 "gotchas.md" _ Hd1 Hg1 eq_refl) as (names & Hr & Hin).
  assert (List.filter is_memory_file names = ["gotchas.md"]) as Hnames.
  { apply only_one.
    - apply NoDup_ListNoDup, List.NoDup_filter, NoDup_ListNoDup. eapply readdir_NoDup. exact Hr.
    - intros n Hn. apply filter_In in Hn as [Hn Hmd].
      destruct (readdir_names dir w1 names n Hr Hn) as [node Hnode].
      unfold w1 in Hnode.
      destruct (decide (path_join dir n = g)) as [E|N1];
        [apply join_name_inj in E; exact E|].
      rewrite lookup_insert_ne in Hnode by congruence.
      destruct (decide (path_join dir n = i)) as [E|N2].
      { apply join_name_inj in E. subst n. discriminate. }
      rewrite lookup_insert_ne in Hnode by congruence.
      rewrite Hframe in Hnode
        by (first [apply path_join_ne | apply below_not_ancestor, path_join_prefix]).
      rewrite (Hfresh _ (path_join_prefix dir n)) in Hnode. discriminate.
    - apply filter_In. split; [exact Hin | reflexivity]. }
  set (cand := mkScoredFile "gotchas.md" g (Str.drop 1 gotchasText) gotchasMetadata
                 (scoreOf "gotchas.md" gotchasMetadata (taskTermsOf taskContext))).
  assert (candidates dir taskContext w1 = [cand]) as Hcands.
  { unfold candidates. rewrite Hr, Hnames. simpl omap. unfold candidate_of.
    fold g. rewrite Hg1, parse_gotchas. cbn [body metadata].
    change (String.eqb (Str.trim (Str.drop 1 gotchasText)) "") with false.
    reflexivity. }
  pose proof (loadMemoryFiles_state dir taskContext maxMemoryFiles w1) as Hload.
  cbv zeta in Hload. rewrite Hcands in Hload.
  change (sortByScore [cand]) with [cand] in Hload.
  assert ("gotchas.md" ∈ selectFiles [cand] maxMemoryFiles (taskTermsOf taskContext)) as Hsel.
  { apply select_gotchas; [exact Hmax|]. exists cand. split; [left; reflexivity | reflexivity]. }
  cbn [List.filter fileName cand] in Hload.
  rewrite (bool_decide_eq_true_2 _ Hsel) in Hload.
  cbn [List.map fold_left filePath cand info_of fileName sf_body] in Hload.
  rewrite (incrementUsageStat_readable g Loaded w1 gotchasContent Hg1) in Hload.
  cbn [snd] in Hload.
  rewrite gotchas_file in Hload at 1.
  rewrite (bumped_plain Loaded gotchasMetadata (Str.drop 1 gotchasText)) in Hload
    by reflexivity.
  eexists. split.
  { unfold loadContextMemory. unfold bind, try_catch. rewrite Hinit. cbv beta iota.
    fold dir. rewrite Hload. reflexivity. }
  split; [apply lookup_insert_eq|].
  split; [vm_compute; reflexivity|].
  split.
  { rewrite lookup_insert_ne by congruence. exact Hi1. }
  intros p Hp Hnot.
  assert (p <> g) as Pg
    by (intros E; rewrite E in Hp; unfold g in Hp; rewrite path_join_prefix in Hp; discriminate).
  assert (p <> i) as Pi
    by (intros E; rewrite E in Hp; unfold i in Hp; rewrite path_join_prefix in Hp; discriminate).
  assert (p <> dir) as Pd.
  { intros E. rewrite E, prefix_refl in Hp. discriminate. }
  unfold w1. rewrite !lookup_insert_ne by congruence. apply Hframe; assumption.
Qed.

Lemma fresh_project_first_load_witness :
  exists w',
    loadContextMemory "/project" true true None 5 ∅
    = (Ok [ {| name := "gotchas.md";
               path := "/project/.automaker/memory/gotchas.md";
               mf_content := Str.drop 1 gotchasText;
               mf_category := "gotchas" |} ], w')
    /\ w' !! "/project/.automaker/memory/gotchas.md"
       = Some (File (file_of (bump Loaded gotchasMetadata) (Str.drop 1 gotchasText)) true).
Proof.
  destruct (fresh_project_first_load "/project" None 5 ∅) as (w' & Hrun & Hg & _).
  - reflexivity.
  - intros p _. apply lookup_empty.
  - intros a _. reflexivity.
  - exists w'. split; [exact Hrun | exact Hg].
Defined.

(** X18. Whatever the file system and the options, the memory part of
    [loadContextFiles] returns normally: a failure of the initialization
    (an ancestor of the folder that is a file, a directory in the place of
    a starter file) is ignored and the loading goes on.  Without
    [includeMemory] it returns no memory file and leaves the file system as
    it was; so it does when the memory path is a file, and when the folder
    is missing and one of its ancestors is a file. *)
Theorem loadContextMemory_returns (projectPath : string) (includeMemory initializeMemory : bool)
    (taskContext : option TaskContext) (maxMemoryFiles : Z) (w : fs) :
  (exists memoryFiles w',
     loadContextMemory projectPath includeMemory initializeMemory taskContext maxMemoryFiles w
     = (Ok memoryFiles, w'))
  /\ (includeMemory = false ->
      loadContextMemory projectPath includeMemory initializeMemory taskContext maxMemoryFiles w
      = (Ok [], w))
  /\ ((exists c r, w !! getMemoryDir projectPath = Some (File c r)) ->
      loadContextMemory projectPath includeMemory initializeMemory taskContext maxMemoryFiles w
      = (Ok [], w))
  /\ (w !! getMemoryDir projectPath = None ->
      (exists a, In a (ancestors (getMemoryDir projectPath)) /\ is_file (w !! a) = true) ->
      loadContextMemory projectPath includeMemory initializeMemory taskContext maxMemoryFiles w
      = (Ok [], w)).
Proof.
  assert (forall w0, exists w1,
            (if initializeMemory
             then try_catch (initializeMemoryFolder projectPath) (ret tt)
             else ret tt) w0 = (Ok tt, w1)) as Hinit.
  { intros w0. destruct initializeMemory; [|eexists; reflexivity].
    unfold try_catch. destruct (initializeMemoryFolder projectPath w0) as [[[]|] w1];
      eexists; reflexivity. }
  split; [|split; [|split]].
  - unfold loadContextMemory. destruct includeMemory; [|eexists _, _; reflexivity].
    unfold bind. destruct (Hinit w) as [w1 ->].
    eexists _, _. apply loadMemoryFiles_state.
  - intros ->. reflexivity.
  - intros (c & r & Hfile). unfold loadContextMemory.
    destruct includeMemory; [|reflexivity].
    unfold bind.
    assert ((if initializeMemory
             then try_catch (initializeMemoryFolder projectPath) (ret tt)
             else ret tt) w = (Ok tt, w)) as ->.
    { destruct initializeMemory; [|reflexivity]. unfold try_catch.
      rewrite initialize_existing by congruence. reflexivity. }
    unfold loadMemoryFiles, try_catch, bind, access, readdir.
    rewrite Hfile. cbv beta iota. rewrite Hfile. reflexivity.
  - intros Hd (a & Ha & Hf). unfold loadContextMemory.
    destruct includeMemory; [|reflexivity].
    unfold bind.
    assert ((if initializeMemory
             then try_catch (initializeMemoryFolder projectPath) (ret tt)
             else ret tt) w = (Ok tt, w)) as ->.
    { destruct initializeMemory; [|reflexivity]. unfold try_catch.
      rewrite (initialize_blocked projectPath w a Hd Ha Hf). reflexivity. }
    unfold loadMemoryFiles, try_catch, bind, access.
    rewrite Hd. reflexivity.
Qed.

Lemma loadContextMemory_returns_witness :
  loadContextMemory "/project" false true None 5 Samples.auth_fs = (Ok [], Samples.auth_fs)
  /\ loadContextMemory "/project/.automaker/memory" true true None 5
       {[ getMemoryDir "/project/.automaker/memory" := File "not a folder" true ]}
     = (Ok [], {[ getMemoryDir "/project/.automaker/memory" := File "not a folder" true ]}).
Proof.
  split.
  - destruct (loadContextMemory_returns "/project" false true None 5 Samples.auth_fs)
      as (_ & H & _).
    apply H. reflexivity.
  - destruct (loadContextMemory_returns "/project/.automaker/memory" true true None 5
                {[ getMemoryDir "/project/.automaker/memory" := File "not a folder" true ]})
      as (_ & _ & H & _).
    apply H. exists "not a folder", true. apply lookup_singleton_eq.
Defined.

End FolderFacts.

(** ** Loading by relevance: [loadRelevantMemory] *)

Module RelevantFacts.
Import Codec Scoring Fs Memory Loader Relevant StrFacts MemoryFacts LoaderFacts LoadFacts.

Lemma scoreFile_run dir terms w file acc :
  scoreFile dir terms file acc w = (Ok (acc ++ option_list (scored_entry dir terms w file)), w).
Proof.
  unfold scoreFile, scored_entry.
  destruct (negb (endsWith ".md" file) || String.eqb file "_index.md")%bool;
    [unfold ret; simpl; rewrite List.app_nil_r; reflexivity|].
  unfold try_catch, bind, readFile, ret.
  destruct (w !! path_join dir file) as [[c [|]|]|]; simpl;
    rewrite ?List.app_nil_r; try reflexivity.
  destruct (Num.gtb _ _ || Num.geb _ _)%bool; simpl; rewrite ?List.app_nil_r; reflexivity.
Qed.

Lemma scoring_files dir terms w names : forall acc,
  for_of names (scoreFile dir terms) acc w
  = (Ok (acc ++ omap (scored_entry dir terms w) names), w).
Proof.
  induction names as [|n names IH]; intros acc; simpl.
  - unfold ret. rewrite List.app_nil_r. reflexivity.
  - unfold bind. rewrite scoreFile_run, IH.
    destruct (scored_entry dir terms w n); simpl.
    + rewrite <- List.app_assoc. reflexivity.
    + rewrite List.app_nil_r. reflexivity.
Qed.

Lemma loadFile_run dir scored w file acc :
  loadFile dir scored file acc w = (Ok (acc ++ option_list (loaded_entry dir scored w file)), w).
Proof.
  unfold loadFile, loaded_entry.
  destruct (List.find _ scored); [reflexivity|].
  destruct (String.eqb file "gotchas.md");
    [|unfold ret; simpl; rewrite List.app_nil_r; reflexivity].
  unfold try_catch, bind, readFile, ret.
  destruct (w !! path_join dir "gotchas.md") as [[c [|]|]|]; simpl;
    rewrite ?List.app_nil_r; reflexivity.
Qed.

Lemma loading_files dir scored w names : forall acc,
  for_of names (loadFile dir scored) acc w
  = (Ok (acc ++ omap (loaded_entry dir scored w) names), w).
Proof.
  induction names as [|n names IH]; intros acc; simpl.
  - unfold ret. rewrite List.app_nil_r. reflexivity.
  - unfold bind. rewrite loadFile_run, IH.
    destruct (loaded_entry dir scored w n); simpl.
    + rewrite <- List.app_assoc. reflexivity.
    + rewrite List.app_nil_r. reflexivity.
Qed.

Lemma bind_run {A B : Type} (m : io A) (k : A -> io B) (w : fs) :
  bind m k w
  = match m w with
    | (Ok a, w') => k a w'
    | (Throw, w') => (Throw, w')
    end.
Proof. unfold bind. destruct (m w) as [[a|] w']; reflexivity. Qed.

(** The call, case by case of the node at the path of the folder. *)
Lemma loadRelevantMemory_run toUpperCase projectPath featureTitle featureDescription (w : fs) :
  let dir := getMemoryDir projectPath in
  let terms := extractTerms (featureTitle +:+ " " +:+ featureDescription) in
  loadRelevantMemory toUpperCase projectPath featureTitle featureDescription w
  = match w !! dir with
    | None => (Ok {| files := []; formattedPrompt := "" |}, w)
    | Some (File _ _) => (Throw, w)
    | Some Dir =>
        let names := omap (child_name dir) (fst <$> map_to_list w) in
        let scored := sortScored (omap (scored_entry dir terms w) names) in
        let toLoad := set_of ("gotchas.md" :: List.map sc_file (List.firstn 5 scored)) in
        let loaded := omap (loaded_entry dir scored w) toLoad in
        (Ok {| files := loaded; formattedPrompt := buildMemoryPrompt toUpperCase loaded |}, w)
    end.
Proof.
  cbv zeta. set (dir := getMemoryDir projectPath).
  assert (try_catch (access dir >> ret true) (ret false) w
          = (Ok (match w !! dir with Some _ => true | None => false end), w)) as Hacc.
  { unfold try_catch, bind, access, ret. destruct (w !! dir); reflexivity. }
  unfold loadRelevantMemory. cbv zeta. fold dir. rewrite bind_run, Hacc.
  destruct (w !! dir) as [[c r|]|] eqn:Hd; cbn [negb]; try reflexivity.
  - rewrite bind_run. unfold readdir. rewrite Hd. reflexivity.
  - rewrite bind_run. unfold readdir at 1. rewrite Hd.
    rewrite bind_run, scoring_files. simpl List.app.
    rewrite bind_run, loading_files. reflexivity.
Qed.

Lemma insert_scored_perm x l : Permutation (insert_scored x l) (x :: l).
Proof.
  induction l as [|y l IH]; simpl; [reflexivity|].
  destruct (scored_after x y); [|reflexivity].
  rewrite IH. apply perm_swap.
Qed.

Lemma sortScored_perm l : Permutation (sortScored l) l.
Proof.
  induction l as [|x l IH]; simpl; [reflexivity|].
  rewrite insert_scored_perm. constructor. exact IH.
Qed.

Lemma set_add_NoDup acc x : NoDup acc -> NoDup (set_add acc x).
Proof.
  intros H. unfold set_add. destruct (List.existsb (String.eqb x) acc) eqn:E; [exact H|].
  apply NoDup_app. split; [exact H|]. split; [|apply NoDup_singleton].
  intros y Hy Hx. apply list_elem_of_singleton in Hx as ->.
  assert (List.existsb (String.eqb x) acc = true) as E'; [|congruence].
  apply existsb_exists. exists x. split; [apply list_elem_of_In; exact Hy | apply String.eqb_refl].
Qed.

Lemma set_fold_facts xs : forall acc,
  NoDup acc ->
  NoDup (fold_left set_add xs acc)
  /\ List.length (fold_left set_add xs acc) <= List.length acc + List.length xs
  /\ exists rest, fold_left set_add xs acc = acc ++ rest.
Proof.
  induction xs as [|x xs IH]; intros acc Hnd; simpl.
  - split; [exact Hnd|]. split; [lia|]. exists []. rewrite List.app_nil_r. reflexivity.
  - destruct (IH (set_add acc x) (set_add_NoDup acc x Hnd)) as (H1 & H2 & rest & H3).
    split; [exact H1|]. split.
    + etransitivity; [exact H2|]. unfold set_add.
      destruct (List.existsb _ acc); rewrite ?List.length_app; simpl; lia.
    + rewrite H3. unfold set_add. destruct (List.existsb _ acc); [eauto|].
      exists ([x] ++ rest). rewrite List.app_assoc. reflexivity.
Qed.

Lemma set_of_gotchas names :
  NoDup (set_of ("gotchas.md" :: names))
  /\ List.length (set_of ("gotchas.md" :: names)) <= 1 + List.length names
  /\ exists rest, set_of ("gotchas.md" :: names) = "gotchas.md" :: rest.
Proof.
  unfold set_of. simpl fold_left. change (set_add [] "gotchas.md") with ["gotchas.md"].
  destruct (set_fold_facts names ["gotchas.md"]) as (H1 & H2 & rest & H3);
    [apply NoDup_singleton|].
  split; [exact H1|]. split; [exact H2|]. exists rest. exact H3.
Qed.

Lemma loaded_entry_name dir scored w n e : loaded_entry dir scored w n = Some e -> mem_name e = n.
Proof.
  unfold loaded_entry. destruct (List.find _ scored); [intros [= <-]; reflexivity|].
  destruct (String.eqb n "gotchas.md"); [|discriminate].
  destruct (w !! path_join dir "gotchas.md") as [[c [|]|]|]; try discriminate.
  intros [= <-]. reflexivity.
Qed.

Lemma loaded_names dir scored w names :
  NoDup names ->
  NoDup (List.map mem_name (omap (loaded_entry dir scored w) names))
  /\ List.length (omap (loaded_entry dir scored w) names) <= List.length names.
Proof.
  induction names as [|n names IH]; intros Hnd; simpl; [split; [constructor | lia]|].
  apply NoDup_cons in Hnd as [Hn Hnd]. destruct (IH Hnd) as [H1 H2].
  destruct (loaded_entry dir scored w n) as [e|] eqn:He; simpl;
    [|split; [exact H1 | apply Nat.le_le_succ_r; exact H2]].
  split; [|apply le_n_S; exact H2]. apply NoDup_cons. split; [|exact H1].
  rewrite (loaded_entry_name _ _ _ _ _ He). intros Hin. apply Hn.
  apply list_elem_of_In in Hin. apply list_elem_of_In.
  apply in_map_iff in Hin as (e' & He' & Hin).
  apply list_elem_of_In, list_elem_of_omap in Hin as (k & Hk & Hke).
  apply loaded_entry_name in Hke. apply list_elem_of_In. congruence.
Qed.

(** An entry of [scored] holds what was read from the file of its name. *)
Lemma scored_entry_file dir terms w n s :
  scored_entry dir terms w n = Some s ->
  sc_file s = n
  /\ endsWith ".md" n = true /\ n <> "_index.md"
  /\ (Num.gtb (sc_score s) (Num.Num 0) = true
      \/ Num.geb (importance (sc_metadata s)) (Num.Num (9 # 10)) = true)
  /\ exists c, w !! path_join dir n = Some (File c true)
               /\ sc_content s = body (parseFrontmatter c)
               /\ sc_metadata s = metadata (parseFrontmatter c)
               /\ sc_score s = relevanceOf (metadata (parseFrontmatter c)) terms.
Proof.
  unfold scored_entry.
  destruct (endsWith ".md" n) eqn:Hmd; simpl; [|discriminate].
  destruct (String.eqb_spec n "_index.md") as [|Hidx]; [discriminate|].
  destruct (w !! path_join dir n) as [[c [|]|]|]; try discriminate.
  destruct (Num.gtb _ _ || Num.geb _ _)%bool eqn:Hwhy; [|discriminate].
  intros [= <-]. simpl. apply orb_true_iff in Hwhy.
  repeat split; try assumption. eauto 6.
Qed.

Section Call.
Variable toUpperCase : string -> string.
Variables projectPath featureTitle featureDescription : string.
Variable w : fs.

(** X19. [loadRelevantMemory] only reads: it leaves the file system as it
    was in every case.  When the folder is missing it returns no file and
    an empty prompt.  When a file stands in the place of the folder, the
    listing of the folder fails outside any [try] and the call fails.
    When the folder is a directory, the call returns at most six files with
    distinct names: each is a readable markdown file of the folder other
    than [_index.md], returned with the body and the metadata read from it,
    and each is [gotchas.md] or has a positive score or an importance of at
    least 0.9. *)
Theorem loadRelevantMemory_reads :
  let dir := getMemoryDir projectPath in
  let terms := extractTerms (featureTitle +:+ " " +:+ featureDescription) in
  let run := loadRelevantMemory toUpperCase projectPath featureTitle featureDescription w in
  snd run = w
  /\ (w !! dir = None -> fst run = Ok {| files := []; formattedPrompt := "" |})
  /\ ((exists c r, w !! dir = Some (File c r)) -> fst run = Throw)
  /\ (w !! dir = Some Dir ->
      exists res,
        fst run = Ok res
        /\ List.length (files res) <= 6
        /\ NoDup (List.map mem_name (files res))
        /\ formattedPrompt res = buildMemoryPrompt toUpperCase (files res)
        /\ Forall
             (fun f =>
                exists c,
                  w !! path_join dir (mem_name f) = Some (File c true)
                  /\ mem_content f = body (parseFrontmatter c)
                  /\ mem_metadata f = metadata (parseFrontmatter c)
                  /\ endsWith ".md" (mem_name f) = true
                  /\ mem_name f <> "_index.md"
                  /\ (mem_name f = "gotchas.md"
                      \/ Num.gtb (relevanceOf (mem_metadata f) terms) (Num.Num 0) = true
                      \/ Num.geb (importance (mem_metadata f)) (Num.Num (9 # 10)) = true))
             (files res)).
Proof.
  cbv zeta. rewrite loadRelevantMemory_run. cbv zeta.
  set (dir := getMemoryDir projectPath).
  set (terms := extractTerms (featureTitle +:+ " " +:+ featureDescription)).
  destruct (w !! dir) as [[c r|]|] eqn:Hd.
  - split; [reflexivity|]. split; [discriminate|]. split; [reflexivity | discriminate].
  - split; [reflexivity|]. split; [discriminate|].
    split; [intros (c & r & H); discriminate|]. intros _.
    set (names := omap (child_name dir) (fst <$> map_to_list w)).
    set (scored := sortScored (omap (scored_entry dir terms w) names)).
    set (tops := List.map sc_file (List.firstn 5 scored)).
    destruct (set_of_gotchas tops) as (Hnd & Hlen & rest & Hhead).
    destruct (loaded_names dir scored w _ Hnd) as [Hnames Hcount].
    assert (forall s, In s scored -> scored_entry dir terms w (sc_file s) = Some s) as Hsc.
    { intros s Hs. apply (Permutation_in _ (sortScored_perm _)) in Hs.
      apply list_elem_of_In, list_elem_of_omap in Hs as (n & _ & Hn).
      destruct (scored_entry_file _ _ _ _ _ Hn) as (<- & _). exact Hn. }
    eexists. split; [reflexivity|]. cbn [files formattedPrompt].
    split.
    { etransitivity; [exact Hcount|]. etransitivity; [exact Hlen|].
      unfold tops. rewrite List.length_map.
      pose proof (List.firstn_le_length 5 scored). lia. }
    split; [exact Hnames|]. split; [reflexivity|].
    apply List.Forall_forall. intros f Hf.
    apply list_elem_of_In, list_elem_of_omap in Hf as (n & _ & Hn).
    unfold loaded_entry in Hn.
    destruct (List.find (fun s => String.eqb (sc_file s) n) scored) as [e|] eqn:Hfind.
    + injection Hn as <-. apply find_some in Hfind as [He Hname].
      apply String.eqb_eq in Hname.
      destruct (scored_entry_file _ _ _ _ _ (Hsc e He))
        as (_ & Hmd & Hidx & Hwhy & c & Hc & Hb & Hm & Hs).
      rewrite Hname in Hc, Hmd, Hidx. exists c. cbn [mem_name mem_content mem_metadata].
      split; [exact Hc|]. split; [exact Hb|]. split; [exact Hm|].
      split; [exact Hmd|]. split; [exact Hidx|]. right.
      rewrite Hs, <- Hm in Hwhy. exact Hwhy.
    + destruct (String.eqb_spec n "gotchas.md") as [->|]; [|discriminate].
      destruct (w !! path_join dir "gotchas.md") as [[c [|]|]|] eqn:Hg; try discriminate.
      injection Hn as <-. exists c. cbn [mem_name mem_content mem_metadata].
      split; [exact Hg|]. repeat split. { discriminate. } left. reflexivity.
  - split; [reflexivity|]. split; [reflexivity|].
    split; [intros (c & r & H); discriminate | discriminate].
Qed.

(** X20. When the folder is a directory and [gotchas.md] in it can be
    read, [loadRelevantMemory] returns it as the first file, with the body
    and the metadata read from it - whatever its score and its importance,
    and even if its body is blank or it has no frontmatter. *)
Theorem loadRelevantMemory_gotchas (c : string) :
  let dir := getMemoryDir projectPath in
  w !! dir = Some Dir ->
  w !! path_join dir "gotchas.md" = Some (File c true) ->
  exists rest prompt,
    loadRelevantMemory toUpperCase projectPath featureTitle featureDescription w
    = (Ok {| files := {| mem_name := "gotchas.md";
                         mem_content := body (parseFrontmatter c);
                         mem_metadata := metadata (parseFrontmatter c) |} :: rest;
             formattedPrompt := prompt |}, w).
Proof.
  cbv zeta. intros Hd Hg. rewrite loadRelevantMemory_run. cbv zeta. rewrite Hd.
  set (dir := getMemoryDir projectPath) in *.
  set (terms := extractTerms (featureTitle +:+ " " +:+ featureDescription)).
  set (names := omap (child_name dir) (fst <$> map_to_list w)).
  set (scored := sortScored (omap (scored_entry dir terms w) names)).
  set (tops := List.map sc_file (List.firstn 5 scored)).
  destruct (set_of_gotchas tops) as (_ & _ & rest & ->).
  assert (loaded_entry dir scored w "gotchas.md"
          = Some {| mem_name := "gotchas.md";
                    mem_content := body (parseFrontmatter c);
                    mem_metadata := metadata (parseFrontmatter c) |}) as Hentry.
  { unfold loaded_entry.
    destruct (List.find (fun s => String.eqb (sc_file s) "gotchas.md") scored) as [e|] eqn:Hfind.
    - apply find_some in Hfind as [He Hname]. apply String.eqb_eq in Hname.
      apply (Permutation_in _ (sortScored_perm _)) in He.
      apply list_elem_of_In, list_elem_of_omap in He as (n & _ & Hn).
      destruct (scored_entry_file _ _ _ _ _ Hn) as (Hfile & _ & _ & _ & c' & Hc' & Hb & Hm & _).
      rewrite <- Hfile, Hname in Hc'. rewrite Hg in Hc'. injection Hc' as <-.
      rewrite Hb, Hm. reflexivity.
    - simpl. rewrite Hg. reflexivity. }
  simpl omap. rewrite Hentry. eexists _, _. reflexivity.
Qed.

End Call.

Lemma loadRelevantMemory_reads_witness :
  exists res,
    loadRelevantMemory (fun s => s) "/project" "JWT login" "" Scenarios.feature_fs
    = (Ok res, Scenarios.feature_fs)
    /\ List.length (files res) <= 6
    /\ NoDup (List.map mem_name (files res)).
Proof.
  destruct (loadRelevantMemory_reads (fun s => s) "/project" "JWT login" ""
              Scenarios.feature_fs) as (Hfs & _ & _ & H).
  destruct H as (res & Hres & Hlen & Hnd & _); [reflexivity|].
  exists res. split; [|split; [exact Hlen | exact Hnd]].
  rewrite <- Hfs at 2. rewrite <- Hres. apply surjective_pairing.
Defined.

Lemma loadRelevantMemory_gotchas_witness :
  exists rest prompt,
    loadRelevantMemory (fun s => s) "/project" "JWT login" "" Scenarios.feature_fs
    = (Ok {| files := {| mem_name := "gotchas.md";
                         mem_content := "Never log tokens";
                         mem_metadata := createDefaultMetadata |} :: rest;
             formattedPrompt := prompt |}, Scenarios.feature_fs).
Proof.
  apply (loadRelevantMemory_gotchas (fun s => s) "/project" "JWT login" ""
           Scenarios.feature_fs "Never log tokens"); reflexivity.
Defined.

End RelevantFacts.

(** ** A file that [appendLearning] created is read back *)

Module LearnFacts.
Import Codec Scoring Fs Memory Loader Header StrFacts MemoryFacts HeaderFacts TermFacts.

Lemma file_char_word c : is_file_char c = true -> word_char c = true.
Proof.
  unfold is_file_char, word_char, is_letter, Chr.is_lower. intros H.
  apply orb_true_iff in H as [H|H]; [apply orb_true_iff in H as [H|H]|]; rewrite H;
    rewrite ?orb_true_r; reflexivity.
Qed.

Lemma file_name_plain category : plain_word (or_general (sanitizeCategory category)) = true.
Proof.
  unfold or_general.
  destruct (String.eqb_spec (sanitizeCategory category) "") as [|Hne]; [reflexivity|].
  unfold plain_word. apply andb_true_iff. split.
  - apply negb_true_iff. apply String.eqb_neq. exact Hne.
  - apply (forallb_weaken is_file_char); [exact file_char_word|].
    apply forallb_filter.
Qed.

Lemma seeded_plain l :
  plain_summary (summary (seededMetadata l)) = true -> plain_metadata (seededMetadata l) = true.
Proof.
  intros H. unfold plain_metadata. cbn [tags relevantTo importance relatedFiles seededMetadata].
  cbn [List.forallb]. rewrite file_name_plain, H. reflexivity.
Qed.

(** X21. The category consists of letters, digits, hyphens, underscores,
    dots, slashes and spaces and does not start with a space; the memory
    folder exists and the path of the file of the category is free.  Then the file that [appendLearning] creates is
    read back with the seeded metadata - the sanitized name as only tag and
    only [relevantTo] term, the summary, importance 0.7, no related file,
    the counters at 0 - and with the heading and the formatted entry as
    body; after a further learning of the same category the metadata read
    back is the same and the body is followed by the new entry. *)
Theorem created_file_reads_back (projectPath date : string) (l : LearningEntry) (w : fs) :
  let p := learningFilePath projectPath l in
  let text := "# " +:+ category l +:+ Str.LF +:+ formatLearning date l in
  plain_summary (category l +:+ " implementation decisions and patterns") = true ->
  w !! getMemoryDir projectPath = Some Dir ->
  w !! p = None ->
  exists c,
    appendLearning projectPath date l w = (Ok tt, <[p := File c true]> w)
    /\ parseFrontmatter c = {| metadata := seededMetadata l; body := text |}
    /\ forall date2 l2, category l2 = category l ->
         exists c2,
           appendLearning projectPath date2 l2 (<[p := File c true]> w)
           = (Ok tt, <[p := File c2 true]> w)
           /\ parseFrontmatter c2
              = {| metadata := seededMetadata l;
                   body := text +:+ Str.LF +:+ formatLearning date2 l2 |}.
Proof.
  cbv zeta. intros Hs Hdir Hfree.
  assert (plain_metadata (seededMetadata l) = true) as Hm by (apply seeded_plain; exact Hs).
  assert (forall t, serializeFrontmatter (seededMetadata l)
                    +:+ (Str.LF +:+ "# " +:+ category l +:+ Str.LF) +:+ t
                    = file_of (seededMetadata l) ("# " +:+ category l +:+ Str.LF +:+ t)) as Hfile.
  { intros t. unfold file_of. rewrite !app_assoc. reflexivity. }
  set (created := serializeFrontmatter (seededMetadata l)
                  +:+ (Str.LF +:+ "# " +:+ category l +:+ Str.LF) +:+ formatLearning date l).
  exists created. split; [apply appendLearning_missing; [exact Hdir | exact Hfree]|].
  split; [unfold created; rewrite Hfile; apply parse_plain_file; [exact Hm | reflexivity]|].
  intros date2 l2 Hcat. exists (created +:+ Str.LF +:+ formatLearning date2 l2). split.
  - rewrite (appendLearning_existing projectPath date2 l2 _ created true).
    + unfold learningFilePath, learningFileName. rewrite Hcat.
      rewrite insert_insert_eq. reflexivity.
    + unfold learningFilePath, learningFileName. rewrite Hcat. apply lookup_insert_eq.
  - transitivity
      (parseFrontmatter
         (file_of (seededMetadata l)
            (("# " +:+ category l +:+ Str.LF +:+ formatLearning date l)
             +:+ Str.LF +:+ formatLearning date2 l2))).
    { f_equal. unfold file_of, created. rewrite !app_assoc. reflexivity. }
    apply parse_plain_file; [exact Hm | reflexivity].
Qed.

Lemma created_file_reads_back_witness :
  exists c,
    appendLearning "/project" "2026-01-05" Samples.api_learning {[ Samples.memory_dir := Dir ]}
    = (Ok tt, <[ "/project/.automaker/memory/api-design.md" := File c true ]>
                {[ Samples.memory_dir := Dir ]})
    /\ tags (metadata (parseFrontmatter c)) = ["api-design"]
    /\ importance (metadata (parseFrontmatter c)) = Num.Num (7 # 10).
Proof.
  destruct (created_file_reads_back "/project" "2026-01-05" Samples.api_learning
              {[ Samples.memory_dir := Dir ]})
    as (c & Hrun & Hparse & _); [reflexivity | reflexivity | reflexivity |].
  exists c. split; [exact Hrun|]. rewrite Hparse. split; reflexivity.
Defined.

End LearnFacts.

(** ** The prompts of the context loader *)

Module PromptFacts.
Import Codec Fs Memory Loader Prompt StrFacts.

Lemma occurs_refl x : occurs_in x x.
Proof. exists "", "". rewrite app_nil_r. reflexivity. Qed.

Lemma occurs_app x a s b : occurs_in x s -> occurs_in x (a +:+ s +:+ b).
Proof.
  intros (u & v & ->). exists (a +:+ u), (v +:+ b). rewrite !app_assoc. reflexivity.
Qed.

Lemma occurs_join sep x xs : In x xs -> occurs_in x (Str.join sep xs).
Proof.
  induction xs as [|y ys IH]; intros Hin; [destruct Hin|].
  destruct ys as [|z zs].
  - destruct Hin as [->|[]]. apply occurs_refl.
  - change (Str.join sep (y :: z :: zs)) with (y +:+ sep +:+ Str.join sep (z :: zs)).
    destruct Hin as [->|Hin].
    + exists "", (sep +:+ Str.join sep (z :: zs)). reflexivity.
    + destruct (IH Hin) as (u & v & ->). exists (y +:+ sep +:+ u), v.
      rewrite !app_assoc. reflexivity.
Qed.

Section Upper.
Variable toUpperCase : string -> string.

(** X22. The prompt that [loadContextFiles] returns is empty exactly when
    there is neither a context file nor a memory file.  With files of one
    kind only it is the prompt of that kind, with no separator before or
    after; with both it is the context prompt, an empty line and the memory
    prompt.  The entry of every context file (name, path, purpose if it is
    not empty, content) and the section of every memory file (its category
    in upper case and its content) occur in it as they are. *)
Theorem combined_prompt (files : list ContextFileInfo) (memoryFiles : list MemoryFileInfo) :
  let contextPrompt := buildContextPrompt files in
  let memoryPrompt := buildMemoryPrompt toUpperCase memoryFiles in
  let prompt := formattedPromptOf toUpperCase files memoryFiles in
  (prompt = "" <-> files = [] /\ memoryFiles = [])
  /\ (memoryFiles = [] -> prompt = contextPrompt)
  /\ (files = [] -> prompt = memoryPrompt)
  /\ (files <> [] -> memoryFiles <> [] ->
      prompt = contextPrompt +:+ Str.LF +:+ Str.LF +:+ memoryPrompt)
  /\ (forall f, In f files -> occurs_in (formatContextFileEntry f) prompt)
  /\ (forall f, In f memoryFiles ->
        occurs_in ("## " +:+ toUpperCase (mf_category f) +:+ Str.LF +:+ Str.LF +:+ mf_content f)
          prompt).
Proof.
  cbv zeta.
  assert (forall f, In f files -> occurs_in (formatContextFileEntry f) (buildContextPrompt files))
    as Hctx.
  { intros f Hf. destruct files as [|g fs]; [destruct Hf|].
    unfold buildContextPrompt. apply occurs_app. apply occurs_join.
    apply in_map. exact Hf. }
  assert (forall f, In f memoryFiles ->
            occurs_in ("## " +:+ toUpperCase (mf_category f) +:+ Str.LF +:+ Str.LF +:+ mf_content f)
              (buildMemoryPrompt toUpperCase memoryFiles)) as Hmem.
  { intros f Hf. destruct memoryFiles as [|g fs]; [destruct Hf|].
    unfold buildMemoryPrompt. apply occurs_app. apply occurs_join.
    apply (in_map (fun file => "## " +:+ toUpperCase (mf_category file) +:+ Str.LF +:+ Str.LF
                               +:+ mf_content file)). exact Hf. }
  assert (formattedPromptOf toUpperCase files memoryFiles
          = match files, memoryFiles with
            | [], [] => ""
            | _ :: _, [] => buildContextPrompt files
            | [], _ :: _ => buildMemoryPrompt toUpperCase memoryFiles
            | _ :: _, _ :: _ =>
                buildContextPrompt files +:+ Str.LF +:+ Str.LF
                +:+ buildMemoryPrompt toUpperCase memoryFiles
            end) as ->.
  { unfold formattedPromptOf. destruct files as [|f fs]; destruct memoryFiles as [|g gs];
      reflexivity. }
  split.
  { destruct files as [|f fs]; destruct memoryFiles as [|g gs]; split;
      try (intros [H1 H2]; discriminate); try (intros H; discriminate H).
    - intros _. split; reflexivity.
    - intros _. reflexivity. }
  split.
  { intros ->. destruct files; reflexivity. }
  split.
  { intros ->. destruct memoryFiles; reflexivity. }
  split.
  { intros Hf Hg. destruct files; [congruence|]. destruct memoryFiles; [congruence|].
    reflexivity. }
  split.
  - intros f Hf. specialize (Hctx f Hf).
    destruct files as [|f0 fs]; [destruct Hf|]. destruct memoryFiles as [|g gs]; [exact Hctx|].
    destruct Hctx as (u & v & ->). exists u, (v +:+ Str.LF +:+ Str.LF
                                               +:+ buildMemoryPrompt toUpperCase (g :: gs)).
    rewrite !app_assoc. reflexivity.
  - intros g Hg. specialize (Hmem g Hg).
    destruct memoryFiles as [|g0 gs]; [destruct Hg|]. destruct files as [|f fs]; [exact Hmem|].
    destruct Hmem as (u & v & ->).
    exists (buildContextPrompt (f :: fs) +:+ Str.LF +:+ Str.LF +:+ u), v.
    rewrite !app_assoc. reflexivity.
Qed.

End Upper.

End PromptFacts.
